(** * UHF MEV backend: the engine of [src/index.ts], embedded and verified

    The development follows the source file top to bottom: the JavaScript
    number and string helpers it relies on, the records it keeps in its
    module-level variables, then [generateStrategies], [scanOpportunities],
    [executeStrategy], [tradingLoop] and the HTTP handlers.

    Conventions.
    - Everything the program reads from its surroundings (the outcome of a
      provider call, a [Date.now()] reading, a [Math.random()] draw) is an
      explicit input of the function that reads it.
    - A promise that settles is a [Settled] value; a function that may throw
      (or, for an [async] function, reject) returns an [Outcome].
    - Counters are JavaScript numbers that only ever hold integers and are
      only ever incremented from zero: they are integers here (binary64
      addition of one is exact below 2^53).
    - The quantities derived from [Math.random()] and the running averages
      are rationals and their arithmetic is exact: binary64 rounding is not
      tracked there, and what is stated of these quantities is stated so
      that rounding does not decide it (ranges, signs and orders, not
      equalities between sums).  Two places need more.  The withdrawal
      handler turns a number into an amount of wei, so it is modelled on
      binary64 itself (the kernel's primitive floats).  The average of
      [/api/flashloans] is printed to six decimals, so its handler is also
      given with the rounding of each operation as a parameter
      ([flashloans_with]) and its average is bounded for every rounding
      that is as accurate as binary64.
    - A round of the loop is modelled twice: as one step of a coroutine
      ([tradingLoop], for what the commands promise), and [await] by
      [await] ([proceed], for what a handler can read while rounds are in
      progress).
    - A decimal string produced by [toFixed], [formatEther] or [formatUnits]
      is kept as the scaled integer it spells ([NumString]). *)

From Stdlib Require Import ZArith QArith Qround Qabs List Sorted Bool Lia Lqa.
From Stdlib Require Import Strings.String Strings.Ascii Numbers.DecimalString.
From Stdlib Require Import Numbers.DecimalNat.
From Stdlib Require Import Floats.
Import ListNotations.

#[local] Open Scope Z_scope.
#[local] Set Warnings "-inexact-float".

(** ** JavaScript values *)

(** The result of awaiting a promise. *)
Inductive Settled (A : Type) : Type :=
| Resolved (a : A)
| Rejected (reason : string).
Arguments Resolved {A} a.
Arguments Rejected {A} reason.

(** The result of running a function body: a value, or a thrown error with
    its message. *)
Inductive Outcome (A : Type) : Type :=
| Returned (a : A)
| Threw (message : string).
Arguments Returned {A} a.
Arguments Threw {A} message.

Module Num.

(** A number rendered as text.  [Fixed n p] is the decimal string with [p]
    fractional digits that spells [n / 10^p]; [Exponent] stands for the
    exponent notation [toFixed] falls back to from 1e21 on. *)
Inductive NumString : Type :=
| Fixed (n : Z) (p : nat)
| Exponent (x : Q).

Definition pow10 (p : nat) : Z := 10 ^ Z.of_nat p.

(** [Number.prototype.toFixed(p)]: the integer [n] for which [n / 10^p] is
    closest to [|x|], the larger one on a tie, with the sign put back. *)
Definition toFixed (p : nat) (x : Q) : NumString :=
  if Qle_bool (inject_Z (10 ^ 21)) (Qabs x) then Exponent x
  else Fixed (Z.sgn (Qnum x)
              * Qfloor (Qabs x * inject_Z (pow10 p) + (1 # 2))) p.

(** [parseFloat] of a rendered number. *)
Definition parseFloat (s : NumString) : Q :=
  match s with
  | Fixed n p => inject_Z n / inject_Z (pow10 p)
  | Exponent x => x
  end.

(** [Math.floor]. *)
Definition floor (x : Q) : Z := Qfloor x.

(** [String.prototype.toUpperCase] on ASCII text. *)
Definition toUpperCase_ascii (c : ascii) : ascii :=
  let n := nat_of_ascii c in
  if (97 <=? n)%nat && (n <=? 122)%nat then ascii_of_nat (n - 32) else c.

Fixpoint toUpperCase (s : string) : string :=
  match s with
  | EmptyString => EmptyString
  | String c rest => String (toUpperCase_ascii c) (toUpperCase rest)
  end.

(** A template literal's rendering of a non-negative integer. *)
Definition decimal (n : nat) : string :=
  NilEmpty.string_of_uint (Nat.to_uint n).

End Num.

(** ** Binary64, for the withdrawal handler *)

Module B64.

(** The binary64 value nearest to [n / d] (ties to even), for [n >= 0] and
    [d > 0]: what [parseFloat] returns on the decimal string of [n / d]. *)
Definition of_ratio (n d : Z) : float :=
  match n, d with
  | Zpos _, Zpos _ =>
      let '(q, e, l) := SpecFloat.SFdiv_core_binary prec emax n 0 d 0 in
      SF2Prim (SpecFloat.binary_round_aux prec emax false q e l)
  | _, _ => 0%float
  end.

(** The rational a finite binary64 value denotes. *)
Definition to_Q (x : float) : option Q :=
  match Prim2SF x with
  | S754_zero _ => Some 0%Q
  | S754_finite s m e =>
      let v := match e with
               | Zneg k => (Zpos m # 2 ^ k)%Q
               | _ => inject_Z (Zpos m * 2 ^ e)
               end in
      Some (if s then Qopp v else v)
  | _ => None
  end.

(** [x.toFixed(p)] on a binary64 value ([NaN] and the infinities render as
    words, which no caller below can parse back). *)
Definition toFixed (p : nat) (x : float) : option Num.NumString :=
  option_map (Num.toFixed p) (to_Q x).

End B64.

(** ** The module-level state of [index.ts] *)

Module Strategy.
Record t : Type := mk {
  id : string;
  name : string;
  type : string;
  riskLevel : string;
  enabled : bool;
  priority : Z;
  successRate : Q;
  totalTrades : Z;
  totalProfitUSD : Q;
  apy : Q
}.
End Strategy.

Module Opportunity.
(** [id] is the template string [OPP-<n>]: the reading [n] of the clock
    that names it is kept. *)
Record t : Type := mk {
  id : Z;
  type : string;
  profitETH : Num.NumString;
  gasPrice : Num.NumString;
  blockNumber : Z;
  timestamp : Z
}.
End Opportunity.

Module Stats.
Record t : Type := mk {
  startTime : Z;
  trades : Z;
  successfulTrades : Z;
  failedTrades : Z;
  totalProfitETH : Q;
  totalGasCostETH : Q;
  avgLatencyMs : Q;
  lastTradeTime : Z
}.
End Stats.

(** [provider] and [wallet] are assigned once by [initBlockchain] and read
    everywhere else: [provider] is set or not, [wallet] is set (and has an
    address) or not.  The process environment may name the address profits
    are withdrawn to. *)
Record Env : Type := {
  provider : bool;
  wallet : option string;
  PROFIT_WALLET_ADDRESS : option string
}.

Definition BACKEND_WALLET : string :=
  "0xe75C82c976Ecc954bfFbbB2e7Fb94652C791bea5".

(** [process.env.PROFIT_WALLET_ADDRESS || BACKEND_WALLET]: an unset or empty
    variable falls back to the backend's own address. *)
Definition PROFIT_WALLET (env : Env) : string :=
  match PROFIT_WALLET_ADDRESS env with
  | Some a => if String.eqb a "" then BACKEND_WALLET else a
  | None => BACKEND_WALLET
  end.

Record State : Type := mkState {
  engineRunning : bool;
  uhfRunning : bool;
  totalTrades : Z;
  totalProfitUSD : Q;
  strategies : list Strategy.t;
  opportunities : list Opportunity.t;
  stats : Stats.t
}.

(** The state when the module has just been loaded at clock reading [now]. *)
Definition initial (now : Z) : State :=
  {| engineRunning := false;
     uhfRunning := false;
     totalTrades := 0;
     totalProfitUSD := 0;
     strategies := [];
     opportunities := [];
     stats := Stats.mk now 0 0 0 0 0 0 0 |}.

Definition set_flags (e u : bool) (s : State) : State :=
  mkState e u (totalTrades s) (totalProfitUSD s) (strategies s)
    (opportunities s) (stats s).

Definition set_strategies (l : list Strategy.t) (s : State) : State :=
  mkState (engineRunning s) (uhfRunning s) (totalTrades s) (totalProfitUSD s)
    l (opportunities s) (stats s).

Definition set_opportunities (l : list Opportunity.t) (s : State) : State :=
  mkState (engineRunning s) (uhfRunning s) (totalTrades s) (totalProfitUSD s)
    (strategies s) l (stats s).

Definition set_stats (x : Stats.t) (s : State) : State :=
  mkState (engineRunning s) (uhfRunning s) (totalTrades s) (totalProfitUSD s)
    (strategies s) (opportunities s) x.

Definition set_totals (n : Z) (usd : Q) (s : State) : State :=
  mkState (engineRunning s) (uhfRunning s) n usd (strategies s)
    (opportunities s) (stats s).

(** ** [generateStrategies] *)

Definition strategyTypes : list string :=
  [ "sandwich"; "frontrun"; "backrun"; "arbitrage"; "liquidation";
    "jit_liquidity"; "flash_swap"; "triangular"; "cross_dex" ]%string.

(** The object pushed in round [i] of the loop.  [rand k] is what the [k]-th
    call of [Math.random()] made by [generateStrategies] returns; round [i]
    makes the calls [3i], [3i+1] and [3i+2]. *)
Definition newStrategy (rand : nat -> Q) (i : nat) : Strategy.t :=
  let type := nth (i mod List.length strategyTypes) strategyTypes ""%string in
  {| Strategy.id := "STRAT-" ++ Num.decimal (i + 1);
     Strategy.name := Num.toUpperCase type ++ " #" ++ Num.decimal (i + 1);
     Strategy.type := type;
     Strategy.riskLevel :=
       if (i mod 3 =? 0)%nat then "high"
       else if (i mod 3 =? 1)%nat then "medium" else "low";
     Strategy.enabled := true;
     Strategy.priority := Num.floor (rand (3 * i)%nat * 100);
     Strategy.successRate := 0.75 + rand (3 * i + 1)%nat * 0.2;
     Strategy.totalTrades := 0;
     Strategy.totalProfitUSD := 0;
     Strategy.apy := 40000 + rand (3 * i + 2)%nat * 20000 |}%Q%string.

Definition generateStrategies (rand : nat -> Q) (s : State) : State :=
  fold_left
    (fun s i => set_strategies (strategies s ++ [newStrategy rand i]) s)
    (seq 0 450) s.

(** ** [scanOpportunities] *)

(** What one call reads: the two provider calls ([gasPrice] is [bigint] or
    [null]), then, while it builds the object literal, the clock, one random
    draw and the clock again. *)
Record ScanIn : Type := {
  scan_blockNumber : Settled Z;
  scan_feeData : Settled (option Z);
  scan_now_id : Z;
  scan_random : Q;
  scan_now_timestamp : Z
}.

Inductive ScanResult : Type :=
| Undefined
| Null
| Found (opp : Opportunity.t).

(** [opportunities.push(opp); if (opportunities.length > 50)
    opportunities.shift()]. *)
Definition push_bounded (opp : Opportunity.t) (l : list Opportunity.t)
  : list Opportunity.t :=
  let l' := l ++ [opp] in
  if (50 <? List.length l')%nat then tl l' else l'.

(** The object literal of the [try] block, once both provider calls have
    resolved ([gasPrice || 0] reads a missing gas price as zero;
    [formatUnits(.., 'gwei')] spells wei with nine fractional digits). *)
Definition newOpportunity (i : ScanIn) (blockNumber : Z) (gasPrice : option Z)
  : Opportunity.t :=
  {| Opportunity.id := scan_now_id i;
     Opportunity.type := "arbitrage";
     Opportunity.profitETH := Num.toFixed 6 (0.001 + scan_random i * 0.01)%Q;
     Opportunity.gasPrice :=
       Num.Fixed (match gasPrice with Some g => g | None => 0 end) 9;
     Opportunity.blockNumber := blockNumber;
     Opportunity.timestamp := scan_now_timestamp i |}.

(** The body of the [try] block. *)
Definition scan_try (i : ScanIn) (s : State) : Outcome ScanResult * State :=
  match scan_blockNumber i with
  | Rejected e => (Threw e, s)
  | Resolved blockNumber =>
      match scan_feeData i with
      | Rejected e => (Threw e, s)
      | Resolved gasPrice =>
          let opp := newOpportunity i blockNumber gasPrice in
          (Returned (Found opp),
           set_opportunities (push_bounded opp (opportunities s)) s)
      end
  end.

Definition scanOpportunities (env : Env) (i : ScanIn) (s : State)
  : Outcome ScanResult * State :=
  if negb (provider env) then (Returned Undefined, s)
  else
    match scan_try i s with
    | (Threw _, s') => (Returned Null, s')
    | r => r
    end.

(** ** [executeStrategy] *)

(** What one call reads once it is past its guard: the clock, the balance
    call, two random draws, and the clock twice more. *)
Record ExecIn : Type := {
  exec_now_start : Z;
  exec_balance : Settled Z;
  exec_random_profit : Q;
  exec_random_gas : Q;
  exec_now_trade : Z;
  exec_now_end : Z
}.

Record TradeResult : Type := {
  success : bool;
  profitETH : Num.NumString;
  gasCostETH : Num.NumString;
  netProfitETH : Num.NumString;
  latencyMs : Z
}.

Definition incr_trades (x : Stats.t) : Stats.t :=
  Stats.mk (Stats.startTime x) (Stats.trades x + 1) (Stats.successfulTrades x)
    (Stats.failedTrades x) (Stats.totalProfitETH x) (Stats.totalGasCostETH x)
    (Stats.avgLatencyMs x) (Stats.lastTradeTime x).

Definition incr_failedTrades (x : Stats.t) : Stats.t :=
  Stats.mk (Stats.startTime x) (Stats.trades x) (Stats.successfulTrades x)
    (Stats.failedTrades x + 1) (Stats.totalProfitETH x)
    (Stats.totalGasCostETH x) (Stats.avgLatencyMs x) (Stats.lastTradeTime x).

(** The four statements after the two draws: [successfulTrades++], the two
    [+=] and [lastTradeTime = Date.now()]. *)
Definition record_success (profit gasCost : Q) (now : Z) (x : Stats.t)
  : Stats.t :=
  Stats.mk (Stats.startTime x) (Stats.trades x) (Stats.successfulTrades x + 1)
    (Stats.failedTrades x) (Stats.totalProfitETH x + profit)
    (Stats.totalGasCostETH x + gasCost) (Stats.avgLatencyMs x) now.

(** [stats.avgLatencyMs = (stats.avgLatencyMs * (stats.trades - 1) + latency)
    / stats.trades]. *)
Definition fold_latency (latency : Z) (x : Stats.t) : Stats.t :=
  Stats.mk (Stats.startTime x) (Stats.trades x) (Stats.successfulTrades x)
    (Stats.failedTrades x) (Stats.totalProfitETH x) (Stats.totalGasCostETH x)
    ((Stats.avgLatencyMs x * inject_Z (Stats.trades x - 1) + inject_Z latency)
     / inject_Z (Stats.trades x))
    (Stats.lastTradeTime x).

(** [strategy.totalTrades++; strategy.totalProfitUSD += profit * 3450]. *)
Definition credit (profit : Q) (x : Strategy.t) : Strategy.t :=
  Strategy.mk (Strategy.id x) (Strategy.name x) (Strategy.type x)
    (Strategy.riskLevel x) (Strategy.enabled x) (Strategy.priority x)
    (Strategy.successRate x) (Strategy.totalTrades x + 1)
    (Strategy.totalProfitUSD x + profit * 3450) (Strategy.apy x).

(** Assignment to the [k]-th element of an array that has one. *)
Fixpoint update {A : Type} (k : nat) (f : A -> A) (l : list A) : list A :=
  match l, k with
  | [], _ => []
  | x :: r, O => f x :: r
  | x :: r, S k' => x :: update k' f r
  end.

(** The [try] block of [executeStrategy], entered after [stats.trades++].
    [strategy] is a reference to an object: the [k]-th element of
    [strategies], or [undefined] when there is none, in which case the first
    property access on it throws a [TypeError]. *)
Definition exec_try (k : nat) (i : ExecIn) (s : State)
  : Outcome TradeResult * State :=
  match exec_balance i with
  | Rejected e => (Threw e, s)
  | Resolved balance =>
      if balance <? 10 ^ 15 then (Threw "Insufficient balance for gas", s)
      else
        let profit := (exec_random_profit i * 0.005 + 0.001)%Q in
        let gasCost := (exec_random_gas i * 0.0005 + 0.0002)%Q in
        let s1 := set_stats
                    (record_success profit gasCost (exec_now_trade i) (stats s))
                    s in
        let latency := exec_now_end i - exec_now_start i in
        let s2 := set_stats (fold_latency latency (stats s1)) s1 in
        match nth_error (strategies s2) k with
        | None =>
            (Threw "TypeError: Cannot read properties of undefined", s2)
        | Some _ =>
            let s3 := set_strategies (update k (credit profit) (strategies s2))
                        s2 in
            let s4 := set_totals (totalTrades s3 + 1)
                        (totalProfitUSD s3 + profit * 3450) s3 in
            (Returned {| success := true;
                         profitETH := Num.toFixed 6 profit;
                         gasCostETH := Num.toFixed 6 gasCost;
                         netProfitETH := Num.toFixed 6 (profit - gasCost);
                         latencyMs := latency |},
             s4)
        end
  end.

Definition executeStrategy (env : Env) (k : nat) (i : ExecIn) (s : State)
  : Outcome TradeResult * State :=
  match wallet env, provider env with
  | Some _, true =>
      let s1 := set_stats (incr_trades (stats s)) s in
      match exec_try k i s1 with
      | (Threw e, s') => (Threw e, set_stats (incr_failedTrades (stats s')) s')
      | r => r
      end
  | _, _ => (Threw "Wallet not initialized", s)
  end.

(** ** [tradingLoop] *)

(** [uhfRunning ? 100 : 5000]. *)
Definition cadence (s : State) : Z := if uhfRunning s then 100 else 5000.

(** The error branch of the loop sleeps this long. *)
Definition backoff : Z := 10000.

(** What one round of the loop reads: the scan's inputs, the draw that picks
    the strategy, the execution's inputs. *)
Record IterIn : Type := {
  iter_scan : ScanIn;
  iter_random : Q;
  iter_exec : ExecIn
}.

(** One round of the [while] body, from the call of [scanOpportunities] to
    the [setTimeout] it ends with: the delay it asks for and the state it
    leaves.  The flags are read when the delay is computed, that is in the
    state the round is completed in. *)
Definition iteration (env : Env) (i : IterIn) (s : State) : Z * State :=
  match scanOpportunities env (iter_scan i) s with
  | (Returned (Found _), s1) =>
      if (0 <? List.length (strategies s1))%nat then
        let k := Z.to_nat (Num.floor
                   (iter_random i
                    * inject_Z (Z.of_nat (List.length (strategies s1))))) in
        match executeStrategy env k (iter_exec i) s1 with
        | (Returned _, s2) => (cadence s2, s2)
        | (Threw _, s2) => (backoff, s2)
        end
      else (cadence s1, s1)
  | (Returned _, s1) => (cadence s1, s1)
  | (Threw _, s1) => (backoff, s1)
  end.

(** An instance of [tradingLoop] is a coroutine.  JavaScript runs one task at
    a time, so a handler can only run while every instance is parked on a
    provider call of its current round ([InFlight]) or on the timer that ends
    a round ([Sleeping], with the delay it asked for).  An instance whose
    [while] test has failed is gone ([Exited]). *)
Inductive Loop : Type :=
| InFlight
| Sleeping (ms : Z)
| Exited.

Record World : Type := {
  state : State;
  loops : list Loop
}.

(** The start of a round.  Without a provider [scanOpportunities] returns at
    once and the round goes straight to its timer. *)
Definition enter (env : Env) (s : State) : Loop :=
  if provider env then InFlight else Sleeping (cadence s).

(** [while (engineRunning || uhfRunning)]. *)
Definition loop_top (env : Env) (s : State) : Loop :=
  if engineRunning s || uhfRunning s then enter env s else Exited.

(** [tradingLoop], one resumption at a time: the instance parked at [l] goes
    on to its next suspension.  In flight, it completes its round and goes to
    sleep; asleep, it wakes up at the [while] test; gone, it stays gone. *)
Definition tradingLoop (env : Env) (i : IterIn) (l : Loop) (s : State)
  : Loop * State :=
  match l with
  | InFlight => let '(ms, s') := iteration env i s in (Sleeping ms, s')
  | Sleeping _ => (loop_top env s, s)
  | Exited => (Exited, s)
  end.

(** ** The command handlers *)

Inductive Command : Type := Start | Stop | StartUhf.

Inductive Response : Type :=
| Json (message : string)
| Status400 (error : string).

(** A call of [tradingLoop()] from a handler: a new instance, which runs up
    to its first suspension before the handler goes on. *)
Definition launch (env : Env) (s : State) (l : list Loop) : list Loop :=
  l ++ [loop_top env s].

Definition handle (env : Env) (c : Command) (w : World) : Response * World :=
  let s := state w in
  match c with
  | Start =>
      if engineRunning s then (Status400 "Engine already running", w)
      else
        let s' := set_flags true (uhfRunning s) s in
        (Json "Main trading engine started",
         {| state := s'; loops := launch env s' (loops w) |})
  | Stop =>
      (Json "All engines stopped",
       {| state := set_flags false false s; loops := loops w |})
  | StartUhf =>
      if uhfRunning s then (Status400 "UHF engine already running", w)
      else
        let s' := set_flags true true s in
        (Json "UHF engine started",
         {| state := s'; loops := launch env s' (loops w) |})
  end.

(** ** The scheduler's view *)

(** What can happen next: a command arrives, or the call or timer that the
    [n]-th instance is parked on completes (the inputs are those of the round
    it completes, when it completes one).  The writes of a round are applied
    together when the round completes: the command handlers write nothing
    but the flags, and a round reads the flags only when it computes its delay,
    so the place of a command among the provider calls of a round does not
    show in what the round leaves.  Two rounds in flight at once are
    likewise taken one after the other.  What a round has written before it
    completes, which a handler that reads the statistics meanwhile can see,
    is the subject of the finer model that follows. *)
Inductive Event : Type :=
| Request (c : Command)
| Resume (n : nat) (i : IterIn).

Definition resume (env : Env) (n : nat) (i : IterIn) (w : World) : World :=
  match nth_error (loops w) n with
  | Some l =>
      let '(l', s') := tradingLoop env i l (state w) in
      {| state := s'; loops := update n (fun _ => l') (loops w) |}
  | None => w
  end.

Definition step (env : Env) (w : World) (e : Event) : World :=
  match e with
  | Request c => snd (handle env c w)
  | Resume n i => resume env n i w
  end.

Definition run (env : Env) (es : list Event) (w : World) : World :=
  fold_left (step env) es w.

Definition live (l : Loop) : bool :=
  match l with Exited => false | _ => true end.

(** The number of instances of [tradingLoop] that have not returned. *)
Definition active (w : World) : nat := List.length (filter live (loops w)).

(** The process after [main]: no loop has been started. *)
Definition boot (s : State) : World := {| state := s; loops := [] |}.

(** ** [tradingLoop], one [await] at a time *)

(** A round of the loop is not atomic.  It is suspended at every [await],
    and what it has written by then is what a handler that runs meanwhile
    reads: [scanOpportunities] has pushed its opportunity when it returns,
    and [executeStrategy] has counted its attempt when it awaits the
    balance.  An instance of [tradingLoop] is described here by the [await]
    it is suspended on, with the local variables it goes on with. *)
Inductive Await : Type :=
| AwaitBlockNumber
| AwaitFeeData (blockNumber : Z)
| AwaitScan (opp : ScanResult)
| AwaitBalance (k : nat) (startTime : Z)
| AwaitExecute (result : Outcome TradeResult)
| AwaitTimer (ms : Z)
| Finished.

(** [scanOpportunities()], up to its first [await]: without a provider it
    has returned [undefined] and the loop awaits that. *)
Definition scan_call (env : Env) : Await :=
  if provider env then AwaitBlockNumber else AwaitScan Undefined.

(** The [while] test and, when it passes, the call of [scanOpportunities]. *)
Definition while_test (env : Env) (s : State) : Await :=
  if engineRunning s || uhfRunning s then scan_call env else Finished.

(** [executeStrategy(strategy)] on the [k]-th strategy, up to its first
    [await]: the guard, the reading [now] of the clock and [stats.trades++].
    When the guard throws, the loop awaits a rejected promise. *)
Definition execute_call (env : Env) (k : nat) (now : Z) (s : State)
  : Await * State :=
  match wallet env, provider env with
  | Some _, true =>
      (AwaitBalance k now, set_stats (incr_trades (stats s)) s)
  | _, _ => (AwaitExecute (Threw "Wallet not initialized"), s)
  end.

(** The inputs of a call whose [startTime] was read before it was
    suspended. *)
Definition started_at (startTime : Z) (i : ExecIn) : ExecIn :=
  {| exec_now_start := startTime;
     exec_balance := exec_balance i;
     exec_random_profit := exec_random_profit i;
     exec_random_gas := exec_random_gas i;
     exec_now_trade := exec_now_trade i;
     exec_now_end := exec_now_end i |}.

(** An instance goes on from the [await] it is suspended on to the next
    one.  [i] holds what it reads on the way: the settlement of the call it
    awaited, then the clock and the draws. *)
Definition proceed (env : Env) (i : IterIn) (a : Await) (s : State)
  : Await * State :=
  match a with
  | AwaitBlockNumber =>
      match scan_blockNumber (iter_scan i) with
      | Resolved blockNumber => (AwaitFeeData blockNumber, s)
      | Rejected _ => (AwaitScan Null, s)
      end
  | AwaitFeeData blockNumber =>
      match scan_feeData (iter_scan i) with
      | Resolved gasPrice =>
          let opp := newOpportunity (iter_scan i) blockNumber gasPrice in
          (AwaitScan (Found opp),
           set_opportunities (push_bounded opp (opportunities s)) s)
      | Rejected _ => (AwaitScan Null, s)
      end
  | AwaitScan (Found _) =>
      if (0 <? List.length (strategies s))%nat then
        let k := Z.to_nat (Num.floor
                   (iter_random i
                    * inject_Z (Z.of_nat (List.length (strategies s))))) in
        execute_call env k (exec_now_start (iter_exec i)) s
      else (AwaitTimer (cadence s), s)
  | AwaitScan _ => (AwaitTimer (cadence s), s)
  | AwaitBalance k startTime =>
      match exec_try k (started_at startTime (iter_exec i)) s with
      | (Threw e, s') =>
          (AwaitExecute (Threw e),
           set_stats (incr_failedTrades (stats s')) s')
      | (Returned r, s') => (AwaitExecute (Returned r), s')
      end
  | AwaitExecute (Returned _) => (AwaitTimer (cadence s), s)
  | AwaitExecute (Threw _) => (AwaitTimer backoff, s)
  | AwaitTimer _ => (while_test env s, s)
  | Finished => (Finished, s)
  end.

(** The process: the module-level state and the instances of the loop. *)
Record Process : Type := {
  memory : State;
  instances : list Await
}.

(** A call of [tradingLoop()] from a handler. *)
Definition spawn (env : Env) (s : State) (l : list Await) : list Await :=
  l ++ [while_test env s].

(** The three command handlers, on a process. *)
Definition serve (env : Env) (c : Command) (p : Process)
  : Response * Process :=
  let s := memory p in
  match c with
  | Start =>
      if engineRunning s then (Status400 "Engine already running", p)
      else
        let s' := set_flags true (uhfRunning s) s in
        (Json "Main trading engine started",
         {| memory := s'; instances := spawn env s' (instances p) |})
  | Stop =>
      (Json "All engines stopped",
       {| memory := set_flags false false s; instances := instances p |})
  | StartUhf =>
      if uhfRunning s then (Status400 "UHF engine already running", p)
      else
        let s' := set_flags true true s in
        (Json "UHF engine started",
         {| memory := s'; instances := spawn env s' (instances p) |})
  end.

(** What can happen next: a command arrives, or the [n]-th instance goes on
    from its [await].  The handlers that only read run between any two of
    these steps.  At [AwaitScan] and [AwaitExecute] the awaited promise is
    already settled, so in the program no handler runs before the instance
    goes on; the steps taken here include those the program takes. *)
Definition advance (env : Env) (p : Process) (e : Event) : Process :=
  match e with
  | Request c => snd (serve env c p)
  | Resume n i =>
      match nth_error (instances p) n with
      | Some a =>
          let '(a', s') := proceed env i a (memory p) in
          {| memory := s'; instances := update n (fun _ => a') (instances p) |}
      | None => p
      end
  end.

Definition execution (env : Env) (es : list Event) (p : Process) : Process :=
  fold_left (advance env) es p.

(** An instance goes on, reading [i], until it is parked on a timer. *)
Fixpoint to_timer (fuel : nat) (env : Env) (i : IterIn) (a : Await)
  (s : State) : Await * State :=
  match fuel, a with
  | O, _ | _, AwaitTimer _ | _, Finished => (a, s)
  | S fuel', _ =>
      let '(a', s') := proceed env i a s in to_timer fuel' env i a' s'
  end.

(** ** [GET /api/flashloans] *)

Record Flashloans : Type := {
  total : nat;
  listed : list Opportunity.t;
  best : option Opportunity.t;
  detected : nat;
  avgProfitETH : Num.NumString
}.

Definition flashloans (s : State) : Flashloans :=
  let opps := opportunities s in
  {| total := List.length opps;
     listed := opps;
     best := hd_error opps;
     detected := List.length opps;
     avgProfitETH :=
       if (0 <? List.length opps)%nat then
         Num.toFixed 6
           (fold_left
              (fun sum o => sum + Num.parseFloat (Opportunity.profitETH o))
              opps 0
            / inject_Z (Z.of_nat (List.length opps)))%Q
       else Num.Fixed 0 0 |}.

(** The numbers of the handler are binary64: [parseFloat] rounds the number
    each text spells, every addition of the [reduce] rounds its sum and the
    division rounds its quotient; [toFixed] then writes the decimal nearest
    to the value it is given.  [flashloans_with fl] is the handler with [fl]
    for that rounding, and [flashloans] is [flashloans_with] on exact
    arithmetic, where nothing is rounded. *)
Definition flashloans_with (fl : Q -> Q) (s : State) : Flashloans :=
  let opps := opportunities s in
  {| total := List.length opps;
     listed := opps;
     best := hd_error opps;
     detected := List.length opps;
     avgProfitETH :=
       if (0 <? List.length opps)%nat then
         Num.toFixed 6
           (fl (fold_left
                  (fun sum o =>
                     fl (sum + fl (Num.parseFloat (Opportunity.profitETH o))))
                  opps 0
                / inject_Z (Z.of_nat (List.length opps))))%Q
       else Num.Fixed 0 0 |}.

(** ** [POST /api/withdraw-all] *)

Record Transaction : Type := {
  to : string;
  value : Z;
  gasLimit : Z
}.

(** What the handler reads: the balance call, then the settlement of
    [sendTransaction] (the hash of the pending transaction) and of [wait]
    (a receipt and its hash, or [null]). *)
Record WithdrawIn : Type := {
  wd_balance : Settled Z;
  wd_send : Settled string;
  wd_wait : Settled (option string)
}.

Inductive WithdrawResponse : Type :=
| Withdrawn (txHash : option string) (amount : option Num.NumString)
    (dest : string)
| Failed (status : Z) (error : string).

(** [ethers.parseEther] on the text [toFixed(18)] produced: a decimal string
    of at most eighteen fractional digits is an amount of wei, anything else
    throws. *)
Definition parseEther (t : option Num.NumString) : Outcome Z :=
  match t with
  | Some (Num.Fixed n p) =>
      if (p <=? 18)%nat then Returned (n * Num.pow10 (18 - p))
      else Threw "too many decimals for format"
  | _ => Threw "invalid FixedNumber string value"
  end.

(** The amount left after the reserve: [parseFloat(ethers.formatEther(balance))
    - 0.01]. *)
Definition withdrawAmount (balance : Z) : float :=
  (B64.of_ratio balance (10 ^ 18) - 0.01)%float.

(** The handler: its response and the requests it passed to
    [wallet.sendTransaction]. *)
Definition withdrawAll (env : Env) (i : WithdrawIn)
  : WithdrawResponse * list Transaction :=
  match wallet env, provider env with
  | Some _, true =>
      match wd_balance i with
      | Rejected e => (Failed 500 e, [])
      | Resolved balance =>
          let amount := withdrawAmount balance in
          if (amount <=? 0)%float then
            (Failed 400 "Insufficient balance to withdraw", [])
          else
            match parseEther (B64.toFixed 18 amount) with
            | Threw e => (Failed 500 e, [])
            | Returned wei =>
                let tx := {| to := PROFIT_WALLET env;
                             value := wei;
                             gasLimit := 21000 |} in
                match wd_send i with
                | Rejected e => (Failed 500 e, [tx])
                | Resolved _ =>
                    match wd_wait i with
                    | Rejected e => (Failed 500 e, [tx])
                    | Resolved receipt =>
                        (Withdrawn receipt (B64.toFixed 6 amount)
                           (PROFIT_WALLET env), [tx])
                    end
                end
            end
      end
  | _, _ => (Failed 503 "Wallet not initialized", [])
  end.

(** ** [initBlockchain] and [main] *)

(** What [initBlockchain] meets: the three constructors, each of which may
    throw ([new ethers.Wallet] yields the wallet, kept as its address), and
    the settlement of [provider.getNetwork()]. *)
Record InitIn : Type := {
  init_provider : Outcome unit;
  init_wsProvider : Outcome unit;
  init_wallet : Outcome string;
  init_network : Settled unit
}.

(** [WALLET_PRIVATE_KEY && WALLET_PRIVATE_KEY !== 'your_private_key_here']. *)
Definition has_key (key : string) : bool :=
  negb (String.eqb key "") && negb (String.eqb key "your_private_key_here").

Definition set_provider (env : Env) : Env :=
  {| provider := true; wallet := wallet env;
     PROFIT_WALLET_ADDRESS := PROFIT_WALLET_ADDRESS env |}.

Definition set_wallet (address : string) (env : Env) : Env :=
  {| provider := provider env; wallet := Some address;
     PROFIT_WALLET_ADDRESS := PROFIT_WALLET_ADDRESS env |}.

(** The value returned and the variables as the call leaves them: each
    assignment made before a failure stays. *)
Definition initBlockchain (key : string) (i : InitIn) (env : Env)
  : bool * Env :=
  match init_provider i with
  | Threw _ => (false, env)
  | Returned _ =>
      let env1 := set_provider env in
      match init_wsProvider i with
      | Threw _ => (false, env1)
      | Returned _ =>
          let after_wallet :=
            if has_key key then
              match init_wallet i with
              | Threw e => Threw e
              | Returned address => Returned (set_wallet address env1)
              end
            else Returned env1 in
          match after_wallet with
          | Threw _ => (false, env1)
          | Returned env2 =>
              match init_network i with
              | Rejected _ => (false, env2)
              | Resolved _ => (true, env2)
              end
          end
      end
  end.

(** The variables before [initBlockchain] has run. *)
Definition uninitialised (profit_address : option string) : Env :=
  {| provider := false; wallet := None;
     PROFIT_WALLET_ADDRESS := profit_address |}.

(** [main]: the blockchain is set up, whatever comes of it, the strategies
    are generated and the server starts listening with the engine stopped. *)
Definition main (key : string) (profit_address : option string) (i : InitIn)
  (rand : nat -> Q) (now : Z) : Env * World :=
  let '(_, env) := initBlockchain key i (uninitialised profit_address) in
  (env, boot (generateStrategies rand (initial now))).

(** ** [GET /api/status] *)

Module Status.
Record t : Type := mk {
  engineState : string;
  uhfState : string;
  walletBalance : Num.NumString;
  blockNumber : Z;
  totalStrategies : nat;
  activeStrategies : nat;
  opportunities : nat;
  totalTrades : Z;
  totalProfitUSD : Q;
  providerHealth : string
}.
End Status.

(** The two provider calls the handler makes when there is a provider. *)
Record StatusIn : Type := {
  status_balance : Settled Z;
  status_blockNumber : Settled Z
}.

Inductive StatusResponse : Type :=
| StatusJson (body : Status.t)
| Status500 (error : string).

(** The body for a balance text and a block number.  [formatEther] writes
    an amount of wei as a decimal number of ether; it is kept as that amount
    over [10 ^ 18], whatever zeros the text drops.  The initial text is
    ['0']. *)
Definition status_body (env : Env) (s : State) (balance : Num.NumString)
  (blockNumber : Z) : Status.t :=
  {| Status.engineState := if engineRunning s then "running" else "stopped";
     Status.uhfState := if uhfRunning s then "running" else "stopped";
     Status.walletBalance := balance;
     Status.blockNumber := blockNumber;
     Status.totalStrategies := List.length (strategies s);
     Status.activeStrategies :=
       List.length (filter Strategy.enabled (strategies s));
     Status.opportunities := List.length (opportunities s);
     Status.totalTrades := totalTrades s;
     Status.totalProfitUSD := totalProfitUSD s;
     Status.providerHealth :=
       if provider env then "connected" else "disconnected" |}.

Definition status (env : Env) (i : StatusIn) (s : State) : StatusResponse :=
  if provider env then
    match status_balance i with
    | Rejected e => Status500 e
    | Resolved balance =>
        match status_blockNumber i with
        | Rejected e => Status500 e
        | Resolved blockNumber =>
            StatusJson (status_body env s (Num.Fixed balance 18) blockNumber)
        end
    end
  else StatusJson (status_body env s (Num.Fixed 0 0) 0).

(** ** [GET /api/metrics] and [GET /api/funds/stats] *)

Module Metrics.
Record t : Type := mk {
  trades : Z;
  successfulTrades : Z;
  failedTrades : Z;
  successRate : Num.NumString;
  totalProfitETH : Num.NumString;
  totalGasCostETH : Num.NumString;
  netProfitETH : Num.NumString;
  avgLatencyMs : Num.NumString;
  lastTradeTime : Z
}.
End Metrics.

(** [stats.successfulTrades / stats.trades * 100]. *)
Definition success_percent (x : Stats.t) : Q :=
  (inject_Z (Stats.successfulTrades x) / inject_Z (Stats.trades x) * 100)%Q.

(** The body without [uptime], which is the age of the process. *)
Definition metrics (s : State) : Metrics.t :=
  let x := stats s in
  {| Metrics.trades := Stats.trades x;
     Metrics.successfulTrades := Stats.successfulTrades x;
     Metrics.failedTrades := Stats.failedTrades x;
     Metrics.successRate :=
       if 0 <? Stats.trades x then Num.toFixed 2 (success_percent x)
       else Num.Fixed 0 2;
     Metrics.totalProfitETH := Num.toFixed 6 (Stats.totalProfitETH x);
     Metrics.totalGasCostETH := Num.toFixed 6 (Stats.totalGasCostETH x);
     Metrics.netProfitETH :=
       Num.toFixed 6 (Stats.totalProfitETH x - Stats.totalGasCostETH x)%Q;
     Metrics.avgLatencyMs := Num.toFixed 2 (Stats.avgLatencyMs x);
     Metrics.lastTradeTime := Stats.lastTradeTime x |}.

Module Funds.
Record t : Type := mk {
  totalCapital : Num.NumString;
  totalProfitETH : Num.NumString;
  totalProfitUSD : Num.NumString;
  totalGasCostETH : Num.NumString;
  netProfitETH : Num.NumString;
  totalTrades : Z;
  successRate : Num.NumString
}.
End Funds.

Definition fundsStats (s : State) : Funds.t :=
  let x := stats s in
  {| Funds.totalCapital := Num.toFixed 6 (Stats.totalProfitETH x);
     Funds.totalProfitETH := Num.toFixed 6 (Stats.totalProfitETH x);
     Funds.totalProfitUSD := Num.toFixed 2 (Stats.totalProfitETH x * 3450)%Q;
     Funds.totalGasCostETH := Num.toFixed 6 (Stats.totalGasCostETH x);
     Funds.netProfitETH :=
       Num.toFixed 6 (Stats.totalProfitETH x - Stats.totalGasCostETH x)%Q;
     Funds.totalTrades := Stats.trades x;
     Funds.successRate :=
       if 0 <? Stats.trades x then Num.toFixed 2 (success_percent x)
       else Num.Fixed 0 0 |}.

(** ** [GET /api/strategies] *)

(** The three query parameters, each absent or a text. *)
Record StrategiesQuery : Type := {
  query_type : option string;
  query_risk : option string;
  query_active : option string
}.

(** [if (type)]: the parameter is there and not the empty text. *)
Definition given (v : option string) : option string :=
  match v with
  | Some t => if String.eqb t "" then None else Some t
  | None => None
  end.

(** [active === 'true']. *)
Definition wants_active (v : option string) : bool :=
  match v with
  | Some t => String.eqb t "true"
  | None => false
  end.

(** The body: [total] and [strategies]. *)
Definition listStrategies (q : StrategiesQuery) (s : State)
  : nat * list Strategy.t :=
  let filtered := strategies s in
  let filtered :=
    match given (query_type q) with
    | Some t => filter (fun x => String.eqb (Strategy.type x) t) filtered
    | None => filtered
    end in
  let filtered :=
    match given (query_risk q) with
    | Some r => filter (fun x => String.eqb (Strategy.riskLevel x) r) filtered
    | None => filtered
    end in
  let filtered :=
    if wants_active (query_active q) then filter Strategy.enabled filtered
    else filtered in
  (List.length filtered, filtered).

(** * The vocabulary of the properties

    The predicates and measures the statements below are written with, and
    the sample surroundings and inputs their closed instances are evaluated
    on. *)

(** The guard [!wallet || !provider] lets the call through. *)
Definition ready (env : Env) : bool :=
  match wallet env with
  | Some _ => provider env
  | None => false
  end.

(** Sample surroundings for the closed statements below: a process with a
    provider and a wallet, one without a wallet, and a registry of one
    strategy. *)
Definition env_ready : Env :=
  {| provider := true; wallet := Some "0xWALLET"%string;
     PROFIT_WALLET_ADDRESS := None |}.

Definition env_read_only : Env :=
  {| provider := true; wallet := None; PROFIT_WALLET_ADDRESS := None |}.

Definition one_strategy : State :=
  set_strategies [newStrategy (fun _ => 0%Q) 0] (initial 0).

(** A call that finds a balance of one ether and takes [ms] milliseconds,
    and a call whose balance request is rejected. *)
Definition exec_ok (start ms : Z) : ExecIn :=
  {| exec_now_start := start;
     exec_balance := Resolved (10 ^ 18);
     exec_random_profit := 0;
     exec_random_gas := 0;
     exec_now_trade := start + ms;
     exec_now_end := start + ms |}.

Definition exec_rejected (start : Z) : ExecIn :=
  {| exec_now_start := start;
     exec_balance := Rejected "network error";
     exec_random_profit := 0;
     exec_random_gas := 0;
     exec_now_trade := start;
     exec_now_end := start |}.

(** Calls made one after the other on the same strategy. *)
Definition run_execs (env : Env) (k : nat) (l : list ExecIn) (s : State)
  : State :=
  fold_left (fun s i => snd (executeStrategy env k i s)) l s.

(** The latency a call measures on its success path. *)
Definition latency (i : ExecIn) : Z := exec_now_end i - exec_now_start i.

(** The arithmetic mean of a list of latencies, as the specification words
    it. *)
Definition mean (l : list Z) : Q :=
  (inject_Z (fold_right Z.add 0%Z l) / inject_Z (Z.of_nat (List.length l)))%Q.

(** The call gets past the balance check. *)
Definition funded (i : ExecIn) : Prop :=
  exists balance, exec_balance i = Resolved balance /\ 10 ^ 15 <= balance.

(** Scans made one after the other. *)
Definition run_scans (env : Env) (l : list ScanIn) (s : State) : State :=
  fold_left (fun s i => snd (scanOpportunities env i s)) l s.

(** The readings [scan_now_id] of successive scans come from a clock that
    does not go back from [t]. *)
Fixpoint clock_from (t : Z) (l : list ScanIn) : Prop :=
  match l with
  | [] => True
  | i :: r => t <= scan_now_id i /\ clock_from (scan_now_id i) r
  end.

(** The last reading of the clock once the scans [l] are done. *)
Definition last_reading (t : Z) (l : list ScanIn) : Z :=
  fold_left (fun _ i => scan_now_id i) l t.

(** A buffer in the order of its ids, none of them later than [t]. *)
Definition ordered (t : Z) (l : list Opportunity.t) : Prop :=
  StronglySorted Z.le (map Opportunity.id l)
  /\ Forall (fun o => Opportunity.id o <= t) l.

(** A scan made at clock reading [t] whose provider calls both resolve. *)
Definition scan_ok (t : Z) : ScanIn :=
  {| scan_blockNumber := Resolved 1;
     scan_feeData := Resolved (Some 1);
     scan_now_id := t;
     scan_random := 0;
     scan_now_timestamp := t |}.

(** A scan whose block-number call is rejected. *)
Definition scan_rejected : ScanIn :=
  {| scan_blockNumber := Rejected "timeout";
     scan_feeData := Resolved (Some 1);
     scan_now_id := 0;
     scan_random := 0;
     scan_now_timestamp := 0 |}.

(** A draw of [Math.random()]. *)
Definition unit_interval (r : Q) : Prop := (0 <= r /\ r < 1)%Q.

(** The category names as the specification spells them. *)
Definition spec_categories : list string :=
  [ "sandwich"; "frontrun"; "backrun"; "arbitrage"; "liquidation";
    "jit-liquidity"; "flash-swap"; "triangular"; "cross-dex" ]%string.

(** The profit estimates of the buffered opportunities, their sum and their
    arithmetic mean, as the specification words them. *)
Definition profits (l : list Opportunity.t) : list Q :=
  map (fun o => Num.parseFloat (Opportunity.profitETH o)) l.

Definition Qsum (l : list Q) : Q := fold_right Qplus 0%Q l.

Definition Qmean (l : list Q) : Q :=
  (Qsum l / inject_Z (Z.of_nat (List.length l)))%Q.

(** The entry that was appended last. *)
Definition most_recent (l : list Opportunity.t) : option Opportunity.t :=
  hd_error (rev l).

(** A profit estimate as a scan writes it: six decimals, between 0.001 and
    0.011. *)
Definition plausible (o : Opportunity.t) : Prop :=
  exists n, Opportunity.profitETH o = Num.Fixed n 6 /\ 1000 <= n <= 11000.

(** Rounding to the nearest binary64 number, on the numbers an average of
    buffered estimates is made of: between 2^-10 and 1 the result is within
    half a unit in the last of 53 bits, so within 2^-53 of the argument,
    relatively. *)
Definition unit_roundoff : Q := 1 # 9007199254740992.

Definition binary64_rounding (fl : Q -> Q) : Prop :=
  forall x : Q,
    (1 # 1024 <= x)%Q -> (x <= 1)%Q ->
    (Qabs (fl x - x) <= x * unit_roundoff)%Q.

(** Fifty scans that read a clock which is set back after the first
    reading: the ids are 100, then 1 forty-nine times. *)
Definition clock_set_back : list ScanIn :=
  scan_ok 100 :: repeat (scan_ok 1) 49.

(** A withdrawal that reads [balance] wei and whose transfer is sent and
    confirmed. *)
Definition withdraw_of (balance : Z) : WithdrawIn :=
  {| wd_balance := Resolved balance;
     wd_send := Resolved "0xHASH"%string;
     wd_wait := Resolved (Some "0xHASH"%string) |}.

(** The command [e] would be accepted in [w]: it is a start whose own flag is
    not set. *)
Definition accepts (w : World) (e : Event) : bool :=
  match e with
  | Request Start => negb (engineRunning (state w))
  | Request StartUhf => negb (uhfRunning (state w))
  | _ => false
  end.

(** Along [es], every start that is accepted arrives when no instance of the
    loop is live. *)
Fixpoint quiet_starts (env : Env) (es : list Event) (w : World) : Prop :=
  match es with
  | [] => True
  | e :: r =>
      (accepts w e = true -> active w = 0%nat)
      /\ quiet_starts env r (step env w e)
  end.

(** A round that finds an opportunity and trades on it. *)
Definition iter_ok (t : Z) : IterIn :=
  {| iter_scan := scan_ok t;
     iter_random := 0;
     iter_exec := exec_ok t 10 |}.


(** The position of the [n]-th instance; one that was never launched counts
    as gone. *)
Definition loop_at (w : World) (n : nat) : Loop :=
  match nth_error (loops w) n with
  | Some l => l
  | None => Exited
  end.




(** The profit and the gas cost a call draws on its success path. *)
Definition profit_of (i : ExecIn) : Q :=
  (exec_random_profit i * 0.005 + 0.001)%Q.

Definition gasCost_of (i : ExecIn) : Q :=
  (exec_random_gas i * 0.0005 + 0.0002)%Q.

(** The state a call leaves when it fails after its guard, and the state it
    leaves when it succeeds on the [k]-th strategy. *)
Definition failed_state (s : State) : State :=
  set_stats (incr_failedTrades (incr_trades (stats s))) s.

Definition success_state (k : nat) (i : ExecIn) (s : State) : State :=
  let s0 := set_stats (incr_trades (stats s)) s in
  let s1 := set_stats
              (record_success (profit_of i) (gasCost_of i) (exec_now_trade i)
                 (stats s0)) s0 in
  let s2 := set_stats (fold_latency (latency i) (stats s1)) s1 in
  let s3 := set_strategies (update k (credit (profit_of i)) (strategies s2))
              s2 in
  set_totals (totalTrades s3 + 1) (totalProfitUSD s3 + profit_of i * 3450) s3.

(** The draws of a call, of a round and of an event are results of
    [Math.random()]. *)
Definition good_exec (i : ExecIn) : Prop :=
  unit_interval (exec_random_profit i) /\ unit_interval (exec_random_gas i).

Definition good_iter (i : IterIn) : Prop :=
  unit_interval (scan_random (iter_scan i))
  /\ unit_interval (iter_random i)
  /\ good_exec (iter_exec i).

(** Every round an event completes has inputs that satisfy [G]. *)
Definition event_sat (G : IterIn -> Prop) (e : Event) : Prop :=
  match e with
  | Resume _ i => G i
  | Request _ => True
  end.

Definition good_event (e : Event) : Prop := event_sat good_iter e.

(** The trades and the profit credited to the strategies of a registry. *)
Definition sum_trades (l : list Strategy.t) : Z :=
  fold_right (fun x a => Strategy.totalTrades x + a) 0 l.

Definition sum_profit (l : list Strategy.t) : Q :=
  fold_right (fun x a => Strategy.totalProfitUSD x + a)%Q 0%Q l.

(** What [executeStrategy] never writes in a strategy. *)
Definition static (x : Strategy.t)
  : string * string * string * string * bool * Z * Q * Q :=
  (Strategy.id x, Strategy.name x, Strategy.type x, Strategy.riskLevel x,
   Strategy.enabled x, Strategy.priority x, Strategy.successRate x,
   Strategy.apy x).

(** The books of the coroutine model, between whole rounds and in exact
    arithmetic, balance: attempts are successes plus failures, the global
    trade count is the number of successes and is what the strategies were
    credited with, the dollar total is the ether profit at 3450 and is what
    the strategies were credited with, and gas never exceeds profit. *)
Definition balanced (s : State) : Prop :=
  let x := stats s in
  Stats.trades x = Stats.successfulTrades x + Stats.failedTrades x
  /\ 0 <= Stats.successfulTrades x
  /\ 0 <= Stats.failedTrades x
  /\ totalTrades s = Stats.successfulTrades x
  /\ sum_trades (strategies s) = totalTrades s
  /\ (totalProfitUSD s == Stats.totalProfitETH x * 3450)%Q
  /\ (sum_profit (strategies s) == totalProfitUSD s)%Q
  /\ (0 <= Stats.totalGasCostETH x)%Q
  /\ (Stats.totalGasCostETH x <= Stats.totalProfitETH x)%Q.

(** The state with the two flags cleared: what is left is everything a
    command cannot write. *)
Definition data (s : State) : State := set_flags false false s.

(** The process as [main] leaves it: the registry generated, the engine
    stopped. *)
Definition started (rand : nat -> Q) (now : Z) : World :=
  boot (generateStrategies rand (initial now)).

(** A start followed by the completion of the first round, at which a trade
    is made. *)
Definition one_trade : list Event := [Request Start; Resume 0 (iter_ok 1)].

(** The buffer holds at most fifty entries, each as a scan writes it. *)
Definition buffer_ok (s : State) : Prop :=
  (List.length (opportunities s) <= 50)%nat
  /\ Forall plausible (opportunities s)
  /\ Forall (fun o => Opportunity.type o = "arbitrage"%string)
       (opportunities s).

(** A scan whose draw is high enough for the estimate to be written as
    0.011000, and whose fee data has no gas price. *)
Definition scan_high : ScanIn :=
  {| scan_blockNumber := Resolved 1;
     scan_feeData := Resolved None;
     scan_now_id := 1;
     scan_random := 0.99996;
     scan_now_timestamp := 1 |}.

(** A call whose balance request resolves to [balance] wei. *)
Definition exec_with_balance (balance : Z) : ExecIn :=
  {| exec_now_start := 0;
     exec_balance := Resolved balance;
     exec_random_profit := 0;
     exec_random_gas := 0;
     exec_now_trade := 5;
     exec_now_end := 5 |}.

(** The opportunity a scan finds, when it finds one. *)
Definition scan_found (env : Env) (i : ScanIn) : option Opportunity.t :=
  if provider env then
    match scan_blockNumber i, scan_feeData i with
    | Resolved b, Resolved g => Some (newOpportunity i b g)
    | _, _ => None
    end
  else None.

(** The opportunities a series of scans finds, in the order of the scans. *)
Definition all_found (env : Env) (l : list ScanIn) : list Opportunity.t :=
  flat_map (fun i => match scan_found env i with
                     | Some o => [o]
                     | None => []
                     end) l.

(** The last [n] elements of a list. *)
Definition keep_last {A : Type} (n : nat) (l : list A) : list A :=
  skipn (List.length l - n) l.

(** The strategies a query asks for: all of the conditions it gives. *)
Definition matches (q : StrategiesQuery) (x : Strategy.t) : bool :=
  match given (query_type q) with
  | Some t => String.eqb (Strategy.type x) t
  | None => true
  end
  && match given (query_risk q) with
     | Some r => String.eqb (Strategy.riskLevel x) r
     | None => true
     end
  && (if wants_active (query_active q) then Strategy.enabled x else true).

(** The risk tier that comes with a category in the generated registry. *)
Definition risk_of_type (type : string) : string :=
  if String.eqb type "sandwich" || String.eqb type "arbitrage"
     || String.eqb type "flash_swap" then "high"
  else if String.eqb type "frontrun" || String.eqb type "liquidation"
          || String.eqb type "triangular" then "medium"
  else "low".

(** A query by category, by risk tier, and by both. *)
Definition by_type (t : string) : StrategiesQuery :=
  {| query_type := Some t; query_risk := None; query_active := None |}.

Definition by_risk (r : string) : StrategiesQuery :=
  {| query_type := None; query_risk := Some r; query_active := None |}.

Definition by_type_and_risk (t r : string) : StrategiesQuery :=
  {| query_type := Some t; query_risk := Some r;
     query_active := Some "true"%string |}.

(** The process as [main] leaves it, no loop started. *)
Definition launched (rand : nat -> Q) (now : Z) : Process :=
  {| memory := generateStrategies rand (initial now); instances := [] |}.

(** The calls of [executeStrategy] that have counted their attempt and await
    the balance. *)
Definition awaits_balance (a : Await) : bool :=
  match a with AwaitBalance _ _ => true | _ => false end.

Definition pending (l : list Await) : Z :=
  Z.of_nat (List.length (filter awaits_balance l)).

Definition unfinished (a : Await) : bool :=
  match a with Finished => false | _ => true end.

(** A suspended call holds a strategy of a registry of [n]. *)
Definition holds_strategy (n : nat) (a : Await) : Prop :=
  match a with
  | AwaitBalance k _ => (k < n)%nat
  | _ => True
  end.

(** What a strategy has been credited with is worth its trades: between
    3.45 and 20.7 dollars each. *)
Definition earned (x : Strategy.t) : Prop :=
  0 <= Strategy.totalTrades x
  /\ (3.45 * inject_Z (Strategy.totalTrades x) <= Strategy.totalProfitUSD x)%Q
  /\ (Strategy.totalProfitUSD x <= 20.7 * inject_Z (Strategy.totalTrades x))%Q.

(** The books with [n] calls awaiting their balance: each of them is an
    attempt that is neither a success nor a failure yet. *)
Definition ledger (n : Z) (s : State) : Prop :=
  let x := stats s in
  Stats.trades x = Stats.successfulTrades x + Stats.failedTrades x + n
  /\ 0 <= Stats.successfulTrades x
  /\ 0 <= Stats.failedTrades x
  /\ totalTrades s = Stats.successfulTrades x
  /\ sum_trades (strategies s) = totalTrades s
  /\ (sum_profit (strategies s) == totalProfitUSD s)%Q
  /\ Forall earned (strategies s)
  /\ (0.001 * inject_Z (Stats.successfulTrades x)
      <= Stats.totalProfitETH x)%Q
  /\ (0.0002 * inject_Z (Stats.successfulTrades x)
      <= Stats.totalGasCostETH x)%Q
  /\ (Stats.totalGasCostETH x
      <= 0.0007 * inject_Z (Stats.successfulTrades x))%Q
  /\ (3.45 * inject_Z (Stats.successfulTrades x) <= totalProfitUSD s)%Q.

Definition audited (p : Process) : Prop :=
  ledger (pending (instances p)) (memory p)
  /\ Forall (holds_strategy (List.length (strategies (memory p))))
       (instances p).

(** A start, then the first instance goes on three times: the block number
    and the fee data resolve, the scan returns, and the call of
    [executeStrategy] awaits the balance. *)
Definition up_to_balance : list Event :=
  [ Request Start; Resume 0 (iter_ok 1); Resume 0 (iter_ok 1);
    Resume 0 (iter_ok 1) ].

(** Rounding to the nearest binary64 number, computed. *)
Definition nearest_binary64 (x : Q) : Q :=
  match B64.to_Q (B64.of_ratio (Qnum x) (Zpos (Qden x))) with
  | Some q => q
  | None => x
  end.

(** A scan that finds an opportunity, with the draw [r]. *)
Definition scan_drawing (r : Q) : ScanIn :=
  {| scan_blockNumber := Resolved 1;
     scan_feeData := Resolved (Some 1);
     scan_now_id := 2;
     scan_random := r;
     scan_now_timestamp := 2 |}.

(** * Properties *)

(** ** [executeStrategy] and the counters *)

Lemma executeStrategy_guarded (env : Env) (k : nat) (i : ExecIn) (s : State) :
  ready env = false ->
  executeStrategy env k i s = (Threw "Wallet not initialized", s).
Proof.
  unfold ready, executeStrategy.
  destruct (wallet env); [ destruct (provider env) | ]; congruence.
Qed.

Lemma executeStrategy_ready (env : Env) (k : nat) (i : ExecIn) (s : State) :
  ready env = true ->
  executeStrategy env k i s =
  match exec_try k i (set_stats (incr_trades (stats s)) s) with
  | (Threw e, s') => (Threw e, set_stats (incr_failedTrades (stats s')) s')
  | r => r
  end.
Proof.
  unfold ready, executeStrategy.
  destruct (wallet env); [ destruct (provider env) | ]; congruence.
Qed.

(** What the [try] block does to the three counters: it never writes
    [trades] or [failedTrades]; it adds one to [successfulTrades] when it
    returns, and also when it throws on a strategy that is not there. *)
Lemma exec_try_counters (k : nat) (i : ExecIn) (s : State) :
  let x := stats s in
  let r := exec_try k i s in
  Stats.trades (stats (snd r)) = Stats.trades x
  /\ Stats.failedTrades (stats (snd r)) = Stats.failedTrades x
  /\ match fst r with
     | Returned _ =>
         Stats.successfulTrades (stats (snd r)) = Stats.successfulTrades x + 1
     | Threw _ =>
         (k < List.length (strategies s))%nat ->
         Stats.successfulTrades (stats (snd r)) = Stats.successfulTrades x
     end.
Proof.
  intros x r. subst x r. unfold exec_try.
  destruct (exec_balance i) as [balance | e]; [ | now cbn ].
  destruct (balance <? 10 ^ 15); [ now cbn | ].
  cbn [strategies set_stats].
  destruct (nth_error (strategies s) k) eqn:Hnth.
  - now cbn.
  - cbn. repeat split. intros Hk. apply nth_error_None in Hnth. lia.
Qed.

(** C10. A call made while the wallet or the provider is not set throws
    "Wallet not initialized" and leaves the whole state as it was, so none of
    [trades], [successfulTrades], [failedTrades], [totalProfitETH],
    [totalGasCostETH], [avgLatencyMs] and [lastTradeTime] changes. *)
Theorem executeStrategy_not_ready_atomic
  (env : Env) (k : nat) (i : ExecIn) (s : State) :
  wallet env = None \/ provider env = false ->
  executeStrategy env k i s = (Threw "Wallet not initialized", s)
  /\ stats (snd (executeStrategy env k i s)) = stats s.
Proof.
  intros H.
  assert (Hr : ready env = false).
  { unfold ready. destruct H as [-> | ->]; [ | destruct (wallet env) ];
      reflexivity. }
  rewrite (executeStrategy_guarded env k i s Hr). split; reflexivity.
Qed.

Lemma executeStrategy_not_ready_atomic_witness :
  (wallet env_read_only = None \/ provider env_read_only = false)
  /\ executeStrategy env_read_only 0 (exec_ok 0 10) one_strategy
     = (Threw "Wallet not initialized", one_strategy)
  /\ stats (snd (executeStrategy env_read_only 0 (exec_ok 0 10) one_strategy))
     = stats one_strategy.
Proof.
  split; [ left; reflexivity | ].
  apply (executeStrategy_not_ready_atomic env_read_only 0 (exec_ok 0 10)
           one_strategy).
  left; reflexivity.
Defined.

(** C3, as stated, fails: a call stopped by the guard does not count as a
    trade. *)
Lemma executeStrategy_guarded_call_not_counted :
  Stats.trades
    (stats (snd (executeStrategy env_read_only 0 (exec_ok 0 10) one_strategy)))
  <> Stats.trades (stats one_strategy) + 1.
Proof. vm_compute. discriminate. Qed.

(** C3 (amended). A call that passes the guard adds one to [trades] and,
    when it is made on a strategy of the registry, one to exactly one of
    [successfulTrades] and [failedTrades]; a call the guard stops changes
    none of the three; and no call lowers [failedTrades]. *)
Theorem executeStrategy_counters
  (env : Env) (k : nat) (i : ExecIn) (s : State) :
  let x := stats s in
  let x' := stats (snd (executeStrategy env k i s)) in
  (ready env = true ->
   Stats.trades x' = Stats.trades x + 1
   /\ ((k < List.length (strategies s))%nat ->
       Stats.successfulTrades x' = Stats.successfulTrades x + 1
       /\ Stats.failedTrades x' = Stats.failedTrades x
       \/ Stats.successfulTrades x' = Stats.successfulTrades x
          /\ Stats.failedTrades x' = Stats.failedTrades x + 1))
  /\ (ready env = false ->
      Stats.trades x' = Stats.trades x
      /\ Stats.successfulTrades x' = Stats.successfulTrades x
      /\ Stats.failedTrades x' = Stats.failedTrades x)
  /\ Stats.failedTrades x <= Stats.failedTrades x'.
Proof.
  intros x x'. subst x x'.
  destruct (ready env) eqn:Hr.
  - rewrite (executeStrategy_ready env k i s Hr).
    pose proof (exec_try_counters k i
                  (set_stats (incr_trades (stats s)) s)) as H.
    cbv zeta in H.
    destruct (exec_try k i (set_stats (incr_trades (stats s)) s))
      as [[r | e] s'];
      cbn [fst snd stats set_stats incr_trades incr_failedTrades strategies
           Stats.trades Stats.successfulTrades Stats.failedTrades] in *;
      destruct H as (Ht & Hf & Hs);
      (split; [ intros _; split; [ lia | intros Hk ]
              | split; [ discriminate | lia ] ]).
    + left. lia.
    + right. specialize (Hs Hk). lia.
  - rewrite (executeStrategy_guarded env k i s Hr). cbn [snd].
    split; [ discriminate | ]. split; [ auto | lia ].
Qed.

(** The statement at a call that succeeds: one more trade, one more
    successful trade. *)
Lemma executeStrategy_counters_witness :
  let x := stats one_strategy in
  let x' := stats (snd (executeStrategy env_ready 0 (exec_ok 0 10)
                          one_strategy)) in
  ready env_ready = true
  /\ (0 < List.length (strategies one_strategy))%nat
  /\ Stats.trades x' = Stats.trades x + 1
  /\ (Stats.successfulTrades x' = Stats.successfulTrades x + 1
      /\ Stats.failedTrades x' = Stats.failedTrades x
      \/ Stats.successfulTrades x' = Stats.successfulTrades x
         /\ Stats.failedTrades x' = Stats.failedTrades x + 1).
Proof.
  assert (Hr : ready env_ready = true) by reflexivity.
  assert (Hk : (0 < List.length (strategies one_strategy))%nat)
    by (simpl; lia).
  pose proof (proj1 (executeStrategy_counters env_ready 0 (exec_ok 0 10)
                       one_strategy) Hr) as (Ht & Hone).
  repeat (split; [ assumption | ]). exact (Hone Hk).
Defined.

(** ** The running average of the latency *)

Lemma update_length {A : Type} (k : nat) (f : A -> A) (l : list A) :
  List.length (update k f l) = List.length l.
Proof.
  revert k. induction l as [ | x r IH ]; intros [ | k ]; cbn;
    try rewrite IH; reflexivity.
Qed.

(** A funded call on a strategy of the registry succeeds: the registry keeps
    its size, [trades] goes up by one and the latency is folded in. *)
Lemma executeStrategy_success
  (env : Env) (k : nat) (i : ExecIn) (s : State) :
  ready env = true -> funded i -> (k < List.length (strategies s))%nat ->
  let s' := snd (executeStrategy env k i s) in
  List.length (strategies s') = List.length (strategies s)
  /\ Stats.trades (stats s') = Stats.trades (stats s) + 1
  /\ Stats.avgLatencyMs (stats s')
     = ((Stats.avgLatencyMs (stats s) * inject_Z (Stats.trades (stats s) + 1 - 1)
         + inject_Z (latency i))
        / inject_Z (Stats.trades (stats s) + 1))%Q.
Proof.
  intros Hr (balance & Hb & Hge) Hk.
  rewrite (executeStrategy_ready env k i s Hr). unfold exec_try.
  rewrite Hb. destruct (Z.ltb_spec balance (10 ^ 15)) as [ Hlt | _ ]; [ lia | ].
  cbn [strategies set_stats].
  destruct (nth_error (strategies s) k) eqn:Hnth.
  - cbn. rewrite update_length. auto.
  - apply nth_error_None in Hnth. lia.
Qed.

(** When every call succeeds, the average times the number of trades is the
    sum of the latencies. *)
Lemma avgLatency_sum (env : Env) (k : nat) (l : list ExecIn) :
  ready env = true -> Forall funded l ->
  forall s,
    (k < List.length (strategies s))%nat ->
    0 <= Stats.trades (stats s) ->
    let s' := run_execs env k l s in
    Stats.trades (stats s')
    = Stats.trades (stats s) + Z.of_nat (List.length l)
    /\ (Stats.avgLatencyMs (stats s') * inject_Z (Stats.trades (stats s'))
        == Stats.avgLatencyMs (stats s) * inject_Z (Stats.trades (stats s))
           + inject_Z (fold_right Z.add 0%Z (map latency l)))%Q.
Proof.
  intros Hr Hl. induction Hl as [ | i l Hi _ IH ]; intros s Hk Ht.
  - cbn. split; [ lia | ]. ring.
  - destruct (executeStrategy_success env k i s Hr Hi Hk) as (Hlen & Htr & Havg).
    change (run_execs env k (i :: l) s)
      with (run_execs env k l (snd (executeStrategy env k i s))).
    set (s1 := snd (executeStrategy env k i s)) in *.
    destruct (IH s1) as (Ht' & Hsum); [ lia | lia | ].
    cbv zeta in Ht', Hsum |- *. split.
    + rewrite Ht', Htr. cbn [List.length]. lia.
    + rewrite Hsum, Havg, Htr. cbn [map fold_right].
      replace (Stats.trades (stats s) + 1 - 1) with (Stats.trades (stats s))
        by lia.
      assert (Hnz : ~ (inject_Z (Stats.trades (stats s) + 1) == 0)%Q).
      { change 0%Q with (inject_Z 0). rewrite inject_Z_injective. lia. }
      rewrite !inject_Z_plus in *.
      field. exact Hnz.
Qed.

(** From fresh statistics, after calls that all succeed, the average is the
    mean of their latencies. *)
Lemma avgLatency_all_success (env : Env) (k : nat) (l : list ExecIn) (s : State) :
  ready env = true -> Forall funded l -> l <> [] ->
  (k < List.length (strategies s))%nat ->
  Stats.trades (stats s) = 0 ->
  (Stats.avgLatencyMs (stats (run_execs env k l s)) == mean (map latency l))%Q.
Proof.
  intros Hr Hl Hne Hk H0.
  destruct (avgLatency_sum env k l Hr Hl s Hk) as (Ht & Hsum); [ lia | ].
  cbv zeta in Ht, Hsum. rewrite H0 in *. unfold mean. rewrite length_map.
  rewrite Z.add_0_l in Ht. rewrite Ht in Hsum.
  assert (Hnz : ~ (inject_Z (Z.of_nat (List.length l)) == 0)%Q).
  { change 0%Q with (inject_Z 0). rewrite inject_Z_injective.
    destruct l; [ congruence | cbn [List.length]; lia ]. }
  apply (Qmult_inj_r _ _ _ Hnz). rewrite Hsum. field. exact Hnz.
Qed.

(** C4. The code at a success, a failure, a success (latencies 10 and 40):
    the failure is counted in [trades] and leaves the average alone, so the
    next success weighs the old average twice and the result is 20, while the
    mean of the recorded latencies is 25 (and 50/3 if the failed call is
    counted with latency 0). *)
Theorem avgLatency_after_a_failure :
  let s := run_execs env_ready 0
             [exec_ok 0 10; exec_rejected 50; exec_ok 100 40] one_strategy in
  Stats.trades (stats s) = 3
  /\ Stats.successfulTrades (stats s) = 2
  /\ Stats.failedTrades (stats s) = 1
  /\ (Stats.avgLatencyMs (stats s) == 20)%Q
  /\ (mean [10%Z; 40%Z] == 25)%Q
  /\ ~ (Stats.avgLatencyMs (stats s) == mean [10%Z; 40%Z])%Q
  /\ ~ (Stats.avgLatencyMs (stats s) == mean [10%Z; 0%Z; 40%Z])%Q.
Proof.
  vm_compute. repeat split; discriminate.
Qed.

(** ** [scanOpportunities] and the buffer *)

(** The three ways a scan ends. *)
Lemma scanOpportunities_cases (env : Env) (i : ScanIn) (s : State) :
  (provider env = false
   /\ scanOpportunities env i s = (Returned Undefined, s))
  \/ (provider env = true
      /\ ((exists e, scan_blockNumber i = Rejected e)
          \/ (exists e, scan_feeData i = Rejected e))
      /\ scanOpportunities env i s = (Returned Null, s))
  \/ (provider env = true
      /\ exists blockNumber gasPrice,
           scan_blockNumber i = Resolved blockNumber
           /\ scan_feeData i = Resolved gasPrice
           /\ scanOpportunities env i s
              = (Returned (Found (newOpportunity i blockNumber gasPrice)),
                 set_opportunities
                   (push_bounded (newOpportunity i blockNumber gasPrice)
                      (opportunities s)) s)).
Proof.
  unfold scanOpportunities, scan_try.
  destruct (provider env); cbn [negb]; [ right | left; auto ].
  destruct (scan_blockNumber i) as [ b | e ] eqn:Hb.
  - destruct (scan_feeData i) as [ g | e ] eqn:Hg.
    + right. split; [ reflexivity | ]. exists b, g. auto.
    + left. split; [ reflexivity | ]. split; [ right; eauto | reflexivity ].
  - left. split; [ reflexivity | ]. split; [ left; eauto | reflexivity ].
Qed.

(** Case analysis on the way the scan of [i] in [s] ends; [E] names the
    equation of the case, [b] and [g] the block number and gas price read. *)
Ltac scan_cases env i s E b g :=
  destruct (scanOpportunities_cases env i s)
    as [ (_ & E) | [ (_ & _ & E) | (_ & b & g & _ & _ & E) ] ].

(** C7. A scan never throws: it always returns.  Without a provider it
    returns [undefined], and when the block-number call or the fee-data call
    is rejected it returns [null]; either way the state, and so the buffer,
    is what it was. *)
Theorem scanOpportunities_never_throws (env : Env) (i : ScanIn) (s : State) :
  (exists r s', scanOpportunities env i s = (Returned r, s'))
  /\ (provider env = false ->
      scanOpportunities env i s = (Returned Undefined, s))
  /\ (provider env = true ->
      (exists e, scan_blockNumber i = Rejected e)
      \/ (exists e, scan_feeData i = Rejected e) ->
      scanOpportunities env i s = (Returned Null, s)
      /\ opportunities (snd (scanOpportunities env i s)) = opportunities s).
Proof.
  destruct (scanOpportunities_cases env i s)
    as [ (Hp & H) | [ (Hp & Hrej & H) | (Hp & b & g & Hb & Hg & H) ] ];
    rewrite H; (split; [ eauto | ]); split; intros Hp'; try congruence.
  - intros _. auto.
  - intros [ (e & He) | (e & He) ]; congruence.
Qed.

Lemma scanOpportunities_never_throws_witness :
  provider env_ready = true
  /\ scan_blockNumber scan_rejected = Rejected "timeout"
  /\ scanOpportunities env_ready scan_rejected (initial 0)
     = (Returned Null, initial 0).
Proof.
  assert (Hp : provider env_ready = true) by reflexivity.
  assert (Hb : scan_blockNumber scan_rejected = Rejected "timeout")
    by reflexivity.
  repeat (split; [ assumption | ]).
  exact (proj1 (proj2 (proj2 (scanOpportunities_never_throws env_ready
                                 scan_rejected (initial 0)))
                  Hp (or_introl (ex_intro _ _ Hb)))).
Defined.

Lemma push_bounded_length (opp : Opportunity.t) (l : list Opportunity.t) :
  (List.length l <= 50)%nat ->
  (List.length (push_bounded opp l) <= 50)%nat.
Proof.
  intros H. unfold push_bounded.
  destruct (Nat.ltb_spec 50 (List.length (l ++ [opp]))) as [ Hlt | Hle ];
    [ | exact Hle ].
  rewrite length_app in Hlt. cbn [List.length] in Hlt.
  destruct l as [ | x r ]; cbn [app tl List.length] in *;
    [ lia | rewrite length_app; cbn [List.length]; lia ].
Qed.

(** The two regimes of the buffer: below capacity the new entry is appended,
    at capacity the front entry leaves as the new one is appended. *)
Lemma push_bounded_spec (opp : Opportunity.t) (l : list Opportunity.t) :
  ((List.length l < 50)%nat -> push_bounded opp l = l ++ [opp])
  /\ (List.length l = 50%nat ->
      exists oldest rest,
        l = oldest :: rest /\ push_bounded opp l = rest ++ [opp]).
Proof.
  unfold push_bounded. rewrite length_app. cbn [List.length]. split; intros H.
  - destruct (Nat.ltb_spec 50 (List.length l + 1)); [ lia | reflexivity ].
  - destruct (Nat.ltb_spec 50 (List.length l + 1)); [ | lia ].
    destruct l as [ | x r ]; [ discriminate | ].
    exists x, r. split; reflexivity.
Qed.

Lemma StronglySorted_snoc (t : Z) (l : list Z) :
  StronglySorted Z.le l -> Forall (fun x => x <= t) l ->
  StronglySorted Z.le (l ++ [t]).
Proof.
  induction 1 as [ | x r Hr IH Hx ]; intros Hall; cbn [app].
  - constructor; constructor.
  - inversion Hall; subst. constructor; [ auto | ].
    apply Forall_app. split; [ exact Hx | constructor; [ lia | constructor ] ].
Qed.

Lemma ordered_weaken (t t' : Z) (l : list Opportunity.t) :
  t <= t' -> ordered t l -> ordered t' l.
Proof.
  intros Hle (Hs & Hall). split; [ exact Hs | ].
  eapply Forall_impl; [ | exact Hall ]. cbn. intros; lia.
Qed.

Lemma ordered_push (t : Z) (opp : Opportunity.t) (l : list Opportunity.t) :
  ordered t l -> t <= Opportunity.id opp ->
  ordered (Opportunity.id opp) (push_bounded opp l).
Proof.
  intros (Hs & Hall) Hle.
  assert (H : ordered (Opportunity.id opp) (l ++ [opp])).
  { split.
    - rewrite map_app. cbn [map]. apply StronglySorted_snoc; [ exact Hs | ].
      apply Forall_map. eapply Forall_impl; [ | exact Hall ]. cbn. intros; lia.
    - apply Forall_app. split.
      + eapply Forall_impl; [ | exact Hall ]. cbn. intros; lia.
      + constructor; [ lia | constructor ]. }
  unfold push_bounded. destruct (50 <? List.length (l ++ [opp]))%nat; [ | exact H ].
  destruct H as (Hs' & Hall'). destruct (l ++ [opp]) as [ | x r ]; cbn [tl].
  - split; constructor.
  - cbn [map] in Hs'. apply StronglySorted_inv in Hs'.
    inversion Hall'; subst. split; tauto.
Qed.

Lemma scanOpportunities_length (env : Env) (i : ScanIn) (s : State) :
  (List.length (opportunities s) <= 50)%nat ->
  (List.length (opportunities (snd (scanOpportunities env i s))) <= 50)%nat.
Proof.
  intros H.
  scan_cases env i s E b g;
    rewrite E; cbn [snd]; [ exact H | exact H | ].
  cbn [opportunities set_opportunities]. now apply push_bounded_length.
Qed.

Lemma run_scans_length (env : Env) (l : list ScanIn) :
  forall s,
    (List.length (opportunities s) <= 50)%nat ->
    (List.length (opportunities (run_scans env l s)) <= 50)%nat.
Proof.
  induction l as [ | i r IH ]; intros s H; [ exact H | ].
  apply IH. now apply scanOpportunities_length.
Qed.

Lemma scanOpportunities_ordered (env : Env) (i : ScanIn) (t : Z) (s : State) :
  ordered t (opportunities s) -> t <= scan_now_id i ->
  ordered (scan_now_id i) (opportunities (snd (scanOpportunities env i s))).
Proof.
  intros H Hle.
  scan_cases env i s E b g;
    rewrite E; cbn [snd]; try (eapply ordered_weaken; eassumption).
  cbn [opportunities set_opportunities].
  apply (ordered_push t (newOpportunity i b g)); assumption.
Qed.

Lemma run_scans_ordered (env : Env) (l : list ScanIn) :
  forall t s,
    ordered t (opportunities s) -> clock_from t l ->
    ordered (last_reading t l) (opportunities (run_scans env l s)).
Proof.
  induction l as [ | i r IH ]; intros t s H Hc; [ exact H | ].
  destruct Hc as (Hle & Hc).
  apply (IH (scan_now_id i)); [ | exact Hc ].
  now apply (scanOpportunities_ordered env i t).
Qed.

Lemma clock_from_snoc (l : list ScanIn) (i : ScanIn) :
  forall t,
    clock_from t (l ++ [i]) ->
    clock_from t l /\ last_reading t l <= scan_now_id i.
Proof.
  induction l as [ | j r IH ]; intros t H; cbn in *.
  - tauto.
  - destruct H as (Hle & H). destruct (IH _ H). tauto.
Qed.

(** C5, as stated, fails on "lowest sequence id": an id is a reading of
    [Date.now()], not a sequence number.  When the clock is set back after
    the first scan, the entry that leaves a full buffer, the first one
    inserted, has the highest id of all, and the forty-nine entries with a
    lower id stay. *)
Lemma evicted_entry_has_highest_id :
  List.length (opportunities (run_scans env_ready clock_set_back (initial 0)))
  = 50%nat
  /\ exists oldest rest opp s',
       scanOpportunities env_ready (scan_ok 2)
         (run_scans env_ready clock_set_back (initial 0))
       = (Returned (Found opp), s')
       /\ opportunities (run_scans env_ready clock_set_back (initial 0))
          = oldest :: rest
       /\ opportunities s' = rest ++ [opp]
       /\ Opportunity.id oldest = 100
       /\ Forall (fun o => Opportunity.id o < Opportunity.id oldest)
            (opportunities s').
Proof.
  split; [ vm_compute; reflexivity | ].
  eexists. eexists. eexists. eexists.
  split; [ vm_compute; reflexivity | ].
  split; [ vm_compute; reflexivity | ].
  split; [ vm_compute; reflexivity | ].
  split; [ reflexivity | ].
  vm_compute. repeat constructor.
Qed.

(** C5 (amended). From the empty buffer the process starts with, after any
    number of scans the buffer holds at most 50 entries.  A scan that finds
    an opportunity appends it; when the buffer already held 50, the entry at
    the front, which is the one inserted first, leaves.  With a clock that
    does not go back that entry has the lowest id of all, the new one
    included. *)
Theorem opportunities_bounded_fifo (env : Env) (l : list ScanIn) (now : Z) :
  let s := run_scans env l (initial now) in
  (List.length (opportunities s) <= 50)%nat
  /\ forall i opp s',
       scanOpportunities env i s = (Returned (Found opp), s') ->
       (List.length (opportunities s') <= 50)%nat
       /\ ((List.length (opportunities s) < 50)%nat ->
           opportunities s' = opportunities s ++ [opp])
       /\ (List.length (opportunities s) = 50%nat ->
           exists oldest rest,
             opportunities s = oldest :: rest
             /\ opportunities s' = rest ++ [opp]
             /\ (clock_from now (l ++ [i]) ->
                 Forall (fun o => Opportunity.id oldest <= Opportunity.id o)
                   (opportunities s'))).
Proof.
  intros s.
  assert (Hlen : (List.length (opportunities s) <= 50)%nat).
  { apply run_scans_length. cbn. lia. }
  split; [ exact Hlen | ]. intros i opp s' Hscan.
  pose proof (scanOpportunities_length env i s Hlen) as Hlen'.
  rewrite Hscan in Hlen'. cbn [snd] in Hlen'.
  split; [ exact Hlen' | ].
  scan_cases env i s E b g;
    rewrite E in Hscan; try discriminate.
  injection Hscan as <- <-. cbn [opportunities set_opportunities].
  destruct (push_bounded_spec (newOpportunity i b g) (opportunities s))
    as (Hbelow & Hfull).
  split; [ exact Hbelow | ]. intros H50.
  destruct (Hfull H50) as (oldest & rest & Hs & Hpush).
  exists oldest, rest. split; [ exact Hs | ]. split; [ exact Hpush | ].
  intros Hclock. apply clock_from_snoc in Hclock as (Hclock & Hlast).
  assert (Hord : ordered (last_reading now l) (opportunities s)).
  { apply run_scans_ordered; [ split; constructor | exact Hclock ]. }
  rewrite Hs in Hord. destruct Hord as (Hsorted & Hall).
  cbn [map] in Hsorted. apply StronglySorted_inv in Hsorted as (_ & Hhd).
  inversion Hall as [ | ? ? Hold _ ]; subst.
  rewrite Hpush. apply Forall_app. split.
  - rewrite Forall_map in Hhd. exact Hhd.
  - constructor; [ cbn; lia | constructor ].
Qed.

(** The statement at a full buffer: fifty scans with ids 1 to 50, then the
    scan with id 51. *)
Lemma opportunities_bounded_fifo_witness :
  let l := map (fun n => scan_ok (Z.of_nat n)) (seq 1 50) in
  let s := run_scans env_ready l (initial 0) in
  let opp := newOpportunity (scan_ok 51) 1 (Some 1) in
  let s' := set_opportunities (push_bounded opp (opportunities s)) s in
  scanOpportunities env_ready (scan_ok 51) s = (Returned (Found opp), s')
  /\ List.length (opportunities s) = 50%nat
  /\ clock_from 0 (l ++ [scan_ok 51])
  /\ exists oldest rest,
       opportunities s = oldest :: rest
       /\ opportunities s' = rest ++ [opp]
       /\ Forall (fun o => Opportunity.id oldest <= Opportunity.id o)
            (opportunities s').
Proof.
  intros l s opp s'.
  assert (Hscan : scanOpportunities env_ready (scan_ok 51) s
                  = (Returned (Found opp), s')) by reflexivity.
  assert (H50 : List.length (opportunities s) = 50%nat)
    by (vm_compute; reflexivity).
  assert (Hclock : clock_from 0 (l ++ [scan_ok 51]))
    by (simpl; repeat split; lia).
  repeat (split; [ assumption | ]).
  destruct (proj2 (opportunities_bounded_fifo env_ready l 0)
              (scan_ok 51) opp s' Hscan) as (_ & _ & Hfull).
  destruct (Hfull H50) as (oldest & rest & Hs & Hs' & Hall).
  exists oldest, rest. repeat (split; [ assumption | ]). exact (Hall Hclock).
Defined.

(** Fifty-one scans that all find something: the buffer holds the last
    fifty, the first one (id 1) is gone and the front is the second. *)
Example opportunities_after_51_scans :
  let s := run_scans env_ready (map (fun n => scan_ok (Z.of_nat n)) (seq 1 51))
             (initial 0) in
  List.length (opportunities s) = 50%nat
  /\ map Opportunity.id (opportunities s) = map Z.of_nat (seq 2 50).
Proof. vm_compute. split; reflexivity. Qed.

(** ** [generateStrategies] *)

Lemma generateStrategies_fold (rand : nat -> Q) (l : list nat) :
  forall s,
    strategies
      (fold_left
         (fun s i => set_strategies (strategies s ++ [newStrategy rand i]) s)
         l s)
    = strategies s ++ map (newStrategy rand) l.
Proof.
  induction l as [ | i r IH ]; intros s; cbn [fold_left map].
  - now rewrite app_nil_r.
  - rewrite IH. cbn [strategies set_strategies]. now rewrite <- app_assoc.
Qed.

Lemma generateStrategies_strategies (rand : nat -> Q) (s : State) :
  strategies (generateStrategies rand s)
  = strategies s ++ map (newStrategy rand) (seq 0 450).
Proof. apply generateStrategies_fold. Qed.

Lemma nth_error_map_seq {A : Type} (f : nat -> A) (n i : nat) :
  (i < n)%nat -> nth_error (map f (seq 0 n)) i = Some (f i).
Proof.
  intros H. rewrite nth_error_map.
  rewrite (nth_error_nth' (seq 0 n) 0%nat) by (rewrite length_seq; exact H).
  rewrite seq_nth by exact H. reflexivity.
Qed.

Lemma priority_range (r : Q) :
  unit_interval r -> 0 <= Num.floor (r * 100) < 100.
Proof.
  intros (H0 & H1). unfold Num.floor. split.
  - change 0 with (Qfloor 0). apply Qfloor_resp_le. lra.
  - pose proof (Qfloor_le (r * 100)) as H.
    rewrite Zlt_Qlt. change (inject_Z 100) with 100%Q. lra.
Qed.

Lemma successRate_range (r : Q) :
  unit_interval r -> (0.75 <= 0.75 + r * 0.2 /\ 0.75 + r * 0.2 < 0.95)%Q.
Proof. intros (H0 & H1). split; lra. Qed.

(** C9, as stated, fails on the spelling of three categories: the sixth
    strategy is of type [jit_liquidity], which is not the sixth name of the
    specification's enumeration. *)
Lemma generateStrategies_category_spelling :
  exists x,
    nth_error (strategies (generateStrategies (fun _ => 0%Q) (initial 0))) 5
    = Some x
    /\ Strategy.type x = "jit_liquidity"%string
    /\ Strategy.type x <> nth 5 spec_categories ""%string.
Proof.
  eexists. split; [ vm_compute; reflexivity | ].
  split; [ reflexivity | discriminate ].
Qed.

(** C9 (amended). Run on the empty registry, [generateStrategies] builds
    exactly 450 records.  The record of index [i] has the category of index
    [i mod 9] in sandwich, frontrun, backrun, arbitrage, liquidation,
    jit_liquidity, flash_swap, triangular, cross_dex, the risk tier high,
    medium or low as [i mod 3] is 0, 1 or 2, is enabled and has no trades and
    no profit; with draws in [0, 1) its priority is in [0, 100) and its
    success rate in [0.75, 0.95). *)
Theorem generateStrategies_catalog (rand : nat -> Q) (now : Z) :
  let l := strategies (generateStrategies rand (initial now)) in
  List.length l = 450%nat
  /\ forall i,
       (i < 450)%nat ->
       exists x,
         nth_error l i = Some x
         /\ Strategy.type x
            = nth (i mod 9)
                [ "sandwich"; "frontrun"; "backrun"; "arbitrage";
                  "liquidation"; "jit_liquidity"; "flash_swap"; "triangular";
                  "cross_dex" ]%string ""%string
         /\ Strategy.riskLevel x
            = match (i mod 3)%nat with
              | 0%nat => "high"
              | 1%nat => "medium"
              | _ => "low"
              end%string
         /\ Strategy.enabled x = true
         /\ Strategy.totalTrades x = 0
         /\ Strategy.totalProfitUSD x = 0%Q
         /\ ((forall k, unit_interval (rand k)) ->
             0 <= Strategy.priority x < 100
             /\ (0.75 <= Strategy.successRate x
                 /\ Strategy.successRate x < 0.95)%Q).
Proof.
  intros l. subst l. rewrite generateStrategies_strategies.
  cbn [strategies initial app]. split.
  - now rewrite length_map, length_seq.
  - intros i Hi. exists (newStrategy rand i).
    split; [ now apply nth_error_map_seq | ].
    split; [ reflexivity | ]. split.
    + cbn [newStrategy Strategy.riskLevel].
      pose proof (Nat.mod_upper_bound i 3 ltac:(discriminate)) as Hm.
      destruct (i mod 3)%nat as [ | [ | [ | m ] ] ]; try reflexivity; lia.
    + repeat (split; [ reflexivity | ]). intros Hrand. split.
      * apply priority_range, Hrand.
      * apply successRate_range, Hrand.
Qed.

(** The statement at the sixth record, with every draw equal to one half. *)
Lemma generateStrategies_catalog_witness :
  (forall k : nat, unit_interval ((fun _ => 1 # 2) k))
  /\ exists x,
       nth_error
         (strategies (generateStrategies (fun _ => 1 # 2) (initial 0))) 5
       = Some x
       /\ Strategy.type x = "jit_liquidity"%string
       /\ Strategy.riskLevel x = "low"%string
       /\ 0 <= Strategy.priority x < 100
       /\ (0.75 <= Strategy.successRate x /\ Strategy.successRate x < 0.95)%Q.
Proof.
  assert (Hr : forall k : nat, unit_interval ((fun _ => 1 # 2) k)).
  { intros k. unfold unit_interval. lra. }
  split; [ exact Hr | ].
  destruct (proj2 (generateStrategies_catalog (fun _ => 1 # 2) 0) 5%nat)
    as (x & Hx & Ht & Hl & _ & _ & _ & Hrange); [ lia | ].
  exists x. split; [ exact Hx | ]. split; [ exact Ht | ].
  split; [ exact Hl | ]. exact (Hrange Hr).
Defined.

(** ** [toFixed] *)

(** Below 1e21, [toFixed p] of a non-negative number is the nearest decimal
    with [p] fractional digits, the upper one on a tie. *)
Lemma toFixed_nearest (p : nat) (x : Q) :
  (0 <= x)%Q -> (x < inject_Z (10 ^ 21))%Q ->
  exists n,
    Num.toFixed p x = Num.Fixed n p
    /\ 0 <= n
    /\ (inject_Z n - (1 # 2) <= x * inject_Z (Num.pow10 p))%Q
    /\ (x * inject_Z (Num.pow10 p) < inject_Z n + (1 # 2))%Q.
Proof.
  intros H0 Hlt. unfold Num.toFixed.
  assert (Habs : (Qabs x == x)%Q) by (apply Qabs_pos; exact H0).
  destruct (Qle_bool (inject_Z (10 ^ 21)) (Qabs x)) eqn:Hb.
  { apply Qle_bool_iff in Hb. rewrite Habs in Hb. lra. }
  set (y := (x * inject_Z (Num.pow10 p))%Q).
  assert (Hfloor : Qfloor (Qabs x * inject_Z (Num.pow10 p) + (1 # 2))
                   = Qfloor (y + (1 # 2))).
  { apply Qfloor_comp. unfold y. rewrite Habs. reflexivity. }
  rewrite Hfloor. clear Hfloor Hb Habs.
  assert (Hp : (0 <= inject_Z (Num.pow10 p))%Q).
  { change 0%Q with (inject_Z 0). rewrite <- Zle_Qle. unfold Num.pow10. lia. }
  assert (Hy : (0 <= y)%Q) by (unfold y; apply Qmult_le_0_compat; assumption).
  pose proof (Qfloor_le (y + (1 # 2))) as Hfl.
  pose proof (Qlt_floor (y + (1 # 2))) as Hfu.
  rewrite inject_Z_plus in Hfu. change (inject_Z 1) with 1%Q in Hfu.
  assert (Hn : 0 <= Qfloor (y + (1 # 2))).
  { change 0 with (Qfloor 0). apply Qfloor_resp_le. lra. }
  destruct (Z.sgn_spec (Qnum x)) as [ (Hpos & ->) | [ (Hz & ->) | (Hneg & _) ] ].
  - rewrite Z.mul_1_l. eexists. split; [ reflexivity | ].
    split; [ exact Hn | ].
    clearbody y. split; lra.
  - exists 0. split; [ reflexivity | ]. split; [ lia | ].
    assert (Hx0 : (x == 0)%Q) by (unfold Qeq; cbn; lia).
    assert (Hy0 : (y == 0)%Q) by (unfold y; rewrite Hx0; ring).
    change (inject_Z 0) with 0%Q. clear - Hy0. clearbody y. split; lra.
  - exfalso. unfold Qle in H0. cbn in H0. lia.
Qed.

(** ** [GET /api/flashloans] *)

Lemma reduce_sum (l : list Opportunity.t) :
  forall a,
    (fold_left (fun sum o => sum + Num.parseFloat (Opportunity.profitETH o))
       l a
     == a + Qsum (profits l))%Q.
Proof.
  induction l as [ | o r IH ]; intros a; cbn [fold_left profits map Qsum fold_right].
  - ring.
  - rewrite IH. fold (profits r). fold (Qsum (profits r)). ring.
Qed.

Lemma newOpportunity_plausible (i : ScanIn) (b : Z) (g : option Z) :
  unit_interval (scan_random i) -> plausible (newOpportunity i b g).
Proof.
  intros (H0 & H1). unfold plausible. cbn [newOpportunity Opportunity.profitETH].
  set (x := (0.001 + scan_random i * 0.01)%Q).
  destruct (toFixed_nearest 6 x) as (n & -> & Hn & Hlo & Hhi).
  - unfold x. lra.
  - unfold x. change (inject_Z (10 ^ 21)) with 1000000000000000000000%Q. lra.
  - exists n. split; [ reflexivity | ].
    change (inject_Z (Num.pow10 6)) with 1000000%Q in Hlo, Hhi.
    assert (Hl : (inject_Z 999 < inject_Z n)%Q).
    { change (inject_Z 999) with 999%Q. unfold x in Hhi. lra. }
    assert (Hu : (inject_Z n < inject_Z 11001)%Q).
    { change (inject_Z 11001) with 11001%Q. unfold x in Hlo. lra. }
    rewrite <- Zlt_Qlt in Hl, Hu. lia.
Qed.

Lemma push_bounded_Forall (P : Opportunity.t -> Prop) (opp : Opportunity.t)
  (l : list Opportunity.t) :
  Forall P l -> P opp -> Forall P (push_bounded opp l).
Proof.
  intros Hl Ho. unfold push_bounded.
  assert (H : Forall P (l ++ [opp])).
  { apply Forall_app. split; [ exact Hl | constructor; [ exact Ho | constructor ] ]. }
  destruct (50 <? List.length (l ++ [opp]))%nat; [ | exact H ].
  destruct (l ++ [opp]); [ constructor | now inversion H ].
Qed.

Lemma run_scans_plausible (env : Env) (l : list ScanIn) :
  Forall (fun i => unit_interval (scan_random i)) l ->
  forall s,
    Forall plausible (opportunities s) ->
    Forall plausible (opportunities (run_scans env l s)).
Proof.
  induction 1 as [ | i r Hi _ IH ]; intros s Hs; [ exact Hs | ].
  apply IH.
  scan_cases env i s E b g;
    rewrite E; cbn [snd]; try exact Hs.
  cbn [opportunities set_opportunities].
  apply push_bounded_Forall; [ exact Hs | now apply newOpportunity_plausible ].
Qed.

Lemma plausible_range (o : Opportunity.t) :
  plausible o ->
  (0.001 <= Num.parseFloat (Opportunity.profitETH o)
   /\ Num.parseFloat (Opportunity.profitETH o) <= 0.011)%Q.
Proof.
  intros (n & -> & Hn). cbn [Num.parseFloat].
  change (inject_Z (Num.pow10 6)) with 1000000%Q.
  unfold Qdiv, Qle. cbn. lia.
Qed.

Lemma Qsum_range (l : list Opportunity.t) :
  Forall plausible l ->
  (0.001 * inject_Z (Z.of_nat (List.length l)) <= Qsum (profits l)
   /\ Qsum (profits l) <= 0.011 * inject_Z (Z.of_nat (List.length l)))%Q.
Proof.
  induction 1 as [ | o r Ho _ IH ].
  - cbn [profits map Qsum fold_right List.length].
    change (inject_Z (Z.of_nat 0)) with 0%Q. split; lra.
  - cbn [profits map Qsum fold_right List.length].
    fold (profits r). fold (Qsum (profits r)).
    rewrite Nat2Z.inj_succ. unfold Z.succ. rewrite inject_Z_plus.
    change (inject_Z 1) with 1%Q.
    apply plausible_range in Ho. lra.
Qed.

Lemma profits_length (l : list Opportunity.t) :
  List.length (profits l) = List.length l.
Proof. apply length_map. Qed.

Lemma flashloans_average_range (l : list Opportunity.t) :
  l <> [] -> Forall plausible l ->
  let x := (fold_left
              (fun sum o => sum + Num.parseFloat (Opportunity.profitETH o))
              l 0
            / inject_Z (Z.of_nat (List.length l)))%Q in
  (x == Qmean (profits l))%Q /\ (0.001 <= x)%Q /\ (x <= 0.011)%Q.
Proof.
  intros Hne Hl x.
  assert (Hpos : (0 < inject_Z (Z.of_nat (List.length l)))%Q).
  { change 0%Q with (inject_Z 0). rewrite <- Zlt_Qlt.
    destruct l; [ congruence | cbn [List.length]; lia ]. }
  assert (Hx : (x == Qmean (profits l))%Q).
  { unfold x, Qmean. rewrite reduce_sum, profits_length. field. lra. }
  split; [ exact Hx | ]. rewrite Hx. unfold Qmean. rewrite profits_length.
  destruct (Qsum_range l Hl) as (Hlo & Hhi). split.
  - apply Qle_shift_div_l; assumption.
  - apply Qle_shift_div_r; assumption.
Qed.

(** C8, as stated, fails: after two scans the [best] field is the entry of
    the first scan, not the most recent one. *)
Lemma flashloans_best_is_not_most_recent :
  let s := run_scans env_ready [scan_ok 1; scan_ok 2] (initial 0) in
  option_map Opportunity.id (best (flashloans s)) = Some 1
  /\ option_map Opportunity.id (most_recent (opportunities s)) = Some 2
  /\ best (flashloans s) <> most_recent (opportunities s).
Proof.
  vm_compute. repeat split; discriminate.
Qed.

(** Exact arithmetic is the rounding that rounds nothing. *)
Lemma flashloans_exact (s : State) :
  flashloans_with (fun x => x) s = flashloans s.
Proof. reflexivity. Qed.

Lemma exact_is_rounding : binary64_rounding (fun x => x).
Proof.
  intros x Hlo _. unfold unit_roundoff.
  assert (E : (x - x == 0)%Q) by ring.
  rewrite E. cbn [Qabs Qnum Z.abs]. lra.
Qed.

(** The rounded [reduce] stays within two units of rounding per entry of the
    exact one, over the fifty entries a buffer can hold. *)
Lemma rounded_reduce (fl : Q -> Q) (l : list Opportunity.t) :
  binary64_rounding fl -> Forall plausible l ->
  forall (m : nat) (a a' : Q),
    (m + List.length l <= 50)%nat ->
    (0.001 * inject_Z (Z.of_nat m) <= a)%Q ->
    (a <= 0.011 * inject_Z (Z.of_nat m))%Q ->
    (Qabs (a' - a) <= inject_Z (Z.of_nat m) * (2 * unit_roundoff))%Q ->
    (Qabs
       (fold_left
          (fun sum o =>
             fl (sum + fl (Num.parseFloat (Opportunity.profitETH o))))
          l a'
        - fold_left
            (fun sum o => sum + Num.parseFloat (Opportunity.profitETH o))
            l a)
     <= inject_Z (Z.of_nat (m + List.length l)) * (2 * unit_roundoff))%Q.
Proof.
  intros Hfl Hl. induction Hl as [ | o r Ho _ IH ]; intros m a a' Hm Hlo Hhi Ha.
  - cbn [fold_left List.length]. now rewrite Nat.add_0_r.
  - cbn [fold_left List.length] in *.
    replace (m + S (List.length r))%nat with (S m + List.length r)%nat by lia.
    apply plausible_range in Ho. destruct Ho as (Hp0 & Hp1).
    set (p := Num.parseFloat (Opportunity.profitETH o)) in *. clearbody p.
    assert (Hmq : (0 <= inject_Z (Z.of_nat m))%Q
                  /\ (inject_Z (Z.of_nat m) <= 49)%Q).
    { change 0%Q with (inject_Z 0). change 49%Q with (inject_Z 49).
      rewrite <- !Zle_Qle. lia. }
    assert (HS : (inject_Z (Z.of_nat (S m)) == inject_Z (Z.of_nat m) + 1)%Q).
    { rewrite Nat2Z.inj_succ. unfold Z.succ. rewrite inject_Z_plus.
      reflexivity. }
    set (mq := inject_Z (Z.of_nat m)) in *. clearbody mq.
    destruct Hmq as (Hm0 & Hm49).
    assert (Hp : (Qabs (fl p - p) <= p * unit_roundoff)%Q).
    { apply Hfl; lra. }
    apply Qabs_Qle_condition in Hp. apply Qabs_Qle_condition in Ha.
    unfold unit_roundoff in *.
    set (p' := fl p) in *. clearbody p'.
    assert (Hx : (Qabs (fl (a' + p') - (a' + p'))
                  <= (a' + p') * unit_roundoff)%Q).
    { apply Hfl; lra. }
    apply Qabs_Qle_condition in Hx. unfold unit_roundoff in Hx.
    set (x' := fl (a' + p')%Q) in *. clearbody x'.
    apply IH; [ lia | rewrite HS; lra | rewrite HS; lra | ].
    apply Qabs_Qle_condition. rewrite HS. split; lra.
Qed.

(** The rounded average is within three units of rounding of the exact
    one. *)
Lemma rounded_average (fl : Q -> Q) (l : list Opportunity.t) :
  binary64_rounding fl -> Forall plausible l ->
  l <> [] -> (List.length l <= 50)%nat ->
  let y := fl (fold_left
                 (fun sum o =>
                    fl (sum + fl (Num.parseFloat (Opportunity.profitETH o))))
                 l 0
               / inject_Z (Z.of_nat (List.length l)))%Q in
  (Qabs (y - Qmean (profits l)) <= 3 * unit_roundoff)%Q
  /\ (0.001 <= Qmean (profits l))%Q /\ (Qmean (profits l) <= 0.011)%Q.
Proof.
  intros Hfl Hl Hne Hlen y.
  destruct (flashloans_average_range l Hne Hl) as (Hx & Hlo & Hhi).
  pose proof (rounded_reduce fl l Hfl Hl 0 0 0 Hlen) as Hsum.
  cbn [Nat.add] in Hsum.
  set (e := (fold_left
               (fun sum o => sum + Num.parseFloat (Opportunity.profitETH o))
               l 0)%Q) in *.
  set (e' := (fold_left
                (fun sum o =>
                   fl (sum + fl (Num.parseFloat (Opportunity.profitETH o))))
                l 0)%Q) in *.
  assert (Hn : (0 < inject_Z (Z.of_nat (List.length l)))%Q).
  { change 0%Q with (inject_Z 0). rewrite <- Zlt_Qlt.
    destruct l; [ congruence | cbn [List.length]; lia ]. }
  set (n := inject_Z (Z.of_nat (List.length l))) in *.
  assert (Hd : (Qabs (e' - e) <= n * (2 * unit_roundoff))%Q).
  { apply Hsum.
    - change (inject_Z (Z.of_nat 0)) with 0%Q. lra.
    - change (inject_Z (Z.of_nat 0)) with 0%Q. lra.
    - assert (E : (0 - 0 == 0)%Q) by ring.
      rewrite E. change (inject_Z (Z.of_nat 0)) with 0%Q.
      cbn [Qabs Qnum Z.abs]. lra. }
  apply Qabs_Qle_condition in Hd. destruct Hd as (Hd0 & Hd1).
  rewrite <- Hx. clear Hsum.
  set (m := (e / n)%Q) in *.
  assert (Hq : (e' / n == m + (e' - e) / n)%Q) by (unfold m; field; lra).
  assert (Hq0 : (- (2 * unit_roundoff) <= (e' - e) / n)%Q).
  { apply Qle_shift_div_l; [ exact Hn | ].
    unfold unit_roundoff in *. clearbody n e e'. lra. }
  assert (Hq1 : ((e' - e) / n <= 2 * unit_roundoff)%Q).
  { apply Qle_shift_div_r; [ exact Hn | ].
    unfold unit_roundoff in *. clearbody n e e'. lra. }
  set (d := ((e' - e) / n)%Q) in *. clearbody d.
  unfold unit_roundoff in Hq0, Hq1.
  assert (Hy : (Qabs (y - e' / n) <= (e' / n) * unit_roundoff)%Q).
  { apply Hfl; rewrite Hq; clearbody m; lra. }
  apply Qabs_Qle_condition in Hy. rewrite Hq in Hy.
  unfold unit_roundoff in *. clearbody y m.
  split; [ apply Qabs_Qle_condition; split; lra | split; assumption ].
Qed.

(** C8 (amended). In a state reached by scans whose draws are in [0, 1), the
    [best] field is the entry at the front of the buffer, which is the oldest
    one (with a clock that does not go back, no buffered entry has a lower
    id), and [null] when the buffer is empty.  The reported average is the
    text [0] when the buffer is empty; otherwise it has six decimals, lies
    between 0.001000 and 0.011000, and is the arithmetic mean of the
    buffered profit estimates rounded to six decimals up to the rounding of
    the handler's binary64 arithmetic: it is within half a millionth, plus a
    thousandth of a millionth, of the mean. *)
Theorem flashloans_best_and_average
  (env : Env) (l : list ScanIn) (now : Z) (fl : Q -> Q) :
  Forall (fun i => unit_interval (scan_random i)) l ->
  binary64_rounding fl ->
  let s := run_scans env l (initial now) in
  let r := flashloans_with fl s in
  best r = hd_error (opportunities s)
  /\ (clock_from now l ->
      forall b, best r = Some b ->
                Forall (fun o => Opportunity.id b <= Opportunity.id o)
                  (opportunities s))
  /\ (opportunities s = [] -> best r = None /\ avgProfitETH r = Num.Fixed 0 0)
  /\ (opportunities s <> [] ->
      exists n,
        avgProfitETH r = Num.Fixed n 6
        /\ 1000 <= n <= 11000
        /\ (inject_Z n - (1 # 2) - (1 # 1000)
            <= Qmean (profits (opportunities s)) * 1000000)%Q
        /\ (Qmean (profits (opportunities s)) * 1000000
            <= inject_Z n + (1 # 2) + (1 # 1000))%Q).
Proof.
  intros Hl Hfl s r. subst r. unfold flashloans_with. cbn [best avgProfitETH].
  split; [ reflexivity | ]. split; [ | split ].
  - intros Hclock b Hb.
    assert (Hord : ordered (last_reading now l) (opportunities s)).
    { apply run_scans_ordered; [ split; constructor | exact Hclock ]. }
    destruct Hord as (Hsorted & _).
    destruct (opportunities s) as [ | o rest ]; [ discriminate | ].
    injection Hb as <-. cbn [map] in Hsorted.
    apply StronglySorted_inv in Hsorted as (_ & Hhd).
    constructor; [ lia | ]. rewrite Forall_map in Hhd. exact Hhd.
  - intros ->. split; reflexivity.
  - intros Hne.
    assert (Hp : Forall plausible (opportunities s)).
    { apply run_scans_plausible; [ exact Hl | constructor ]. }
    assert (Hlen : (List.length (opportunities s) <= 50)%nat).
    { apply run_scans_length. cbn. lia. }
    destruct (rounded_average fl (opportunities s) Hfl Hp Hne Hlen)
      as (Hy & Hlo & Hhi).
    set (y := fl _) in *. clearbody y.
    set (m := Qmean (profits (opportunities s))) in *. clearbody m.
    apply Qabs_Qle_condition in Hy. unfold unit_roundoff in Hy.
    destruct (Nat.ltb_spec 0 (List.length (opportunities s))) as [ _ | H0 ];
      [ | destruct (opportunities s); [ congruence | cbn in H0; lia ] ].
    destruct (toFixed_nearest 6 y) as (n & -> & _ & Hnlo & Hnhi).
    + lra.
    + change (inject_Z (10 ^ 21)) with 1000000000000000000000%Q. lra.
    + exists n. split; [ reflexivity | ].
      change (inject_Z (Num.pow10 6)) with 1000000%Q in Hnlo, Hnhi.
      assert (Hl' : (inject_Z 999 < inject_Z n)%Q).
      { change (inject_Z 999) with 999%Q. lra. }
      assert (Hu' : (inject_Z n < inject_Z 11001)%Q).
      { change (inject_Z 11001) with 11001%Q. lra. }
      rewrite <- Zlt_Qlt in Hl', Hu'.
      split; [ lia | ]. split; lra.
Qed.

(** Where the rounding shows: with the estimates 0.001000 and 0.001005 the
    mean is 0.0010025, a tie.  Exact arithmetic writes 0.001003; rounding
    every operation to the nearest binary64 number, as the program does,
    gives a quotient just below the tie, written 0.001002.  Both are within
    the bound of the theorem. *)
Example flashloans_average_at_a_tie :
  map Opportunity.profitETH
    (opportunities
       (run_scans env_ready [scan_ok 1; scan_drawing 0.0005] (initial 0)))
  = [Num.Fixed 1000 6; Num.Fixed 1005 6]
  /\ avgProfitETH
       (flashloans_with nearest_binary64
          (run_scans env_ready [scan_ok 1; scan_drawing 0.0005] (initial 0)))
     = Num.Fixed 1002 6
  /\ avgProfitETH
       (flashloans
          (run_scans env_ready [scan_ok 1; scan_drawing 0.0005] (initial 0)))
     = Num.Fixed 1003 6.
Proof.
  split; [ vm_compute; reflexivity | ].
  split; vm_compute; reflexivity.
Qed.

(** The statement on exact arithmetic, after two scans. *)
Lemma flashloans_best_and_average_witness :
  Forall (fun i => unit_interval (scan_random i)) [scan_ok 1; scan_ok 2]
  /\ binary64_rounding (fun x => x)
  /\ best (flashloans_with (fun x => x)
             (run_scans env_ready [scan_ok 1; scan_ok 2] (initial 0)))
     = hd_error
         (opportunities
            (run_scans env_ready [scan_ok 1; scan_ok 2] (initial 0))).
Proof.
  assert (H : Forall (fun i => unit_interval (scan_random i))
                [scan_ok 1; scan_ok 2]).
  { repeat constructor; simpl; lra. }
  split; [ exact H | ]. split; [ exact exact_is_rounding | ].
  exact (proj1 (flashloans_best_and_average env_ready [scan_ok 1; scan_ok 2] 0
                  (fun x => x) H exact_is_rounding)).
Defined.

(** ** [POST /api/withdraw-all] *)

(** A binary64 value that is not [<= 0] and denotes a rational is positive. *)
Lemma positive_amount (x : float) (q : Q) :
  (x <=? 0)%float = false -> B64.to_Q x = Some q -> (0 < q)%Q.
Proof.
  rewrite leb_spec. unfold B64.to_Q.
  change (Prim2SF 0) with (S754_zero false).
  destruct (Prim2SF x) as [ s | s | | s m e ]; cbn -[Z.mul Z.pow];
    try discriminate.
  destruct s; [ discriminate | ]. intros _ H. injection H as <-.
  destruct e as [ | e | e ].
  - unfold Qlt. cbn. lia.
  - assert (H : 0 < Z.pos m * 2 ^ Z.pos e).
    { apply Z.mul_pos_pos; [ lia | apply Z.pow_pos_nonneg; lia ]. }
    change (0 * 1 < Z.pos m * 2 ^ Z.pos e * 1). lia.
  - unfold Qlt. cbn. lia.
Qed.

(** When [parseEther] accepts what [toFixed(18)] wrote, the amount of wei is
    the nearest one to the binary64 amount. *)
Lemma parseEther_toFixed_nearest (x : float) (wei : Z) :
  (x <=? 0)%float = false ->
  parseEther (B64.toFixed 18 x) = Returned wei ->
  exists q,
    B64.to_Q x = Some q
    /\ (inject_Z wei - (1 # 2) <= q * inject_Z (10 ^ 18))%Q
    /\ (q * inject_Z (10 ^ 18) < inject_Z wei + (1 # 2))%Q.
Proof.
  intros Hpos. unfold B64.toFixed.
  destruct (B64.to_Q x) as [ q | ] eqn:Hq; cbn [option_map];
    [ | cbn [parseEther]; discriminate ].
  pose proof (positive_amount x q Hpos Hq) as Hq0.
  assert (Hcase : (q < inject_Z (10 ^ 21))%Q
                  \/ Num.toFixed 18 q = Num.Exponent q).
  { unfold Num.toFixed.
    destruct (Qle_bool (inject_Z (10 ^ 21)) (Qabs q)) eqn:Hb;
      [ right; reflexivity | left ].
    apply Qnot_le_lt. intros Hle.
    rewrite <- (Qabs_pos q) in Hle by (apply Qlt_le_weak; exact Hq0).
    apply Qle_bool_iff in Hle. congruence. }
  destruct Hcase as [ Hlt | -> ]; [ | cbn [parseEther]; discriminate ].
  destruct (toFixed_nearest 18 q) as (n & -> & _ & Hlo & Hhi);
    [ apply Qlt_le_weak; exact Hq0 | exact Hlt | ].
  cbn [parseEther Nat.leb Nat.sub]. change (Num.pow10 0) with 1.
  rewrite Z.mul_1_r. intros H. injection H as <-.
  exists q. split; [ reflexivity | ]. split; assumption.
Qed.

(** C2, as stated, fails on "exactly": with a balance of one ether the
    transfer is 989999999999999991 wei, nine wei short of 0.99 ether, while
    the amount reported is 0.990000. *)
Lemma withdrawAll_one_ether_not_exact :
  withdrawAll env_ready (withdraw_of (10 ^ 18))
  = (Withdrawn (Some "0xHASH"%string) (Some (Num.Fixed 990000 6))
       BACKEND_WALLET,
     [ {| to := BACKEND_WALLET; value := 989999999999999991;
          gasLimit := 21000 |} ])
  /\ 989999999999999991 <> 10 ^ 18 - 10 ^ 16.
Proof.
  split; [ vm_compute; reflexivity | vm_compute; discriminate ].
Qed.

(** C2 (amended). With wallet and provider set and a balance read, the
    handler computes the withdrawable amount in binary64 as the balance in
    ether minus 0.01.  If that amount is [<= 0] (balance 0.005) it answers 400
    "Insufficient balance to withdraw" and passes no transaction to the
    wallet.  Otherwise, when the amount renders as a decimal, it passes
    exactly one transfer to the profit destination, for the wei nearest to
    that binary64 amount (balance 1.0: 0.989999999999999991 ether), and once
    the transfer is confirmed it answers with the receipt's transaction id,
    the amount to six decimals (0.990000) and the destination. *)
Theorem withdrawAll_amount (env : Env) (i : WithdrawIn) (balance : Z) :
  ready env = true ->
  wd_balance i = Resolved balance ->
  let amount := withdrawAmount balance in
  ((amount <=? 0)%float = true ->
   withdrawAll env i = (Failed 400 "Insufficient balance to withdraw", []))
  /\ ((amount <=? 0)%float = false ->
      forall wei,
        parseEther (B64.toFixed 18 amount) = Returned wei ->
        snd (withdrawAll env i)
        = [ {| to := PROFIT_WALLET env; value := wei; gasLimit := 21000 |} ]
        /\ (exists q,
              B64.to_Q amount = Some q
              /\ (inject_Z wei - (1 # 2) <= q * inject_Z (10 ^ 18))%Q
              /\ (q * inject_Z (10 ^ 18) < inject_Z wei + (1 # 2))%Q)
        /\ forall hash receipt,
             wd_send i = Resolved hash ->
             wd_wait i = Resolved (Some receipt) ->
             fst (withdrawAll env i)
             = Withdrawn (Some receipt) (B64.toFixed 6 amount)
                 (PROFIT_WALLET env))
  /\ (withdrawAmount (5 * 10 ^ 15) <=? 0)%float = true
  /\ parseEther (B64.toFixed 18 (withdrawAmount (10 ^ 18)))
     = Returned 989999999999999991
  /\ B64.toFixed 6 (withdrawAmount (10 ^ 18)) = Some (Num.Fixed 990000 6).
Proof.
  intros Hr Hb amount. unfold ready in Hr.
  destruct (wallet env) as [ addr | ] eqn:Hw; [ | discriminate ].
  unfold withdrawAll. rewrite Hw, Hr, Hb. fold amount.
  split; [ | split ].
  - intros ->. reflexivity.
  - intros Hpos wei Hwei. rewrite Hpos, Hwei.
    split; [ | split ].
    + destruct (wd_send i); [ destruct (wd_wait i) | ]; reflexivity.
    + now apply parseEther_toFixed_nearest.
    + intros hash receipt -> ->. reflexivity.
  - repeat split; vm_compute; reflexivity.
Qed.

Lemma withdrawAll_amount_witness :
  ready env_ready = true
  /\ wd_balance (withdraw_of (10 ^ 18)) = Resolved (10 ^ 18)
  /\ (withdrawAmount (10 ^ 18) <=? 0)%float = false
  /\ snd (withdrawAll env_ready (withdraw_of (10 ^ 18)))
     = [ {| to := PROFIT_WALLET env_ready; value := 989999999999999991;
            gasLimit := 21000 |} ].
Proof.
  assert (Hr : ready env_ready = true) by reflexivity.
  assert (Hb : wd_balance (withdraw_of (10 ^ 18)) = Resolved (10 ^ 18))
    by reflexivity.
  assert (Hp : (withdrawAmount (10 ^ 18) <=? 0)%float = false)
    by (vm_compute; reflexivity).
  assert (Hw : parseEther (B64.toFixed 18 (withdrawAmount (10 ^ 18)))
               = Returned 989999999999999991)
    by (vm_compute; reflexivity).
  repeat (split; [ assumption | ]).
  exact (proj1 (proj1 (proj2 (withdrawAll_amount env_ready
                                 (withdraw_of (10 ^ 18)) (10 ^ 18) Hr Hb))
                         Hp 989999999999999991 Hw)).
Defined.

(** ** The controller *)

(** Neither a scan nor an execution writes the two flags. *)
Lemma scanOpportunities_flags (env : Env) (i : ScanIn) (s : State) :
  let s' := snd (scanOpportunities env i s) in
  engineRunning s' = engineRunning s /\ uhfRunning s' = uhfRunning s.
Proof.
  scan_cases env i s E b g;
    cbv zeta; rewrite E; split; reflexivity.
Qed.

Lemma executeStrategy_flags (env : Env) (k : nat) (i : ExecIn) (s : State) :
  let s' := snd (executeStrategy env k i s) in
  engineRunning s' = engineRunning s /\ uhfRunning s' = uhfRunning s.
Proof.
  unfold executeStrategy, exec_try.
  destruct (wallet env); [ destruct (provider env) | ]; try (split; reflexivity).
  destruct (exec_balance i) as [ balance | e ]; [ | split; reflexivity ].
  destruct (balance <? 10 ^ 15); [ split; reflexivity | ].
  cbn [strategies set_stats].
  destruct (nth_error (strategies s) k); split; reflexivity.
Qed.

Lemma iteration_flags (env : Env) (i : IterIn) (s : State) :
  let s' := snd (iteration env i s) in
  engineRunning s' = engineRunning s /\ uhfRunning s' = uhfRunning s.
Proof.
  unfold iteration.
  pose proof (scanOpportunities_flags env (iter_scan i) s) as Hs.
  destruct (scanOpportunities env (iter_scan i) s) as [ [ [ | | opp ] | e ] s1 ];
    cbn [snd] in Hs |- *; try exact Hs.
  destruct (0 <? List.length (strategies s1))%nat; [ | exact Hs ].
  match goal with
  | |- context [ executeStrategy env ?k ?x s1 ] =>
      pose proof (executeStrategy_flags env k x s1) as He;
      destruct (executeStrategy env k x s1) as [ [ r | e ] s2 ]
  end; cbn [snd] in He |- *; destruct Hs, He; split; congruence.
Qed.

(** A round ends with the cadence of the state it leaves, or with the
    back-off. *)
Lemma iteration_delay (env : Env) (i : IterIn) (s : State) :
  fst (iteration env i s) = cadence (snd (iteration env i s))
  \/ fst (iteration env i s) = backoff.
Proof.
  unfold iteration.
  destruct (scanOpportunities env (iter_scan i) s) as [ [ [ | | opp ] | e ] s1 ];
    cbn [fst snd]; auto.
  destruct (0 <? List.length (strategies s1))%nat; cbn [fst snd]; auto.
  match goal with
  | |- context [ executeStrategy env ?k ?x s1 ] =>
      destruct (executeStrategy env k x s1) as [ [ r | e ] s2 ]
  end; cbn [fst snd]; auto.
Qed.

Lemma nth_error_update {A : Type} (f : A -> A) (l : list A) :
  forall n m,
    nth_error (update n f l) m
    = if (n =? m)%nat then option_map f (nth_error l m) else nth_error l m.
Proof.
  induction l as [ | x r IH ]; intros [ | n ] [ | m ]; cbn; try reflexivity.
  - now destruct (n =? m)%nat.
  - apply IH.
Qed.

(** Writing a new position into the slot of a live instance cannot raise the
    number of live instances. *)
Lemma active_update (y : Loop) (l : list Loop) :
  forall n x,
    nth_error l n = Some x -> live x = true ->
    (List.length (filter live (update n (fun _ => y) l))
     <= List.length (filter live l))%nat.
Proof.
  induction l as [ | z r IH ]; intros [ | n ] x Hx Hlive; cbn in Hx |- *;
    try discriminate.
  - injection Hx as ->. rewrite Hlive. destruct (live y); cbn; lia.
  - specialize (IH n x Hx Hlive). destruct (live z); cbn; lia.
Qed.

Lemma update_same {A : Type} (l : list A) :
  forall n x, nth_error l n = Some x -> update n (fun _ => x) l = l.
Proof.
  induction l as [ | y r IH ]; intros [ | n ] x H; cbn in H |- *;
    try discriminate.
  - now injection H as ->.
  - now rewrite (IH n x H).
Qed.

(** Resuming an instance that is gone changes nothing. *)
Lemma resume_exited (env : Env) (n : nat) (i : IterIn) (w : World) :
  nth_error (loops w) n = Some Exited -> resume env n i w = w.
Proof.
  intros H. unfold resume. rewrite H. cbn [tradingLoop].
  rewrite (update_same _ _ _ H). now destruct w.
Qed.

Lemma resume_active (env : Env) (n : nat) (i : IterIn) (w : World) :
  (active (resume env n i w) <= active w)%nat.
Proof.
  destruct (nth_error (loops w) n) as [ [ | ms | ] | ] eqn:Hn.
  - unfold resume, active. rewrite Hn. cbn [tradingLoop].
    destruct (iteration env i (state w)) as [ ms s' ]. cbn [loops].
    now apply (active_update _ _ n InFlight).
  - unfold resume, active. rewrite Hn. cbn [tradingLoop loops].
    now apply (active_update _ _ n (Sleeping ms)).
  - rewrite (resume_exited env n i w Hn). lia.
  - unfold resume. rewrite Hn. lia.
Qed.

Lemma resume_flags (env : Env) (n : nat) (i : IterIn) (w : World) :
  engineRunning (state (resume env n i w)) = engineRunning (state w)
  /\ uhfRunning (state (resume env n i w)) = uhfRunning (state w).
Proof.
  unfold resume.
  destruct (nth_error (loops w) n) as [ [ | ms | ] | ]; cbn [tradingLoop];
    try (split; reflexivity).
  pose proof (iteration_flags env i (state w)) as H.
  destruct (iteration env i (state w)) as [ ms s' ]. exact H.
Qed.

(** A launch with a flag set adds one live instance. *)
Lemma launch_active (env : Env) (s : State) (l : list Loop) :
  engineRunning s = true ->
  List.length (filter live (launch env s l))
  = S (List.length (filter live l)).
Proof.
  intros He. unfold launch, loop_top, enter. rewrite He. cbn [orb].
  rewrite filter_app, length_app.
  destruct (provider env); cbn; lia.
Qed.

Lemma step_flags_invariant (env : Env) (w : World) (e : Event) :
  (uhfRunning (state w) = true -> engineRunning (state w) = true) ->
  uhfRunning (state (step env w e)) = true ->
  engineRunning (state (step env w e)) = true.
Proof.
  intros H. destruct e as [ [ | | ] | n i ]; cbn [step handle].
  - destruct (engineRunning (state w)) eqn:He; cbn; auto.
  - cbn. discriminate.
  - destruct (uhfRunning (state w)) eqn:Hu; cbn; auto.
  - destruct (resume_flags env n i w) as (-> & ->). exact H.
Qed.

Lemma run_flags_invariant (env : Env) (es : list Event) :
  forall w,
    (uhfRunning (state w) = true -> engineRunning (state w) = true) ->
    uhfRunning (state (run env es w)) = true ->
    engineRunning (state (run env es w)) = true.
Proof.
  induction es as [ | e r IH ]; intros w H; [ exact H | ].
  apply (IH (step env w e)). now apply step_flags_invariant.
Qed.

(** An accepted start adds one live instance; nothing else adds any. *)
Lemma step_active (env : Env) (w : World) (e : Event) :
  (accepts w e = true -> active (step env w e) = S (active w))
  /\ (accepts w e = false -> (active (step env w e) <= active w)%nat).
Proof.
  destruct e as [ [ | | ] | n i ]; cbn [step handle accepts].
  - destruct (engineRunning (state w)) eqn:He; cbn [negb snd].
    + split; [ discriminate | intros _; lia ].
    + split; [ intros _ | discriminate ].
      unfold active. cbn [loops state]. now apply launch_active.
  - split; [ discriminate | intros _; unfold active; cbn; lia ].
  - destruct (uhfRunning (state w)) eqn:Hu; cbn [negb snd].
    + split; [ discriminate | intros _; lia ].
    + split; [ intros _ | discriminate ].
      unfold active. cbn [loops state]. now apply launch_active.
  - split; [ discriminate | intros _; apply resume_active ].
Qed.

Lemma run_active_quiet (env : Env) (es : list Event) :
  forall w,
    (active w <= 1)%nat -> quiet_starts env es w ->
    (active (run env es w) <= 1)%nat.
Proof.
  induction es as [ | e r IH ]; intros w Hw Hq; [ exact Hw | ].
  destruct Hq as (Hstart & Hq). apply (IH (step env w e)); [ | exact Hq ].
  destruct (step_active env w e) as (Hacc & Hrej).
  destruct (accepts w e).
  - rewrite Hacc, Hstart by reflexivity. lia.
  - specialize (Hrej eq_refl). lia.
Qed.

(** C1, as stated, fails: start, stop, start, with the second start arriving
    before the first loop has looked at the flags again, leaves two instances
    of the loop active, and both are still there after each has gone through
    a round and woken up again. *)
Lemma two_loops_after_restart :
  let w := run env_ready [Request Start; Request Stop; Request Start]
             (boot (initial 0)) in
  active w = 2%nat
  /\ ~ (active w <= 1)%nat
  /\ active (run env_ready
               [Resume 0 (iter_ok 1); Resume 1 (iter_ok 2);
                Resume 0 (iter_ok 3); Resume 1 (iter_ok 4)] w) = 2%nat.
Proof.
  intros w.
  assert (H2 : active w = 2%nat) by (vm_compute; reflexivity).
  split; [ exact H2 | ]. split; [ rewrite H2; lia | ].
  vm_compute; reflexivity.
Qed.

(** C1 (amended). In every state [w] reached from the stopped process by
    commands and loop resumptions: a start while [engineRunning] is set, and
    a high-frequency start while [uhfRunning] is set, is rejected with its
    "already running" error and leaves flags and loop instances as they were;
    [uhfRunning] implies [engineRunning]; an accepted start sets
    [engineRunning], an accepted high-frequency start sets both flags, and
    either one, arriving when no instance is live, leaves exactly one live;
    and at most one instance is active provided no start was accepted while
    an earlier instance was still live. *)
Theorem start_guards (env : Env) (es : list Event) (now : Z) :
  let w := run env es (boot (initial now)) in
  (engineRunning (state w) = true ->
   handle env Start w = (Status400 "Engine already running", w))
  /\ (uhfRunning (state w) = true ->
      handle env StartUhf w = (Status400 "UHF engine already running", w))
  /\ (uhfRunning (state w) = true -> engineRunning (state w) = true)
  /\ (engineRunning (state w) = false ->
      let w' := snd (handle env Start w) in
      engineRunning (state w') = true
      /\ uhfRunning (state w') = uhfRunning (state w)
      /\ (active w = 0%nat -> active w' = 1%nat))
  /\ (uhfRunning (state w) = false ->
      let w' := snd (handle env StartUhf w) in
      engineRunning (state w') = true
      /\ uhfRunning (state w') = true
      /\ (active w = 0%nat -> active w' = 1%nat))
  /\ (quiet_starts env es (boot (initial now)) -> (active w <= 1)%nat).
Proof.
  intros w. split; [ | split; [ | split; [ | split; [ | split ] ] ] ].
  - intros H. cbn [handle]. now rewrite H.
  - intros H. cbn [handle]. now rewrite H.
  - subst w. apply run_flags_invariant. cbn. discriminate.
  - intros H. destruct (step_active env w (Request Start)) as (Hacc & _).
    cbn [step accepts] in Hacc. rewrite H in Hacc.
    specialize (Hacc eq_refl). cbv zeta. cbn [handle] in Hacc |- *.
    rewrite H in Hacc |- *. cbn [snd state] in Hacc |- *.
    split; [ reflexivity | ]. split; [ reflexivity | ].
    intros H0. rewrite Hacc, H0. reflexivity.
  - intros H. destruct (step_active env w (Request StartUhf)) as (Hacc & _).
    cbn [step accepts] in Hacc. rewrite H in Hacc.
    specialize (Hacc eq_refl). cbv zeta. cbn [handle] in Hacc |- *.
    rewrite H in Hacc |- *. cbn [snd state] in Hacc |- *.
    split; [ reflexivity | ]. split; [ reflexivity | ].
    intros H0. rewrite Hacc, H0. reflexivity.
  - intros Hq. subst w. apply run_active_quiet; [ cbn; lia | exact Hq ].
Qed.

(** The statement along a sequence with quiet starts: start, the end of the
    first round, stop, the wake-up at which the loop returns, a
    high-frequency start, and a second one, which is rejected. *)
Lemma start_guards_witness :
  let es := [ Request Start; Resume 0 (iter_ok 1); Request Stop;
              Resume 0 (iter_ok 2); Request StartUhf; Request StartUhf ] in
  quiet_starts env_ready es (boot (initial 0))
  /\ (active (run env_ready es (boot (initial 0))) <= 1)%nat.
Proof.
  intros es.
  assert (Hq : quiet_starts env_ready es (boot (initial 0))).
  { cbn [es quiet_starts]. repeat split; vm_compute; congruence. }
  split; [ exact Hq | ].
  exact (proj2 (proj2 (proj2 (proj2 (proj2
           (start_guards env_ready es 0))))) Hq).
Defined.

(** ** Stopping *)




Lemma run_cons (env : Env) (e : Event) (r : list Event) (w : World) :
  run env (e :: r) w = run env r (step env w e).
Proof. reflexivity. Qed.








(** ** Invariants of the running engine *)

(** The index the loop draws is an index of the registry. *)
Lemma pick_in_range (r : Q) (n : nat) :
  unit_interval r -> (0 < n)%nat ->
  (Z.to_nat (Num.floor (r * inject_Z (Z.of_nat n))) < n)%nat.
Proof.
  intros (H0 & H1) Hn. unfold Num.floor.
  assert (Hq : (0 < inject_Z (Z.of_nat n))%Q).
  { change 0%Q with (inject_Z 0). rewrite <- Zlt_Qlt. lia. }
  set (q := inject_Z (Z.of_nat n)) in *.
  assert (Hlo : 0 <= Qfloor (r * q)).
  { change 0 with (Qfloor 0). apply Qfloor_resp_le.
    apply Qmult_le_0_compat; [ exact H0 | apply Qlt_le_weak; exact Hq ]. }
  assert (Hhi : Qfloor (r * q) < Z.of_nat n).
  { rewrite Zlt_Qlt. fold q.
    apply Qle_lt_trans with (r * q)%Q; [ apply Qfloor_le | ].
    rewrite <- (Qmult_1_l q) at 2. apply Qmult_lt_compat_r; assumption. }
  lia.
Qed.

(** The four ways a call ends. *)
Lemma executeStrategy_cases (env : Env) (k : nat) (i : ExecIn) (s : State) :
  (ready env = false
   /\ executeStrategy env k i s = (Threw "Wallet not initialized", s))
  \/ (ready env = true /\ ~ funded i
      /\ exists e, executeStrategy env k i s = (Threw e, failed_state s))
  \/ (ready env = true /\ funded i /\ (k < List.length (strategies s))%nat
      /\ exists r, executeStrategy env k i s = (Returned r, success_state k i s))
  \/ (ready env = true /\ funded i /\ (List.length (strategies s) <= k)%nat
      /\ exists e s', executeStrategy env k i s = (Threw e, s')).
Proof.
  destruct (ready env) eqn:Hr;
    [ right | left; split; [ reflexivity | now apply executeStrategy_guarded ] ].
  rewrite (executeStrategy_ready env k i s Hr). unfold exec_try, funded.
  destruct (exec_balance i) as [ balance | e ] eqn:Hb.
  - destruct (Z.ltb_spec balance (10 ^ 15)) as [ Hlt | Hge ].
    + left. split; [ reflexivity | ]. split; [ | eexists; reflexivity ].
      intros (b & Hb' & Hle). injection Hb' as <-. lia.
    + right. cbn [strategies set_stats].
      destruct (nth_error (strategies s) k) eqn:Hnth.
      * left. split; [ reflexivity | ]. split; [ eauto | ].
        split; [ apply nth_error_Some; congruence | ].
        eexists. reflexivity.
      * right. split; [ reflexivity | ]. split; [ eauto | ].
        split; [ now apply nth_error_None | ]. eexists. eexists. reflexivity.
  - left. split; [ reflexivity | ]. split; [ | eexists; reflexivity ].
    intros (b & Hb' & _). discriminate.
Qed.

Section Invariants.

Variable env : Env.
Variable P : State -> Prop.
Variable G : IterIn -> Prop.

Hypothesis P_flags : forall e u s, P s -> P (set_flags e u s).

Section Rounds.

Hypothesis P_scan :
  forall i s, unit_interval (scan_random i) -> P s ->
              P (snd (scanOpportunities env i s)).
Hypothesis P_exec :
  forall k i s,
    (k < List.length (strategies s))%nat -> good_exec i -> P s ->
    P (snd (executeStrategy env k i s)).

Lemma iteration_preserves (i : IterIn) (s : State) :
  good_iter i -> P s -> P (snd (iteration env i s)).
Proof.
  intros (Hscan & Hpick & Hexec) Hs. unfold iteration.
  pose proof (P_scan (iter_scan i) s Hscan Hs) as H1.
  destruct (scanOpportunities env (iter_scan i) s) as [ [ [ | | opp ] | e ] s1 ];
    cbn [snd] in H1 |- *; try exact H1.
  destruct (Nat.ltb_spec 0 (List.length (strategies s1))) as [ Hlen | _ ];
    [ | exact H1 ].
  pose proof (pick_in_range (iter_random i) _ Hpick Hlen) as Hk.
  pose proof (P_exec _ (iter_exec i) s1 Hk Hexec H1) as H2.
  match goal with
  | |- context [ executeStrategy env ?k ?x s1 ] =>
      destruct (executeStrategy env k x s1) as [ [ r | e ] s2 ]
  end; exact H2.
Qed.

End Rounds.

Hypothesis P_iteration :
  forall i s, G i -> P s -> P (snd (iteration env i s)).

Lemma step_preserves (w : World) (e : Event) :
  event_sat G e -> P (state w) -> P (state (step env w e)).
Proof.
  intros He Hw. destruct e as [ [ | | ] | n i ]; cbn [step handle].
  - destruct (engineRunning (state w)); cbn [snd state]; auto.
  - cbn [snd state]. auto.
  - destruct (uhfRunning (state w)); cbn [snd state]; auto.
  - unfold resume.
    destruct (nth_error (loops w) n) as [ [ | ms | ] | ]; cbn [tradingLoop];
      try exact Hw.
    pose proof (P_iteration i (state w) He Hw) as H.
    destruct (iteration env i (state w)) as [ ms s' ]. exact H.
Qed.

Lemma run_preserves (es : list Event) :
  Forall (event_sat G) es ->
  forall w, P (state w) -> P (state (run env es w)).
Proof.
  induction 1 as [ | e r He _ IH ]; intros w Hw; [ exact Hw | ].
  rewrite run_cons. apply IH. now apply step_preserves.
Qed.

End Invariants.

(** ** The books *)

Lemma sum_trades_update (p : Q) (l : list Strategy.t) :
  forall k,
    (k < List.length l)%nat ->
    sum_trades (update k (credit p) l) = sum_trades l + 1.
Proof.
  induction l as [ | x r IH ]; intros [ | k ] Hk;
    cbn [List.length] in Hk; try lia;
    cbn [update sum_trades fold_right credit Strategy.totalTrades].
  - fold (sum_trades r). lia.
  - fold (sum_trades (update k (credit p) r)). fold (sum_trades r).
    rewrite IH by lia. lia.
Qed.

Lemma sum_profit_update (p : Q) (l : list Strategy.t) :
  forall k,
    (k < List.length l)%nat ->
    (sum_profit (update k (credit p) l) == sum_profit l + p * 3450)%Q.
Proof.
  induction l as [ | x r IH ]; intros [ | k ] Hk;
    cbn [List.length] in Hk; try lia;
    cbn [update sum_profit fold_right credit Strategy.totalProfitUSD].
  - fold (sum_profit r). ring.
  - fold (sum_profit (update k (credit p) r)). fold (sum_profit r).
    rewrite IH by lia. ring.
Qed.

Lemma static_update (p : Q) (l : list Strategy.t) :
  forall k, map static (update k (credit p) l) = map static l.
Proof.
  induction l as [ | x r IH ]; intros [ | k ]; cbn [update map];
    try reflexivity.
  now rewrite IH.
Qed.

Lemma profit_covers_gas (i : ExecIn) :
  good_exec i ->
  (0 <= gasCost_of i /\ gasCost_of i <= profit_of i)%Q.
Proof.
  intros ((Hp0 & Hp1) & (Hg0 & Hg1)). unfold gasCost_of, profit_of.
  split; lra.
Qed.

Lemma balanced_flags (e u : bool) (s : State) :
  balanced s -> balanced (set_flags e u s).
Proof. intros H. exact H. Qed.

Lemma balanced_scan (env : Env) (i : ScanIn) (s : State) :
  balanced s -> balanced (snd (scanOpportunities env i s)).
Proof. intros H. scan_cases env i s E b g; rewrite E; exact H. Qed.

Lemma balanced_failed (s : State) : balanced s -> balanced (failed_state s).
Proof.
  unfold balanced, failed_state. cbn.
  intros (Ht & Hs & Hf & Hrest). repeat split; try tauto; lia.
Qed.

Lemma balanced_success (k : nat) (i : ExecIn) (s : State) :
  (k < List.length (strategies s))%nat -> good_exec i ->
  balanced s -> balanced (success_state k i s).
Proof.
  intros Hk Hi (Ht & Hs & Hf & Htot & Hsum & Husd & Hsp & Hg0 & Hgp).
  destruct (profit_covers_gas i Hi) as (Hc0 & Hcp).
  unfold balanced, success_state.
  cbn [stats strategies totalTrades totalProfitUSD set_stats set_strategies
       set_totals incr_trades record_success fold_latency Stats.trades
       Stats.successfulTrades Stats.failedTrades Stats.totalProfitETH
       Stats.totalGasCostETH].
  set (p := profit_of i) in *. set (g := gasCost_of i) in *.
  repeat split; try lia.
  - rewrite sum_trades_update by exact Hk. lia.
  - rewrite Husd. ring.
  - rewrite sum_profit_update by exact Hk. rewrite Hsp. ring.
  - clearbody p g. lra.
  - clearbody p g. lra.
Qed.

Lemma balanced_exec (env : Env) (k : nat) (i : ExecIn) (s : State) :
  (k < List.length (strategies s))%nat -> good_exec i ->
  balanced s -> balanced (snd (executeStrategy env k i s)).
Proof.
  intros Hk Hi Hs.
  destruct (executeStrategy_cases env k i s)
    as [ (_ & E) | [ (_ & _ & e & E) | [ (_ & _ & _ & r & E)
                                        | (_ & _ & Hle & _) ] ] ];
    [ rewrite E; exact Hs
    | rewrite E; now apply balanced_failed
    | rewrite E; now apply balanced_success
    | lia ].
Qed.

Lemma generated_nothing_credited (rand : nat -> Q) (l : list nat) :
  sum_trades (map (newStrategy rand) l) = 0
  /\ (sum_profit (map (newStrategy rand) l) == 0)%Q.
Proof.
  induction l as [ | i r (IHt & IHp) ]; cbn [map sum_trades sum_profit fold_right].
  - split; reflexivity.
  - fold (sum_trades (map (newStrategy rand) r)).
    fold (sum_profit (map (newStrategy rand) r)).
    cbn [newStrategy Strategy.totalTrades Strategy.totalProfitUSD].
    split; [ lia | rewrite IHp; ring ].
Qed.

Lemma balanced_generated (rand : nat -> Q) (now : Z) :
  balanced (generateStrategies rand (initial now)).
Proof.
  destruct (generated_nothing_credited rand (seq 0 450)) as (Ht & Hp).
  unfold balanced. rewrite generateStrategies_strategies.
  assert (E : forall l s,
             stats (fold_left
                      (fun s i =>
                         set_strategies (strategies s ++ [newStrategy rand i]) s)
                      l s) = stats s
             /\ totalTrades (fold_left
                      (fun s i =>
                         set_strategies (strategies s ++ [newStrategy rand i]) s)
                      l s) = totalTrades s
             /\ totalProfitUSD (fold_left
                      (fun s i =>
                         set_strategies (strategies s ++ [newStrategy rand i]) s)
                      l s) = totalProfitUSD s).
  { induction l as [ | i r IH ]; intros s; [ auto | ].
    cbn [fold_left]. destruct (IH (set_strategies
                                     (strategies s ++ [newStrategy rand i]) s))
      as (-> & -> & ->). auto. }
  unfold generateStrategies. destruct (E (seq 0 450) (initial now)) as (-> & -> & ->).
  cbn [initial stats totalTrades totalProfitUSD strategies app Stats.trades
       Stats.successfulTrades Stats.failedTrades Stats.totalProfitETH
       Stats.totalGasCostETH].
  rewrite Ht, Hp. repeat split; try lia; try reflexivity; lra.
Qed.

(** Whatever happens to a process started by [main], the books balance. *)
Lemma run_balanced (env : Env) (rand : nat -> Q) (now : Z) (es : list Event) :
  Forall good_event es ->
  balanced (state (run env es (boot (generateStrategies rand (initial now))))).
Proof.
  intros Hes. apply (run_preserves env balanced good_iter); [ | | exact Hes | ].
  - exact balanced_flags.
  - apply iteration_preserves.
    + intros i s _. apply balanced_scan.
    + apply balanced_exec.
  - apply balanced_generated.
Qed.

Lemma one_trade_good : Forall good_event one_trade.
Proof.
  repeat constructor; cbn; lra.
Qed.

(** ** The registry and the buffer while the engine runs *)

Lemma executeStrategy_static (env : Env) (k : nat) (i : ExecIn) (s : State) :
  (k < List.length (strategies s))%nat ->
  map static (strategies (snd (executeStrategy env k i s)))
  = map static (strategies s).
Proof.
  intros Hk.
  destruct (executeStrategy_cases env k i s)
    as [ (_ & E) | [ (_ & _ & e & E) | [ (_ & _ & _ & r & E)
                                        | (_ & _ & Hle & _) ] ] ];
    [ rewrite E; reflexivity | rewrite E; reflexivity | rewrite E | lia ].
  cbn [snd success_state strategies set_totals set_strategies set_stats].
  apply static_update.
Qed.

Lemma executeStrategy_opportunities
  (env : Env) (k : nat) (i : ExecIn) (s : State) :
  opportunities (snd (executeStrategy env k i s)) = opportunities s.
Proof.
  unfold executeStrategy, exec_try.
  destruct (wallet env); [ destruct (provider env) | ]; try reflexivity.
  destruct (exec_balance i) as [ balance | e ]; [ | reflexivity ].
  destruct (balance <? 10 ^ 15); [ reflexivity | ].
  cbn [strategies set_stats].
  destruct (nth_error (strategies s) k); reflexivity.
Qed.

Lemma scanOpportunities_strategies (env : Env) (i : ScanIn) (s : State) :
  strategies (snd (scanOpportunities env i s)) = strategies s.
Proof. scan_cases env i s E b g; rewrite E; reflexivity. Qed.

Lemma run_static (env : Env) (es : list Event) (w : World) :
  Forall good_event es ->
  map static (strategies (state (run env es w)))
  = map static (strategies (state w)).
Proof.
  intros Hes.
  apply (run_preserves env
           (fun s => map static (strategies s)
                     = map static (strategies (state w))) good_iter);
    [ | | exact Hes | reflexivity ].
  - intros e u s H. exact H.
  - apply (iteration_preserves env
             (fun s => map static (strategies s)
                       = map static (strategies (state w)))).
    + intros i s _ H. now rewrite scanOpportunities_strategies.
    + intros k i s Hk _ H. now rewrite executeStrategy_static.
Qed.

Lemma filter_enabled_static (l : list Strategy.t) :
  forall l',
    map static l = map static l' ->
    List.length (filter Strategy.enabled l)
    = List.length (filter Strategy.enabled l').
Proof.
  induction l as [ | x r IH ]; intros [ | y r' ] H; cbn [map] in H;
    try discriminate; [ reflexivity | ].
  injection H as _ _ _ _ He _ _ _ Hr.
  cbn [filter]. rewrite He.
  destruct (Strategy.enabled y); cbn [List.length]; now rewrite (IH r' Hr).
Qed.

Lemma generated_enabled (rand : nat -> Q) (l : list nat) :
  filter Strategy.enabled (map (newStrategy rand) l)
  = map (newStrategy rand) l.
Proof.
  induction l as [ | i r IH ]; [ reflexivity | ].
  cbn [map filter newStrategy Strategy.enabled]. now rewrite IH.
Qed.

(** X4. While the engine runs, nothing but the trade count and the profit of
    a strategy is ever written: identity, name, category, risk tier, enabled
    flag, priority, success rate and yield of every record stay as
    generated.  So [/api/status] always reports 450 strategies, all of them
    active. *)
Theorem registry_is_static
  (env : Env) (rand : nat -> Q) (now : Z) (es : list Event) (i : StatusIn) :
  Forall good_event es ->
  let s := state (run env es (started rand now)) in
  map static (strategies s) = map (fun k => static (newStrategy rand k)) (seq 0 450)
  /\ forall body,
       status env i s = StatusJson body ->
       Status.totalStrategies body = 450%nat
       /\ Status.activeStrategies body = 450%nat.
Proof.
  intros Hes s.
  pose proof (run_static env es (started rand now) Hes) as Hst.
  fold s in Hst.
  assert (Hgen : strategies (state (started rand now))
                 = map (newStrategy rand) (seq 0 450)).
  { cbn [started boot state]. now rewrite generateStrategies_strategies. }
  rewrite Hgen in Hst. split; [ now rewrite Hst, map_map | ].
  intros body Hbody.
  assert (Hb : Status.totalStrategies body = List.length (strategies s)
               /\ Status.activeStrategies body
                  = List.length (filter Strategy.enabled (strategies s))).
  { unfold status in Hbody.
    destruct (provider env);
      [ destruct (status_balance i); [ | discriminate ];
        destruct (status_blockNumber i); [ | discriminate ] | ];
      injection Hbody as <-; split; reflexivity. }
  destruct Hb as (-> & ->).
  rewrite (filter_enabled_static _ _ Hst), generated_enabled.
  rewrite <- (length_map static (strategies s)), Hst.
  now rewrite !length_map, length_seq.
Qed.

Lemma registry_is_static_witness :
  Forall good_event one_trade
  /\ map static
       (strategies
          (state (run env_ready one_trade (started (fun _ => 0%Q) 0))))
     = map (fun k => static (newStrategy (fun _ => 0%Q) k)) (seq 0 450).
Proof.
  split; [ exact one_trade_good | ].
  exact (proj1 (registry_is_static env_ready (fun _ => 0%Q) 0 one_trade
                  {| status_balance := Resolved 0;
                     status_blockNumber := Resolved 0 |}
                  one_trade_good)).
Defined.

Lemma generateStrategies_opportunities (rand : nat -> Q) (s : State) :
  opportunities (generateStrategies rand s) = opportunities s.
Proof.
  unfold generateStrategies. generalize (seq 0 450). intros l. revert s.
  induction l as [ | k r IH ]; intros s; [ reflexivity | ].
  cbn [fold_left]. now rewrite IH.
Qed.

Lemma buffer_ok_scan (env : Env) (i : ScanIn) (s : State) :
  unit_interval (scan_random i) -> buffer_ok s ->
  buffer_ok (snd (scanOpportunities env i s)).
Proof.
  intros Hi (Hlen & Hpl & Hty).
  scan_cases env i s E b g; rewrite E; cbn [snd];
    try (repeat split; assumption).
  cbn [opportunities set_opportunities]. split; [ | split ].
  - now apply push_bounded_length.
  - apply push_bounded_Forall; [ exact Hpl | now apply newOpportunity_plausible ].
  - apply push_bounded_Forall; [ exact Hty | reflexivity ].
Qed.

Lemma run_buffer_ok (env : Env) (es : list Event) (w : World) :
  Forall good_event es -> buffer_ok (state w) ->
  buffer_ok (state (run env es w)).
Proof.
  intros Hes Hw.
  apply (run_preserves env buffer_ok good_iter); [ | | exact Hes | exact Hw ].
  - intros e u s H. exact H.
  - apply iteration_preserves.
    + apply buffer_ok_scan.
    + intros k i s _ _ H. unfold buffer_ok.
      now rewrite executeStrategy_opportunities.
Qed.

(** X5. Whatever commands arrive and however many loops run, the buffer
    never holds more than fifty opportunities, and each of them is of type
    [arbitrage] with a profit estimate of six decimals between 0.001000 and
    0.011000, both ends included; [/api/flashloans] reports their number. *)
Theorem buffer_while_running
  (env : Env) (rand : nat -> Q) (now : Z) (es : list Event) :
  Forall good_event es ->
  let s := state (run env es (started rand now)) in
  (total (flashloans s) <= 50)%nat
  /\ total (flashloans s) = List.length (listed (flashloans s))
  /\ Forall
       (fun o =>
          Opportunity.type o = "arbitrage"%string
          /\ exists n,
               Opportunity.profitETH o = Num.Fixed n 6 /\ 1000 <= n <= 11000)
       (listed (flashloans s)).
Proof.
  intros Hes s.
  destruct (run_buffer_ok env es (started rand now) Hes) as (Hlen & Hpl & Hty).
  { cbn [started boot state]. unfold buffer_ok.
    rewrite generateStrategies_opportunities. cbn [initial opportunities].
    repeat split; [ cbn; lia | constructor | constructor ]. }
  fold s in Hlen, Hpl, Hty. cbn [flashloans total listed].
  split; [ exact Hlen | ]. split; [ reflexivity | ].
  rewrite Forall_forall in *. intros o Ho. split; [ now apply Hty | ].
  now apply Hpl.
Qed.

(** The statement at a scan that reaches the upper end. *)
Lemma buffer_while_running_witness :
  let es := [ Request Start;
              Resume 0 {| iter_scan := scan_high; iter_random := 0;
                          iter_exec := exec_ok 1 10 |} ] in
  Forall good_event es
  /\ map Opportunity.profitETH
       (listed
          (flashloans (state (run env_ready es (started (fun _ => 0%Q) 0)))))
     = [Num.Fixed 11000 6]
  /\ (total
        (flashloans (state (run env_ready es (started (fun _ => 0%Q) 0))))
      <= 50)%nat.
Proof.
  intros es.
  assert (Hes : Forall good_event es).
  { repeat constructor; cbn; lra. }
  split; [ exact Hes | ]. split; [ vm_compute; reflexivity | ].
  exact (proj1 (buffer_while_running env_ready (fun _ => 0%Q) 0 es Hes)).
Defined.

(** ** Degraded modes *)

Lemma event_sat_True (es : list Event) : Forall (event_sat (fun _ => True)) es.
Proof.
  induction es as [ | [ c | n i ] r IH ]; constructor; cbn; auto.
Qed.

Lemma iteration_read_only (env : Env) (i : IterIn) (s : State) :
  wallet env = None ->
  let s' := snd (iteration env i s) in
  stats s' = stats s /\ strategies s' = strategies s
  /\ totalTrades s' = totalTrades s /\ totalProfitUSD s' = totalProfitUSD s.
Proof.
  intros Hw.
  assert (Hr : ready env = false) by (unfold ready; now rewrite Hw).
  unfold iteration.
  scan_cases env (iter_scan i) s E b g; rewrite E; cbn [snd];
    try (repeat split; reflexivity).
  destruct (0 <? List.length
                   (strategies
                      (set_opportunities
                         (push_bounded (newOpportunity (iter_scan i) b g)
                            (opportunities s)) s)))%nat;
    [ | repeat split; reflexivity ].
  rewrite executeStrategy_guarded by exact Hr. repeat split; reflexivity.
Qed.

(** X6. Read-only mode.  When no wallet is set, the engine can be started
    and its loops scan, but no round ever counts a trade or credits a
    strategy: statistics, registry and totals stay exactly as they were.
    A round that finds an opportunity and a strategy ends in the error
    branch and sleeps 10000 ms, whatever the mode. *)
Theorem read_only_never_trades (env : Env) (es : list Event) (w : World) :
  wallet env = None ->
  let s' := state (run env es w) in
  stats s' = stats (state w)
  /\ strategies s' = strategies (state w)
  /\ totalTrades s' = totalTrades (state w)
  /\ totalProfitUSD s' = totalProfitUSD (state w)
  /\ forall i s b g,
       provider env = true ->
       scan_blockNumber (iter_scan i) = Resolved b ->
       scan_feeData (iter_scan i) = Resolved g ->
       strategies s <> [] ->
       fst (iteration env i s) = backoff.
Proof.
  intros Hw s'.
  assert (H : stats s' = stats (state w) /\ strategies s' = strategies (state w)
              /\ totalTrades s' = totalTrades (state w)
              /\ totalProfitUSD s' = totalProfitUSD (state w)).
  { apply (run_preserves env
             (fun s => stats s = stats (state w)
                       /\ strategies s = strategies (state w)
                       /\ totalTrades s = totalTrades (state w)
                       /\ totalProfitUSD s = totalProfitUSD (state w))
             (fun _ => True));
      [ | | apply event_sat_True | repeat split; reflexivity ].
    - intros e u s H. exact H.
    - intros i s _ (H1 & H2 & H3 & H4).
      destruct (iteration_read_only env i s Hw) as (-> & -> & -> & ->).
      repeat split; assumption. }
  destruct H as (H1 & H2 & H3 & H4). repeat (split; [ assumption | ]).
  intros i s b g Hp Hb Hg Hne.
  assert (Hr : ready env = false) by (unfold ready; now rewrite Hw).
  unfold iteration, scanOpportunities, scan_try. rewrite Hp, Hb, Hg.
  cbn [negb strategies set_opportunities].
  destruct (strategies s) as [ | x r ] eqn:Hs; [ congruence | ].
  cbn [List.length Nat.ltb Nat.leb].
  rewrite executeStrategy_guarded by exact Hr. reflexivity.
Qed.

Lemma read_only_never_trades_witness :
  wallet env_read_only = None
  /\ stats (state (run env_read_only one_trade (started (fun _ => 0%Q) 0)))
     = stats (state (started (fun _ => 0%Q) 0))
  /\ loop_at (run env_read_only one_trade (started (fun _ => 0%Q) 0)) 0
     = Sleeping 10000.
Proof.
  split; [ reflexivity | ].
  split; [ | vm_compute; reflexivity ].
  exact (proj1 (read_only_never_trades env_read_only one_trade
                  (started (fun _ => 0%Q) 0) eq_refl)).
Defined.

Lemma data_flags (e u : bool) (s : State) : data (set_flags e u s) = data s.
Proof. reflexivity. Qed.

Lemma iteration_no_provider (env : Env) (i : IterIn) (s : State) :
  provider env = false -> iteration env i s = (cadence s, s).
Proof.
  intros Hp. unfold iteration, scanOpportunities. now rewrite Hp.
Qed.

Lemma Forall_update {A : Type} (Q : A -> Prop) (y : A) (l : list A) :
  forall n, Forall Q l -> Q y -> Forall Q (update n (fun _ => y) l).
Proof.
  induction l as [ | x r IH ]; intros [ | n ] Hl Hy; cbn [update];
    try exact Hl; inversion Hl; subst; constructor; auto.
Qed.

Lemma step_no_provider (env : Env) (w : World) (e : Event) :
  provider env = false ->
  Forall (fun l => l <> InFlight) (loops w) ->
  Forall (fun l => l <> InFlight) (loops (step env w e)).
Proof.
  intros Hp Hw.
  assert (Htop : forall s, loop_top env s <> InFlight).
  { intros s. unfold loop_top, enter. rewrite Hp.
    destruct (engineRunning s || uhfRunning s); discriminate. }
  destruct e as [ [ | | ] | n i ]; cbn [step handle].
  - destruct (engineRunning (state w)); cbn [snd loops]; [ exact Hw | ].
    apply Forall_app. split; [ exact Hw | constructor; [ apply Htop | constructor ] ].
  - exact Hw.
  - destruct (uhfRunning (state w)); cbn [snd loops]; [ exact Hw | ].
    apply Forall_app. split; [ exact Hw | constructor; [ apply Htop | constructor ] ].
  - unfold resume.
    destruct (nth_error (loops w) n) as [ [ | ms | ] | ] eqn:Hn;
      cbn [tradingLoop]; try exact Hw.
    + rewrite iteration_no_provider by exact Hp. cbn [loops].
      apply Forall_update; [ exact Hw | discriminate ].
    + cbn [loops]. apply Forall_update; [ exact Hw | apply Htop ].
    + cbn [loops]. apply Forall_update; [ exact Hw | discriminate ].
Qed.

Lemma run_no_provider (env : Env) (es : list Event) :
  provider env = false ->
  forall w,
    Forall (fun l => l <> InFlight) (loops w) ->
    Forall (fun l => l <> InFlight) (loops (run env es w)).
Proof.
  intros Hp. induction es as [ | e r IH ]; intros w Hw; [ exact Hw | ].
  rewrite run_cons. apply IH. now apply step_no_provider.
Qed.

(** X7. A process without a provider.  The engine can be started and
    stopped, but apart from the two flags nothing ever changes: no round is
    ever in flight, and statistics, registry, buffer and totals stay as
    [main] left them.  [/api/status] still answers, with balance ['0'],
    block 0 and "disconnected"; a scan returns [undefined]; and a withdrawal
    is refused with 503 and no transaction. *)
Theorem without_provider
  (env : Env) (es : list Event) (s0 : State)
  (si : StatusIn) (ci : ScanIn) (wi : WithdrawIn) :
  provider env = false ->
  let w := run env es (boot s0) in
  data (state w) = data s0
  /\ Forall (fun l => l <> InFlight) (loops w)
  /\ status env si (state w)
     = StatusJson (status_body env (state w) (Num.Fixed 0 0) 0)
  /\ Status.providerHealth (status_body env (state w) (Num.Fixed 0 0) 0)
     = "disconnected"%string
  /\ scanOpportunities env ci (state w) = (Returned Undefined, state w)
  /\ withdrawAll env wi = (Failed 503 "Wallet not initialized", []).
Proof.
  intros Hp w. split; [ | split; [ | split; [ | split; [ | split ] ] ] ].
  - apply (run_preserves env (fun s => data s = data s0) (fun _ => True));
      [ | | apply event_sat_True | reflexivity ].
    + intros e u s H. now rewrite data_flags.
    + intros i s _ H. now rewrite iteration_no_provider.
  - apply run_no_provider; [ exact Hp | constructor ].
  - unfold status. now rewrite Hp.
  - cbn [status_body Status.providerHealth]. now rewrite Hp.
  - unfold scanOpportunities. now rewrite Hp.
  - unfold withdrawAll. rewrite Hp. now destruct (wallet env).
Qed.

Lemma without_provider_witness :
  let env := uninitialised None in
  provider env = false
  /\ data (state (run env one_trade (started (fun _ => 0%Q) 0)))
     = data (state (started (fun _ => 0%Q) 0))
  /\ loop_at (run env one_trade (started (fun _ => 0%Q) 0)) 0
     = Sleeping 5000.
Proof.
  intros env. split; [ reflexivity | ].
  split; [ | vm_compute; reflexivity ].
  exact (proj1 (without_provider env one_trade
                  (generateStrategies (fun _ => 0%Q) (initial 0))
                  {| status_balance := Resolved 0;
                     status_blockNumber := Resolved 0 |}
                  scan_rejected (withdraw_of 0) eq_refl)).
Defined.

(** X8. [initBlockchain] from the unset variables.  A wallet is only ever
    set on top of a provider, so the guard [!wallet || !provider] passes
    exactly when the wallet is set.  The provider is left unset only when
    its own constructor throws; an assignment made before a later failure
    stays.  Without a private key, or with the placeholder key, no wallet is
    set, also when the call returns [true]; and when it returns [true] the
    provider is set and the wallet is set exactly if there is a key. *)
Theorem initBlockchain_leaves
  (key : string) (profit_address : option string) (i : InitIn) :
  let ok := fst (initBlockchain key i (uninitialised profit_address)) in
  let env := snd (initBlockchain key i (uninitialised profit_address)) in
  (wallet env <> None -> provider env = true)
  /\ ready env = match wallet env with Some _ => true | None => false end
  /\ (provider env = false <-> exists e, init_provider i = Threw e)
  /\ (has_key key = false -> wallet env = None)
  /\ (ok = true ->
      provider env = true
      /\ (wallet env <> None <-> has_key key = true))
  /\ PROFIT_WALLET_ADDRESS env = profit_address.
Proof.
  unfold initBlockchain, ready.
  destruct (init_provider i) as [ [] | e1 ]; cbn [fst snd].
  - destruct (init_wsProvider i) as [ [] | e2 ]; cbn [fst snd].
    + destruct (has_key key) eqn:Hk.
      * destruct (init_wallet i) as [ address | e3 ]; cbn [fst snd].
        -- destruct (init_network i) as [ [] | e4 ]; cbn;
             repeat split; try congruence; try discriminate;
             try (intros (e & He); discriminate).
        -- cbn. repeat split; try congruence; try discriminate;
             try (intros (e & He); discriminate).
      * destruct (init_network i) as [ [] | e4 ]; cbn;
          repeat split; try congruence; try discriminate;
          try (intros (e & He); discriminate).
    + cbn. repeat split; try congruence; try discriminate;
        try (intros (e & He); discriminate).
  - cbn. repeat split; try congruence; try discriminate; eauto.
Qed.

(** ** The two ways a call past the guard ends *)

(** A number whose millionths lie between two integers is written, to six
    decimals, as an integer of millionths between them. *)
Lemma toFixed6_between (x : Q) (a b : Z) :
  0 <= a ->
  (inject_Z a <= x * 1000000)%Q -> (x * 1000000 <= inject_Z b)%Q ->
  (x < inject_Z (10 ^ 21))%Q ->
  exists n, Num.toFixed 6 x = Num.Fixed n 6 /\ a <= n <= b.
Proof.
  intros Ha Hlo Hhi Hbig.
  assert (H0 : (0 <= x)%Q).
  { assert (Ha' : (0 <= inject_Z a)%Q)
      by (change 0%Q with (inject_Z 0); now rewrite <- Zle_Qle).
    lra. }
  destruct (toFixed_nearest 6 x H0 Hbig) as (n & -> & _ & Hnlo & Hnhi).
  change (inject_Z (Num.pow10 6)) with 1000000%Q in Hnlo, Hnhi.
  exists n. split; [ reflexivity | ].
  assert (Hl : (inject_Z (a - 1) < inject_Z n)%Q).
  { unfold Z.sub. rewrite inject_Z_plus.
    change (inject_Z (- (1))) with (-1)%Q. lra. }
  assert (Hu : (inject_Z n < inject_Z (b + 1))%Q).
  { rewrite inject_Z_plus. change (inject_Z 1) with 1%Q. lra. }
  rewrite <- Zlt_Qlt in Hl, Hu. lia.
Qed.

(** X9. The balance check.  Past the guard, a balance below 0.001 ether, or
    a balance request that fails, makes the call throw after it has counted
    one attempt and one failure; profit, gas, average latency, last trade
    time, registry and totals are not touched.  A balance of exactly 0.001
    ether passes, and the call then returns a success record with the
    latency it measured. *)
Theorem executeStrategy_balance_check
  (env : Env) (k : nat) (i : ExecIn) (s : State) :
  ready env = true ->
  (forall balance,
     exec_balance i = Resolved balance -> balance < 10 ^ 15 ->
     executeStrategy env k i s
     = (Threw "Insufficient balance for gas", failed_state s))
  /\ (forall e,
        exec_balance i = Rejected e ->
        executeStrategy env k i s = (Threw e, failed_state s))
  /\ Stats.trades (stats (failed_state s)) = Stats.trades (stats s) + 1
  /\ Stats.failedTrades (stats (failed_state s))
     = Stats.failedTrades (stats s) + 1
  /\ Stats.successfulTrades (stats (failed_state s))
     = Stats.successfulTrades (stats s)
  /\ Stats.totalProfitETH (stats (failed_state s))
     = Stats.totalProfitETH (stats s)
  /\ Stats.totalGasCostETH (stats (failed_state s))
     = Stats.totalGasCostETH (stats s)
  /\ Stats.avgLatencyMs (stats (failed_state s)) = Stats.avgLatencyMs (stats s)
  /\ Stats.lastTradeTime (stats (failed_state s))
     = Stats.lastTradeTime (stats s)
  /\ strategies (failed_state s) = strategies s
  /\ totalTrades (failed_state s) = totalTrades s
  /\ totalProfitUSD (failed_state s) = totalProfitUSD s
  /\ (forall balance,
        exec_balance i = Resolved balance -> 10 ^ 15 <= balance ->
        (k < List.length (strategies s))%nat ->
        exists r,
          executeStrategy env k i s = (Returned r, success_state k i s)
          /\ success r = true
          /\ latencyMs r = exec_now_end i - exec_now_start i).
Proof.
  intros Hr. rewrite (executeStrategy_ready env k i s Hr). unfold exec_try.
  split; [ | split ].
  - intros balance -> Hlt.
    destruct (Z.ltb_spec balance (10 ^ 15)); [ reflexivity | lia ].
  - intros e ->. reflexivity.
  - do 10 (split; [ reflexivity | ]).
    intros balance -> Hge Hk.
    destruct (Z.ltb_spec balance (10 ^ 15)); [ lia | ].
    cbn [strategies set_stats].
    destruct (nth_error (strategies s) k) eqn:Hnth.
    + eexists. split; [ reflexivity | ]. split; reflexivity.
    + apply nth_error_None in Hnth. lia.
Qed.

Lemma executeStrategy_balance_check_witness :
  ready env_ready = true
  /\ executeStrategy env_ready 0 (exec_with_balance (10 ^ 15 - 1)) one_strategy
     = (Threw "Insufficient balance for gas", failed_state one_strategy)
  /\ exists r,
       executeStrategy env_ready 0 (exec_with_balance (10 ^ 15)) one_strategy
       = (Returned r,
          success_state 0 (exec_with_balance (10 ^ 15)) one_strategy).
Proof.
  assert (Hr : ready env_ready = true) by reflexivity.
  split; [ exact Hr | ]. split.
  - apply (proj1 (executeStrategy_balance_check env_ready 0
                    (exec_with_balance (10 ^ 15 - 1)) one_strategy Hr)
             (10 ^ 15 - 1)); [ reflexivity | lia ].
  - destruct (proj2 (proj2 (proj2 (proj2 (proj2 (proj2 (proj2 (proj2 (proj2
               (proj2 (proj2 (proj2
                 (executeStrategy_balance_check env_ready 0
                    (exec_with_balance (10 ^ 15)) one_strategy Hr))))))))))))
               (10 ^ 15) eq_refl) as (r & Hr' & _); [ lia | simpl; lia | ].
    exists r. exact Hr'.
Defined.

(** X10. A successful call.  With draws in [0, 1), the record it returns
    shows a profit between 0.001000 and 0.006000, a gas cost between
    0.000200 and 0.000700 and a net profit between 0.000300 and 0.005800, so
    never a loss.  In the registry only the strategy it was called on is
    written, and only by one trade and the profit at 3450 dollars. *)
Theorem executeStrategy_success_record
  (env : Env) (k : nat) (i : ExecIn) (s : State) (r : TradeResult)
  (s' : State) :
  good_exec i ->
  executeStrategy env k i s = (Returned r, s') ->
  (exists p g d,
     profitETH r = Num.Fixed p 6 /\ 1000 <= p <= 6000
     /\ gasCostETH r = Num.Fixed g 6 /\ 200 <= g <= 700
     /\ netProfitETH r = Num.Fixed d 6 /\ 300 <= d <= 5800)
  /\ (forall j, j <> k -> nth_error (strategies s') j = nth_error (strategies s) j)
  /\ exists x,
       nth_error (strategies s) k = Some x
       /\ nth_error (strategies s') k = Some (credit (profit_of i) x)
       /\ Strategy.totalTrades (credit (profit_of i) x)
          = Strategy.totalTrades x + 1
       /\ static (credit (profit_of i) x) = static x.
Proof.
  intros ((Hp0 & Hp1) & (Hg0 & Hg1)) Hex.
  destruct (executeStrategy_cases env k i s)
    as [ (_ & E) | [ (_ & _ & e & E) | [ (_ & Hf & Hk & r0 & E)
                                        | (_ & _ & _ & e & s0 & E) ] ] ];
    rewrite E in Hex; try discriminate.
  injection Hex as Hr Hs. subst s'.
  assert (Hrec : profitETH r = Num.toFixed 6 (profit_of i)
                 /\ gasCostETH r = Num.toFixed 6 (gasCost_of i)
                 /\ netProfitETH r
                    = Num.toFixed 6 (profit_of i - gasCost_of i)%Q).
  { subst r0.
    pose proof E as E'. unfold executeStrategy, exec_try in E'.
    destruct Hf as (balance & Hb & Hge). rewrite Hb in E'.
    destruct (wallet env); [ destruct (provider env) | ]; try discriminate.
    destruct (Z.ltb_spec balance (10 ^ 15)); [ lia | ].
    cbn [strategies set_stats] in E'.
    destruct (nth_error (strategies s) k); [ | discriminate ].
    injection E' as <-. repeat split; reflexivity. }
  destruct Hrec as (-> & -> & ->). unfold profit_of, gasCost_of.
  assert (Hbig : inject_Z (10 ^ 21) = 1000000000000000000000%Q) by reflexivity.
  split; [ | split ].
  - destruct (toFixed6_between (exec_random_profit i * 0.005 + 0.001) 1000 6000)
      as (p & Hpe & Hpr);
      [ lia | unfold inject_Z; lra | unfold inject_Z; lra
      | rewrite Hbig; lra | ].
    destruct (toFixed6_between (exec_random_gas i * 0.0005 + 0.0002) 200 700)
      as (g & Hge & Hgr);
      [ lia | unfold inject_Z; lra | unfold inject_Z; lra
      | rewrite Hbig; lra | ].
    destruct (toFixed6_between
                (exec_random_profit i * 0.005 + 0.001
                 - (exec_random_gas i * 0.0005 + 0.0002)) 300 5800)
      as (d & Hde & Hdr);
      [ lia | unfold inject_Z; lra | unfold inject_Z; lra
      | rewrite Hbig; lra | ].
    exists p, g, d. repeat split; try assumption; lia.
  - intros j Hj.
    cbn [success_state strategies set_totals set_strategies set_stats].
    rewrite nth_error_update.
    destruct (Nat.eqb_spec k j); [ congruence | reflexivity ].
  - destruct (nth_error (strategies s) k) as [ x | ] eqn:Hx;
      [ | apply nth_error_None in Hx; lia ].
    exists x. split; [ reflexivity | ]. split; [ | split; reflexivity ].
    cbn [success_state strategies set_totals set_strategies set_stats].
    rewrite nth_error_update, Nat.eqb_refl, Hx. reflexivity.
Qed.

Lemma executeStrategy_success_record_witness :
  good_exec (exec_ok 0 10)
  /\ exists r s',
       executeStrategy env_ready 0 (exec_ok 0 10) one_strategy
       = (Returned r, s')
       /\ exists p g d,
            profitETH r = Num.Fixed p 6 /\ 1000 <= p <= 6000
            /\ gasCostETH r = Num.Fixed g 6 /\ 200 <= g <= 700
            /\ netProfitETH r = Num.Fixed d 6 /\ 300 <= d <= 5800.
Proof.
  assert (Hg : good_exec (exec_ok 0 10)).
  { repeat split; cbn; lra. }
  split; [ exact Hg | ].
  eexists. eexists. split; [ reflexivity | ].
  exact (proj1 (executeStrategy_success_record env_ready 0 (exec_ok 0 10)
                  one_strategy _ _ Hg eq_refl)).
Defined.

(** ** The buffer as a window on the scans *)

Lemma tl_skipn {A : Type} (l : list A) :
  forall n, tl (skipn n l) = skipn (S n) l.
Proof.
  induction l as [ | x r IH ]; intros [ | n ]; try reflexivity.
  cbn [skipn]. apply IH.
Qed.

Lemma push_keep_last (opp : Opportunity.t) (l : list Opportunity.t) :
  push_bounded opp (keep_last 50 l) = keep_last 50 (l ++ [opp]).
Proof.
  unfold push_bounded, keep_last. rewrite !length_app, length_skipn.
  cbn [List.length].
  destruct (Nat.le_gt_cases (List.length l) 49) as [ Hle | Hgt ].
  - replace (List.length l - 50)%nat with 0%nat by lia.
    replace (List.length l + 1 - 50)%nat with 0%nat by lia.
    cbn [skipn].
    destruct (Nat.ltb_spec 50 (List.length l - 0 + 1)); [ lia | reflexivity ].
  - destruct (Nat.ltb_spec 50
                (List.length l - (List.length l - 50) + 1)); [ | lia ].
    rewrite skipn_app.
    replace (List.length l + 1 - 50 - List.length l)%nat with 0%nat by lia.
    cbn [skipn].
    replace (List.length l + 1 - 50)%nat with (S (List.length l - 50)) by lia.
    rewrite <- tl_skipn.
    destruct (skipn (List.length l - 50) l) as [ | x r ] eqn:Hs;
      [ | reflexivity ].
    apply (f_equal (@List.length _)) in Hs. rewrite length_skipn in Hs.
    cbn in Hs. lia.
Qed.

Lemma run_scans_window (env : Env) (l : list ScanIn) :
  forall s pre,
    opportunities s = keep_last 50 pre ->
    opportunities (run_scans env l s) = keep_last 50 (pre ++ all_found env l).
Proof.
  induction l as [ | i r IH ]; intros s pre Hs.
  - cbn. now rewrite app_nil_r.
  - change (run_scans env (i :: r) s)
      with (run_scans env r (snd (scanOpportunities env i s))).
    cbn [all_found flat_map]. fold (all_found env r). rewrite app_assoc.
    apply IH. unfold scan_found.
    destruct (scanOpportunities_cases env i s)
      as [ (Hp & E) | [ (Hp & Hrej & E) | (Hp & b & g & Hb & Hg & E) ] ];
      rewrite E, Hp; cbn [snd].
    + now rewrite app_nil_r.
    + destruct Hrej as [ (e & ->) | (e & He) ]; [ now rewrite app_nil_r | ].
      rewrite He. destruct (scan_blockNumber i); now rewrite app_nil_r.
    + rewrite Hb, Hg. cbn [opportunities set_opportunities].
      rewrite Hs. apply push_keep_last.
Qed.

(** X11. The buffer is a window on the scans: after any series of scans it
    holds exactly the last fifty opportunities found, in the order they were
    found; scans that found nothing leave no trace. *)
Theorem buffer_is_last_fifty (env : Env) (l : list ScanIn) (now : Z) :
  opportunities (run_scans env l (initial now))
  = keep_last 50 (all_found env l)
  /\ ((List.length (all_found env l) <= 50)%nat ->
      opportunities (run_scans env l (initial now)) = all_found env l).
Proof.
  assert (H : opportunities (run_scans env l (initial now))
              = keep_last 50 (all_found env l)).
  { apply (run_scans_window env l (initial now) []). reflexivity. }
  split; [ exact H | ]. intros Hle. rewrite H. unfold keep_last.
  replace (List.length (all_found env l) - 50)%nat with 0%nat by lia.
  reflexivity.
Qed.

(** ** [GET /api/strategies] and the generated registry *)

Lemma filter_filter {A : Type} (f g : A -> bool) (l : list A) :
  filter g (filter f l) = filter (fun x => f x && g x) l.
Proof.
  induction l as [ | x r IH ]; [ reflexivity | ].
  cbn [filter]. destruct (f x); cbn [andb filter]; now rewrite IH.
Qed.

Lemma filter_true {A : Type} (l : list A) : filter (fun _ => true) l = l.
Proof.
  induction l as [ | x r IH ]; [ reflexivity | ]. cbn. now rewrite IH.
Qed.

Lemma filter_given {A : Type} (f : string -> A -> bool) (o : option string)
  (l : list A) :
  match o with Some t => filter (f t) l | None => l end
  = filter (fun x => match o with Some t => f t x | None => true end) l.
Proof. destruct o; [ reflexivity | now rewrite filter_true ]. Qed.

Lemma filter_wanted {A : Type} (g : A -> bool) (b : bool) (l : list A) :
  (if b then filter g l else l)
  = filter (fun x => if b then g x else true) l.
Proof. destruct b; [ reflexivity | now rewrite filter_true ]. Qed.

Lemma listStrategies_filter (q : StrategiesQuery) (s : State) :
  snd (listStrategies q s) = filter (matches q) (strategies s).
Proof.
  unfold listStrategies, matches. cbn [snd].
  rewrite (filter_given (fun t x => String.eqb (Strategy.type x) t)).
  rewrite (filter_given (fun r x => String.eqb (Strategy.riskLevel x) r)).
  rewrite filter_wanted, !filter_filter.
  apply filter_ext. intros x. now rewrite andb_assoc.
Qed.

(** X12. The three filters of [/api/strategies] compose as a conjunction
    and keep the order of the registry: a strategy is listed exactly when it
    is in the registry and meets every condition the query gives, where an
    absent or empty [type] or [risk] gives none and [active] counts only as
    the text [true].  The [total] is the length of the list; a query without
    conditions lists the whole registry, and an empty registry lists
    nothing. *)
Theorem listStrategies_conjunction (q : StrategiesQuery) (s : State) :
  snd (listStrategies q s) = filter (matches q) (strategies s)
  /\ fst (listStrategies q s) = List.length (snd (listStrategies q s))
  /\ (forall x,
        In x (snd (listStrategies q s)) <->
        In x (strategies s)
        /\ (forall t, given (query_type q) = Some t -> Strategy.type x = t)
        /\ (forall r, given (query_risk q) = Some r ->
                      Strategy.riskLevel x = r)
        /\ (wants_active (query_active q) = true ->
            Strategy.enabled x = true))
  /\ (given (query_type q) = None -> given (query_risk q) = None ->
      wants_active (query_active q) = false ->
      listStrategies q s = (List.length (strategies s), strategies s))
  /\ (strategies s = [] -> listStrategies q s = (0%nat, [])).
Proof.
  pose proof (listStrategies_filter q s) as Hf.
  split; [ exact Hf | ]. split; [ reflexivity | ]. split; [ | split ].
  - intros x. rewrite Hf, filter_In. unfold matches.
    destruct (given (query_type q)) as [ t | ];
      destruct (given (query_risk q)) as [ r | ];
      destruct (wants_active (query_active q));
      rewrite ?andb_true_iff, ?String.eqb_eq;
      split; intros H; repeat split; try tauto;
      try (intros ? E; injection E as <-; tauto);
      try discriminate;
      try (destruct H as (_ & H1 & H2 & H3);
           first [ apply H1 | apply H2 | apply H3 ]; reflexivity).
  - intros Ht Hr Ha. unfold listStrategies. now rewrite Ht, Hr, Ha.
  - intros Hs. unfold listStrategies. rewrite Hs.
    destruct (given (query_type q)); destruct (given (query_risk q));
      destruct (wants_active (query_active q)); reflexivity.
Qed.

Lemma generated_risk_check (rand : nat -> Q) :
  forallb
    (fun i =>
       String.eqb (Strategy.riskLevel (newStrategy rand i))
         (risk_of_type (Strategy.type (newStrategy rand i))))
    (seq 0 450) = true.
Proof. vm_compute. reflexivity. Qed.

(** X13. In the generated registry the category fixes the risk tier, since
    nine categories cycle against three tiers: sandwich, arbitrage and
    flash_swap are always high, frontrun, liquidation and triangular always
    medium, backrun, jit_liquidity and cross_dex always low.  So a query for
    a category lists 50 strategies, a query for a tier 150, and a query for
    a category with a tier other than its own lists none. *)
Theorem category_fixes_risk (rand : nat -> Q) (now : Z) :
  let s := generateStrategies rand (initial now) in
  (forall x,
     In x (strategies s) ->
     Strategy.riskLevel x = risk_of_type (Strategy.type x))
  /\ (forall t, In t strategyTypes -> fst (listStrategies (by_type t) s) = 50%nat)
  /\ (forall r,
        In r ["high"; "medium"; "low"]%string ->
        fst (listStrategies (by_risk r) s) = 150%nat)
  /\ (forall t r,
        t <> ""%string -> r <> ""%string -> r <> risk_of_type t ->
        listStrategies (by_type_and_risk t r) s = (0%nat, [])).
Proof.
  intros s.
  assert (Hs : strategies s = map (newStrategy rand) (seq 0 450)).
  { unfold s. now rewrite generateStrategies_strategies. }
  assert (Hrisk : forall x,
             In x (strategies s) ->
             Strategy.riskLevel x = risk_of_type (Strategy.type x)).
  { intros x Hx. rewrite Hs in Hx. apply in_map_iff in Hx as (i & <- & Hi).
    pose proof (generated_risk_check rand) as Hall.
    rewrite forallb_forall in Hall. apply String.eqb_eq. now apply Hall. }
  split; [ exact Hrisk | ]. split; [ | split ].
  - intros t Ht. unfold listStrategies. cbn [fst]. rewrite Hs.
    cbn in Ht.
    repeat (destruct Ht as [ <- | Ht ]; [ vm_compute; reflexivity | ]).
    contradiction.
  - intros r Hr. unfold listStrategies. cbn [fst]. rewrite Hs.
    cbn in Hr.
    repeat (destruct Hr as [ <- | Hr ]; [ vm_compute; reflexivity | ]).
    contradiction.
  - intros t r Ht Hr Hne.
    assert (Hnil : snd (listStrategies (by_type_and_risk t r) s) = []).
    { destruct (snd (listStrategies (by_type_and_risk t r) s))
        as [ | x rest ] eqn:Hl; [ reflexivity | exfalso ].
      assert (Hx : In x (snd (listStrategies (by_type_and_risk t r) s)))
        by (rewrite Hl; now left).
      rewrite listStrategies_filter in Hx. apply filter_In in Hx as (Hin & Hm).
      unfold matches, by_type_and_risk, given in Hm. cbn in Hm.
      apply String.eqb_neq in Ht, Hr. rewrite Ht, Hr in Hm.
      apply andb_true_iff in Hm as (Hm & _).
      apply andb_true_iff in Hm as (Hmt & Hmr).
      apply String.eqb_eq in Hmt, Hmr.
      rewrite (Hrisk x Hin), Hmt in Hmr. congruence. }
    unfold listStrategies in Hnil |- *. cbn [snd] in Hnil. now rewrite Hnil.
Qed.

Lemma decimal_injective (n m : nat) : Num.decimal n = Num.decimal m -> n = m.
Proof.
  unfold Num.decimal. intros H.
  apply (f_equal NilEmpty.uint_of_string) in H. rewrite !NilEmpty.usu in H.
  injection H as H. apply (f_equal Nat.of_uint) in H.
  now rewrite !DecimalNat.Unsigned.of_to in H.
Qed.

Lemma NoDup_map_injective {A B : Type} (f : A -> B) (l : list A) :
  (forall x y, f x = f y -> x = y) -> NoDup l -> NoDup (map f l).
Proof.
  intros Hinj. induction 1 as [ | x r Hx _ IH ]; cbn [map]; constructor.
  - intros Hin. apply in_map_iff in Hin as (y & Hy & Hin).
    apply Hinj in Hy. subst y. contradiction.
  - exact IH.
Qed.

(** X14. The identifiers of the generated registry are pairwise distinct:
    the strategy of index [i] is [STRAT-<i+1>], and no two indices print
    alike. *)
Theorem generated_ids_distinct (rand : nat -> Q) (now : Z) :
  let l := strategies (generateStrategies rand (initial now)) in
  NoDup (map Strategy.id l)
  /\ (forall i x,
        nth_error l i = Some x ->
        Strategy.id x = ("STRAT-" ++ Num.decimal (i + 1))%string)
  /\ (forall i j x y,
        nth_error l i = Some x -> nth_error l j = Some y ->
        Strategy.id x = Strategy.id y -> i = j).
Proof.
  intros l.
  assert (Hl : l = map (newStrategy rand) (seq 0 450)).
  { unfold l. now rewrite generateStrategies_strategies. }
  assert (Hid : forall i x,
             nth_error l i = Some x ->
             Strategy.id x = ("STRAT-" ++ Num.decimal (i + 1))%string).
  { intros i x Hx. rewrite Hl in Hx.
    assert (Hi : (i < 450)%nat).
    { rewrite <- (length_seq 450 0), <- (length_map (newStrategy rand)).
      apply nth_error_Some. rewrite Hx. discriminate. }
    rewrite (nth_error_map_seq _ 450 i Hi) in Hx. injection Hx as <-.
    reflexivity. }
  assert (Hinj : forall i j : nat,
             ("STRAT-" ++ Num.decimal (i + 1))%string
             = ("STRAT-" ++ Num.decimal (j + 1))%string -> i = j).
  { intros i j H. cbn [String.append] in H. injection H as H.
    apply decimal_injective in H. lia. }
  split; [ | split; [ exact Hid | ] ].
  - rewrite Hl, map_map. cbn [newStrategy Strategy.id].
    apply NoDup_map_injective; [ exact Hinj | apply seq_NoDup ].
  - intros i j x y Hx Hy Hxy.
    rewrite (Hid i x Hx), (Hid j y Hy) in Hxy. now apply Hinj.
Qed.

(** ** What the query endpoints render *)

Lemma toFixed_between (p : nat) (x : Q) (a b : Z) :
  0 <= a ->
  (inject_Z a <= x * inject_Z (Num.pow10 p))%Q ->
  (x * inject_Z (Num.pow10 p) <= inject_Z b)%Q ->
  (x < inject_Z (10 ^ 21))%Q ->
  exists n, Num.toFixed p x = Num.Fixed n p /\ a <= n <= b.
Proof.
  intros Ha Hlo Hhi Hbig.
  assert (Hpow : (0 < inject_Z (Num.pow10 p))%Q).
  { change 0%Q with (inject_Z 0). rewrite <- Zlt_Qlt. unfold Num.pow10.
    apply Z.pow_pos_nonneg; lia. }
  assert (Ha' : (0 <= inject_Z a)%Q)
    by (change 0%Q with (inject_Z 0); now rewrite <- Zle_Qle).
  assert (H0 : (0 <= x)%Q).
  { destruct (Qlt_le_dec x 0) as [ Hneg | Hpos ]; [ exfalso | exact Hpos ].
    assert (Hprod : (x * inject_Z (Num.pow10 p) < 0)%Q).
    { rewrite <- (Qmult_0_l (inject_Z (Num.pow10 p))).
      apply Qmult_lt_compat_r; assumption. }
    set (y := (x * inject_Z (Num.pow10 p))%Q) in *. clearbody y.
    set (q := inject_Z a) in *. clearbody q. lra. }
  destruct (toFixed_nearest p x H0 Hbig) as (n & -> & _ & Hnlo & Hnhi).
  exists n. split; [ reflexivity | ].
  set (y := (x * inject_Z (Num.pow10 p))%Q) in *. clearbody y.
  assert (Hl : (inject_Z (a - 1) < inject_Z n)%Q).
  { unfold Z.sub. rewrite inject_Z_plus.
    change (inject_Z (- (1))) with (-1)%Q. lra. }
  assert (Hu : (inject_Z n < inject_Z (b + 1))%Q).
  { rewrite inject_Z_plus. change (inject_Z 1) with 1%Q. lra. }
  rewrite <- Zlt_Qlt in Hl, Hu. lia.
Qed.

Lemma success_percent_range (x : Stats.t) :
  0 <= Stats.successfulTrades x -> 0 <= Stats.failedTrades x ->
  Stats.trades x = Stats.successfulTrades x + Stats.failedTrades x ->
  0 < Stats.trades x ->
  (0 <= success_percent x /\ success_percent x <= 100)%Q.
Proof.
  intros Hs Hf Ht Hpos. unfold success_percent.
  assert (Htq : (0 < inject_Z (Stats.trades x))%Q).
  { change 0%Q with (inject_Z 0). now rewrite <- Zlt_Qlt. }
  assert (Hlo : (0 <= inject_Z (Stats.successfulTrades x)
                      / inject_Z (Stats.trades x))%Q).
  { apply Qle_shift_div_l; [ exact Htq | ]. rewrite Qmult_0_l.
    change 0%Q with (inject_Z 0). now rewrite <- Zle_Qle. }
  assert (Hhi : (inject_Z (Stats.successfulTrades x)
                 / inject_Z (Stats.trades x) <= 1)%Q).
  { apply Qle_shift_div_r; [ exact Htq | ]. rewrite Qmult_1_l.
    rewrite <- Zle_Qle. lia. }
  set (r := (inject_Z (Stats.successfulTrades x)
             / inject_Z (Stats.trades x))%Q) in *.
  clearbody r. split; lra.
Qed.

(** X15. The success rate.  In every state a process started by [main]
    reaches, [/api/metrics] and [/api/funds/stats] write the same success
    rate, a percentage of two decimals between 0.00 and 100.00, as soon as
    one trade has been attempted.  Before that they differ: the first
    writes ['0.00'], the second ['0'].  Both report the attempts as their
    trade count. *)
Theorem success_rate_rendering
  (env : Env) (rand : nat -> Q) (now : Z) (es : list Event) :
  Forall good_event es ->
  let s := state (run env es (started rand now)) in
  (Stats.trades (stats s) = 0 ->
   Metrics.successRate (metrics s) = Num.Fixed 0 2
   /\ Funds.successRate (fundsStats s) = Num.Fixed 0 0)
  /\ (0 < Stats.trades (stats s) ->
      exists n,
        Metrics.successRate (metrics s) = Num.Fixed n 2
        /\ Funds.successRate (fundsStats s) = Num.Fixed n 2
        /\ 0 <= n <= 10000)
  /\ Funds.totalTrades (fundsStats s) = Metrics.trades (metrics s).
Proof.
  intros Hes s.
  destruct (run_balanced env rand now es Hes) as (Ht & Hs & Hf & _).
  fold (started rand now) in Ht, Hs, Hf. fold s in Ht, Hs, Hf.
  cbn [metrics fundsStats Metrics.successRate Funds.successRate
       Funds.totalTrades Metrics.trades].
  split; [ | split; [ | reflexivity ] ].
  - intros H0. rewrite H0. split; reflexivity.
  - intros Hpos. destruct (Z.ltb_spec 0 (Stats.trades (stats s))); [ | lia ].
    destruct (success_percent_range (stats s) Hs Hf Ht Hpos) as (Hlo & Hhi).
    destruct (toFixed_between 2 (success_percent (stats s)) 0 10000)
      as (n & Hn & Hrange).
    + lia.
    + change (inject_Z (Num.pow10 2)) with 100%Q. change (inject_Z 0) with 0%Q.
      set (r := success_percent (stats s)) in *. clearbody r. lra.
    + change (inject_Z (Num.pow10 2)) with 100%Q.
      change (inject_Z 10000) with 10000%Q.
      set (r := success_percent (stats s)) in *. clearbody r. lra.
    + change (inject_Z (10 ^ 21)) with 1000000000000000000000%Q.
      set (r := success_percent (stats s)) in *. clearbody r. lra.
    + exists n. rewrite Hn. repeat split; lia.
Qed.

Lemma success_rate_rendering_witness :
  Forall good_event one_trade
  /\ Metrics.successRate
       (metrics (state (run env_ready one_trade (started (fun _ => 0%Q) 0))))
     = Num.Fixed 10000 2
  /\ Funds.totalTrades
       (fundsStats (state (run env_ready one_trade (started (fun _ => 0%Q) 0))))
     = Metrics.trades
         (metrics (state (run env_ready one_trade (started (fun _ => 0%Q) 0)))).
Proof.
  split; [ exact one_trade_good | ]. split; [ vm_compute; reflexivity | ].
  exact (proj2 (proj2 (success_rate_rendering env_ready (fun _ => 0%Q) 0
                         one_trade one_trade_good))).
Defined.

(** X16. When every buffered opportunity carries the same profit estimate,
    in particular when there is only one, the average that
    [/api/flashloans] reports is that estimate. *)
Theorem flashloans_average_of_equals (s : State) (n : Z) :
  opportunities s <> [] ->
  0 <= n < 10 ^ 27 ->
  Forall (fun o => Opportunity.profitETH o = Num.Fixed n 6) (opportunities s) ->
  avgProfitETH (flashloans s) = Num.Fixed n 6.
Proof.
  intros Hne Hn Hall. unfold flashloans. cbn [avgProfitETH].
  destruct (Nat.ltb_spec 0 (List.length (opportunities s))) as [ Hlen | Hlen ];
    [ | destruct (opportunities s); [ congruence | cbn in Hlen; lia ] ].
  assert (Hsum : forall l a,
             Forall (fun o => Opportunity.profitETH o = Num.Fixed n 6) l ->
             (fold_left
                (fun sum o => sum + Num.parseFloat (Opportunity.profitETH o))
                l a
              == a + inject_Z (Z.of_nat (List.length l))
                     * (inject_Z n / 1000000))%Q).
  { induction l as [ | o r IH ]; intros a Hl.
    - cbn. ring.
    - inversion Hl as [ | ? ? Ho Hr ]; subst. cbn [fold_left].
      rewrite (IH _ Hr), Ho. cbn [Num.parseFloat List.length].
      change (inject_Z (Num.pow10 6)) with 1000000%Q.
      rewrite Nat2Z.inj_succ. unfold Z.succ. rewrite inject_Z_plus.
      change (inject_Z 1) with 1%Q. ring. }
  assert (Hlenq : (0 < inject_Z (Z.of_nat (List.length (opportunities s))))%Q).
  { change 0%Q with (inject_Z 0). rewrite <- Zlt_Qlt. lia. }
  set (len := inject_Z (Z.of_nat (List.length (opportunities s)))) in *.
  assert (Hx : (fold_left
                  (fun sum o => sum + Num.parseFloat (Opportunity.profitETH o))
                  (opportunities s) 0 / len
                == inject_Z n / 1000000)%Q).
  { rewrite (Hsum _ 0%Q Hall). fold len. field. lra. }
  set (x := (fold_left _ _ _ / len)%Q) in *. clearbody x.
  assert (Hn0 : (0 <= inject_Z n)%Q)
    by (change 0%Q with (inject_Z 0); rewrite <- Zle_Qle; lia).
  assert (Hn1 : (inject_Z n < inject_Z (10 ^ 27))%Q)
    by (rewrite <- Zlt_Qlt; lia).
  change (inject_Z (10 ^ 27)) with 1000000000000000000000000000%Q in Hn1.
  assert (Hy : (x * 1000000 == inject_Z n)%Q) by (rewrite Hx; field).
  destruct (toFixed6_between x n n) as (m & -> & Hm).
  - lia.
  - rewrite Hy. apply Qle_refl.
  - rewrite Hy. apply Qle_refl.
  - change (inject_Z (10 ^ 21)) with 1000000000000000000000%Q.
    set (q := inject_Z n) in *. clearbody q. lra.
  - f_equal. lia.
Qed.

Lemma flashloans_average_of_equals_witness :
  opportunities (run_scans env_ready [scan_ok 1; scan_ok 2] (initial 0)) <> []
  /\ 0 <= 1000 < 10 ^ 27
  /\ Forall (fun o => Opportunity.profitETH o = Num.Fixed 1000 6)
       (opportunities
          (run_scans env_ready [scan_ok 1; scan_ok 2] (initial 0)))
  /\ avgProfitETH
       (flashloans (run_scans env_ready [scan_ok 1; scan_ok 2] (initial 0)))
     = Num.Fixed 1000 6.
Proof.
  set (s := run_scans env_ready [scan_ok 1; scan_ok 2] (initial 0)).
  assert (Hne : opportunities s <> []) by (vm_compute; discriminate).
  assert (Hn : 0 <= 1000 < 10 ^ 27) by lia.
  assert (Hall : Forall (fun o => Opportunity.profitETH o = Num.Fixed 1000 6)
                   (opportunities s))
    by (vm_compute; repeat constructor).
  repeat (split; [ assumption | ]).
  exact (flashloans_average_of_equals s 1000 Hne Hn Hall).
Defined.

(** ** The delay a round asks for *)

Lemma iteration_cadence (env : Env) (i : IterIn) (s : State) :
  cadence (snd (iteration env i s)) = cadence s.
Proof.
  destruct (iteration_flags env i s) as (_ & Hu). unfold cadence.
  now rewrite Hu.
Qed.

(** X17. A round sleeps the cadence of the mode (100 ms in high-frequency
    mode, 5000 ms otherwise) or the 10000 ms back-off.  A scan that fails is
    not an error for the loop: the round changes nothing and sleeps the
    cadence.  A round that finds the registry empty sleeps the cadence too
    and leaves the statistics alone.  Once an opportunity is found and a
    strategy picked, the round sleeps the cadence if the call is past its
    guard and funded, and the back-off if not. *)
Theorem round_delay (env : Env) (i : IterIn) (s : State) :
  (fst (iteration env i s) = cadence s \/ fst (iteration env i s) = backoff)
  /\ ((exists e, scan_blockNumber (iter_scan i) = Rejected e)
      \/ (exists e, scan_feeData (iter_scan i) = Rejected e) ->
      iteration env i s = (cadence s, s))
  /\ (strategies s = [] ->
      fst (iteration env i s) = cadence s
      /\ stats (snd (iteration env i s)) = stats s)
  /\ forall b g,
       provider env = true ->
       scan_blockNumber (iter_scan i) = Resolved b ->
       scan_feeData (iter_scan i) = Resolved g ->
       strategies s <> [] ->
       unit_interval (iter_random i) ->
       (ready env = true /\ funded (iter_exec i) ->
        fst (iteration env i s) = cadence s)
       /\ (ready env = false \/ ~ funded (iter_exec i) ->
           fst (iteration env i s) = backoff).
Proof.
  split; [ | split; [ | split ] ].
  - destruct (iteration_delay env i s) as [ H | H ]; [ left | now right ].
    now rewrite H, iteration_cadence.
  - intros Hrej. unfold iteration, scanOpportunities, scan_try.
    destruct (provider env); cbn [negb]; [ | reflexivity ].
    destruct Hrej as [ (e & ->) | (e & He) ]; [ reflexivity | ].
    rewrite He. now destruct (scan_blockNumber (iter_scan i)).
  - intros Hs. unfold iteration.
    scan_cases env (iter_scan i) s E b g; rewrite E; cbn [fst snd];
      try (split; reflexivity).
    cbn [strategies set_opportunities]. rewrite Hs. cbn. split; reflexivity.
  - intros b g Hp Hb Hg Hne Hpick.
    assert (Hlen : (0 < List.length (strategies s))%nat).
    { destruct (strategies s); [ congruence | cbn; lia ]. }
    pose proof (pick_in_range (iter_random i) _ Hpick Hlen) as Hk.
    unfold iteration, scanOpportunities, scan_try. rewrite Hp, Hb, Hg.
    cbn [negb strategies set_opportunities].
    destruct (Nat.ltb_spec 0 (List.length (strategies s))); [ | lia ].
    set (s1 := set_opportunities _ s).
    set (k := Z.to_nat _) in *.
    destruct (executeStrategy_cases env k (iter_exec i) s1)
      as [ (Hr & E) | [ (Hr & Hnf & e & E) | [ (Hr & Hf & _ & r & E)
                                              | (_ & _ & Hle & _) ] ] ];
      [ | | | cbn [s1 strategies set_opportunities] in Hle; lia ];
      rewrite E; cbn [fst snd]; split.
    + intros (Hr' & _). congruence.
    + reflexivity.
    + intros (_ & Hf). contradiction.
    + reflexivity.
    + intros _. unfold cadence, success_state, s1. reflexivity.
    + intros [ Hr' | Hnf ]; [ congruence | contradiction ].
Qed.

(** ** What a withdrawal can send *)

Lemma PROFIT_WALLET_not_empty (env : Env) : PROFIT_WALLET env <> ""%string.
Proof.
  unfold PROFIT_WALLET.
  destruct (PROFIT_WALLET_ADDRESS env) as [ a | ]; [ | discriminate ].
  destruct (String.eqb_spec a ""); [ discriminate | assumption ].
Qed.

Lemma parseEther_toFixed_nonneg (x : float) (wei : Z) :
  (x <=? 0)%float = false ->
  parseEther (B64.toFixed 18 x) = Returned wei ->
  0 <= wei.
Proof.
  intros Hpos Hwei.
  destruct (parseEther_toFixed_nearest x wei Hpos Hwei) as (q & Hq & _ & Hhi).
  pose proof (positive_amount x q Hpos Hq) as Hq0.
  assert (Hprod : (0 < q * inject_Z (10 ^ 18))%Q).
  { apply Qmult_lt_0_compat; [ exact Hq0 | reflexivity ]. }
  assert (H : (inject_Z (-1) < inject_Z wei)%Q).
  { change (inject_Z (-1)) with (-1)%Q.
    set (y := (q * inject_Z (10 ^ 18))%Q) in *. clearbody y.
    set (w := inject_Z wei) in *. clearbody w. lra. }
  rewrite <- Zlt_Qlt in H. lia.
Qed.

(** X18. Whatever the chain answers, one request to [/api/withdraw-all]
    passes at most one transaction to the wallet, and that transaction goes
    to the profit destination with a gas limit of 21000 and a value that is
    not negative.  The destination is the configured address, or the
    backend's own address when the variable is unset or empty, so it is
    never empty.  A success answer means a transaction was passed and its
    confirmation settled; it names the same destination and the hash of the
    receipt.  A balance call that fails is answered 500 with its message and
    nothing is sent; a transfer the wallet rejects, or whose confirmation
    fails, is answered 500 with that message although the transaction was
    passed to the wallet. *)
Theorem withdrawAll_transfers (env : Env) (i : WithdrawIn) :
  (List.length (snd (withdrawAll env i)) <= 1)%nat
  /\ Forall (fun tx => to tx = PROFIT_WALLET env
                       /\ gasLimit tx = 21000
                       /\ 0 <= value tx)
       (snd (withdrawAll env i))
  /\ PROFIT_WALLET env <> ""%string
  /\ (PROFIT_WALLET_ADDRESS env = None
      \/ PROFIT_WALLET_ADDRESS env = Some ""%string ->
      PROFIT_WALLET env = BACKEND_WALLET)
  /\ (forall a, PROFIT_WALLET_ADDRESS env = Some a -> a <> ""%string ->
                PROFIT_WALLET env = a)
  /\ (forall h amount dest,
        fst (withdrawAll env i) = Withdrawn h amount dest ->
        ready env = true
        /\ dest = PROFIT_WALLET env
        /\ wd_wait i = Resolved h
        /\ (exists sent, wd_send i = Resolved sent)
        /\ exists tx, snd (withdrawAll env i) = [tx])
  /\ (forall e, ready env = true -> wd_balance i = Rejected e ->
                withdrawAll env i = (Failed 500 e, []))
  /\ (forall e, snd (withdrawAll env i) <> [] ->
                wd_send i = Rejected e
                \/ (exists sent, wd_send i = Resolved sent)
                   /\ wd_wait i = Rejected e ->
                fst (withdrawAll env i) = Failed 500 e).
Proof.
  split; [ | split; [ | split; [ | split; [ | split;
    [ | split; [ | split ] ] ] ] ] ].
  - unfold withdrawAll.
    destruct (wallet env), (provider env); cbn [snd List.length]; try lia.
    destruct (wd_balance i) as [ b | ]; cbn [snd List.length]; try lia.
    destruct (withdrawAmount b <=? 0)%float; cbn [snd List.length]; try lia.
    destruct (parseEther _); cbn [snd List.length]; try lia.
    destruct (wd_send i); [ destruct (wd_wait i) | ];
      cbn [snd List.length]; lia.
  - unfold withdrawAll.
    destruct (wallet env), (provider env); try constructor.
    destruct (wd_balance i) as [ b | ]; try constructor.
    destruct (withdrawAmount b <=? 0)%float eqn:Hpos; try constructor.
    destruct (parseEther _) as [ wei | ] eqn:Hwei; try constructor.
    pose proof (parseEther_toFixed_nonneg _ wei Hpos Hwei) as H0.
    destruct (wd_send i); [ destruct (wd_wait i) | ];
      (constructor;
       [ cbn [to gasLimit value];
         split; [ reflexivity | split; [ reflexivity | exact H0 ] ]
       | constructor ]).
  - apply PROFIT_WALLET_not_empty.
  - unfold PROFIT_WALLET. intros [ -> | -> ]; reflexivity.
  - unfold PROFIT_WALLET. intros a -> Ha.
    destruct (String.eqb_spec a ""); [ contradiction | reflexivity ].
  - intros h amount dest. unfold withdrawAll, ready.
    destruct (wallet env), (provider env); try discriminate.
    destruct (wd_balance i) as [ b | ]; try discriminate.
    destruct (withdrawAmount b <=? 0)%float; try discriminate.
    destruct (parseEther _) as [ wei | ]; try discriminate.
    destruct (wd_send i) as [ sent | ]; try discriminate.
    destruct (wd_wait i) as [ r | ]; try discriminate.
    cbn [fst snd]. intros H. injection H as <- _ <-.
    repeat split; try reflexivity; eexists; reflexivity.
  - intros e Hr Hb. unfold ready in Hr. unfold withdrawAll.
    destruct (wallet env); [ | discriminate ]. now rewrite Hr, Hb.
  - intros e. unfold withdrawAll.
    destruct (wallet env), (provider env); try (cbn; congruence).
    destruct (wd_balance i) as [ b | ]; try (cbn; congruence).
    destruct (withdrawAmount b <=? 0)%float; try (cbn; congruence).
    destruct (parseEther _) as [ wei | ]; try (cbn; congruence).
    intros _ [ -> | ((sent & ->) & ->) ]; reflexivity.
Qed.

(** ** Switching modes *)

(** X19. A high-frequency start that arrives while the engine runs in
    normal mode is accepted.  It does not speed up the loop that is running:
    it launches one more instance beside it, every earlier instance staying
    where it was, and from then on each of them sleeps 100 ms instead of
    5000 ms.  In high-frequency mode a normal start is rejected, and a stop
    sets the cadence back to 5000 ms without ending any instance by
    itself. *)
Theorem uhf_start_adds_a_loop (env : Env) (w : World) :
  engineRunning (state w) = true ->
  uhfRunning (state w) = false ->
  let w' := snd (handle env StartUhf w) in
  fst (handle env StartUhf w) = Json "UHF engine started"
  /\ active w' = S (active w)
  /\ (forall n, (n < List.length (loops w))%nat -> loop_at w' n = loop_at w n)
  /\ live (loop_at w' (List.length (loops w))) = true
  /\ cadence (state w) = 5000
  /\ cadence (state w') = 100
  /\ handle env Start w' = (Status400 "Engine already running", w')
  /\ cadence (state (snd (handle env Stop w'))) = 5000
  /\ loops (snd (handle env Stop w')) = loops w'.
Proof.
  intros He Hu w'.
  destruct (step_active env w (Request StartUhf)) as (Hacc & _).
  cbn [step accepts] in Hacc. rewrite Hu in Hacc. specialize (Hacc eq_refl).
  fold w' in Hacc. subst w'. cbn [handle] in *. rewrite Hu in *.
  cbn [fst snd state loops] in *.
  split; [ reflexivity | ]. split; [ exact Hacc | ].
  split; [ | split; [ | split; [ | split; [ | split; [ | split ] ] ] ] ].
  - intros n Hn. unfold loop_at, launch. cbn [loops].
    now rewrite nth_error_app1.
  - unfold loop_at, launch. cbn [loops].
    rewrite nth_error_app2, Nat.sub_diag by lia. cbn [nth_error].
    unfold loop_top, enter. cbn. now destruct (provider env).
  - unfold cadence. now rewrite Hu.
  - reflexivity.
  - reflexivity.
  - reflexivity.
  - reflexivity.
Qed.

Lemma uhf_start_adds_a_loop_witness :
  engineRunning (state (run env_ready [Request Start] (boot (initial 0))))
  = true
  /\ uhfRunning (state (run env_ready [Request Start] (boot (initial 0))))
     = false
  /\ active (snd (handle env_ready StartUhf
                    (run env_ready [Request Start] (boot (initial 0)))))
     = 2%nat.
Proof.
  assert (He : engineRunning
                 (state (run env_ready [Request Start] (boot (initial 0))))
               = true) by reflexivity.
  assert (Hu : uhfRunning
                 (state (run env_ready [Request Start] (boot (initial 0))))
               = false) by reflexivity.
  repeat (split; [ assumption | ]).
  exact (proj1 (proj2 (uhf_start_adds_a_loop env_ready
                         (run env_ready [Request Start] (boot (initial 0)))
                         He Hu))).
Defined.

(** ** The books at every [await] *)

(** Run without interruption on the inputs of one round, an instance that
    starts a round reaches its timer within five steps, with the delay and
    in the state that [iteration] computes: the coroutine model is this one
    with every round taken in one piece. *)
Lemma round_is_iteration (env : Env) (i : IterIn) (s : State) :
  to_timer 5 env i (scan_call env) s
  = (AwaitTimer (fst (iteration env i s)), snd (iteration env i s)).
Proof.
  unfold scan_call, iteration, scanOpportunities, scan_try.
  destruct (provider env) eqn:Hp; cbn [negb to_timer proceed];
    [ | reflexivity ].
  destruct (scan_blockNumber (iter_scan i)) as [ b | e ];
    cbn [to_timer proceed]; [ | reflexivity ].
  destruct (scan_feeData (iter_scan i)) as [ g | e ];
    cbn [to_timer proceed]; [ | reflexivity ].
  cbn [strategies set_opportunities].
  destruct (0 <? List.length (strategies s))%nat; [ | reflexivity ].
  unfold execute_call, executeStrategy. rewrite Hp.
  destruct (wallet env); [ | reflexivity ].
  cbn [to_timer proceed].
  assert (E : started_at (exec_now_start (iter_exec i)) (iter_exec i)
              = iter_exec i) by (destruct (iter_exec i); reflexivity).
  rewrite E.
  match goal with
  | |- context [ exec_try ?k ?x ?s1 ] =>
      destruct (exec_try k x s1) as [ [ r | e ] s2 ]
  end; reflexivity.
Qed.

Lemma pending_app (l : list Await) (a : Await) :
  pending (l ++ [a]) = pending l + (if awaits_balance a then 1 else 0).
Proof.
  unfold pending. rewrite filter_app, length_app. cbn [filter].
  destruct (awaits_balance a); cbn [List.length]; lia.
Qed.

Lemma pending_update (a' : Await) (l : list Await) :
  forall n a,
    nth_error l n = Some a ->
    pending (update n (fun _ => a') l)
    = pending l - (if awaits_balance a then 1 else 0)
      + (if awaits_balance a' then 1 else 0).
Proof.
  unfold pending.
  induction l as [ | x r IH ]; intros [ | n ] a H; cbn [nth_error] in H;
    try discriminate.
  - injection H as ->. cbn [update filter].
    destruct (awaits_balance a), (awaits_balance a'); cbn [List.length]; lia.
  - cbn [update filter]. specialize (IH n a H).
    destruct (awaits_balance x); cbn [List.length]; lia.
Qed.

Lemma pending_unfinished (l : list Await) :
  0 <= pending l <= Z.of_nat (List.length (filter unfinished l)).
Proof.
  unfold pending. induction l as [ | [ | b | r | k t | r | ms | ] l IH ];
    cbn [filter awaits_balance unfinished List.length]; lia.
Qed.

Lemma earned_update (p : Q) (l : list Strategy.t) :
  (0.001 <= p)%Q -> (p <= 0.006)%Q ->
  forall k, Forall earned l -> Forall earned (update k (credit p) l).
Proof.
  intros Hp0 Hp1.
  induction l as [ | x r IH ]; intros [ | k ] Hl; cbn [update];
    try exact Hl; inversion Hl as [ | ? ? Hx Hr ]; subst; constructor;
    auto.
  destruct Hx as (Ht & Hlo & Hhi). unfold earned.
  cbn [credit Strategy.totalTrades Strategy.totalProfitUSD].
  rewrite inject_Z_plus. change (inject_Z 1) with 1%Q.
  set (t := inject_Z (Strategy.totalTrades x)) in *. clearbody t.
  split; [ lia | split; lra ].
Qed.


Lemma ledger_call (n : Z) (s : State) :
  ledger n s -> ledger (n + 1) (set_stats (incr_trades (stats s)) s).
Proof.
  unfold ledger. cbn. intros (Ht & H). split; [ lia | exact H ].
Qed.

Lemma ledger_failed (n : Z) (s : State) :
  ledger (n + 1) s -> ledger n (set_stats (incr_failedTrades (stats s)) s).
Proof.
  unfold ledger. cbn. intros (Ht & Hs & Hf & H).
  split; [ lia | split; [ lia | split; [ lia | exact H ] ] ].
Qed.

(** The call that awaited its balance goes on: it ends as a failure or as a
    success, and is no longer pending. *)
Lemma ledger_settle (n : Z) (k : nat) (i : ExecIn) (s : State) :
  good_exec i -> (k < List.length (strategies s))%nat ->
  ledger (n + 1) s ->
  match exec_try k i s with
  | (Threw _, s') => ledger n (set_stats (incr_failedTrades (stats s')) s')
  | (Returned _, s') => ledger n s'
  end.
Proof.
  intros ((Hp0 & Hp1) & (Hg0 & Hg1)) Hk H. unfold exec_try.
  destruct (exec_balance i) as [ balance | e ];
    [ | now apply ledger_failed ].
  destruct (balance <? 10 ^ 15); [ now apply ledger_failed | ].
  cbn [strategies set_stats].
  destruct (nth_error (strategies s) k) eqn:Hnth;
    [ | apply nth_error_None in Hnth; lia ].
  destruct H as (Ht & Hs & Hf & Htot & Hsum & Hsp & He & Hpr & Hgl & Hgh & Hu).
  unfold ledger.
  cbn [stats strategies totalTrades totalProfitUSD set_stats set_strategies
       set_totals record_success fold_latency Stats.trades
       Stats.successfulTrades Stats.failedTrades Stats.totalProfitETH
       Stats.totalGasCostETH].
  rewrite !inject_Z_plus. change (inject_Z 1) with 1%Q.
  set (p := (exec_random_profit i * 0.005 + 0.001)%Q) in *.
  set (g := (exec_random_gas i * 0.0005 + 0.0002)%Q) in *.
  assert (Hp : (0.001 <= p)%Q /\ (p <= 0.006)%Q) by (unfold p; split; lra).
  assert (Hg : (0.0002 <= g)%Q /\ (g <= 0.0007)%Q) by (unfold g; split; lra).
  clearbody p g. destruct Hp as (Hpa & Hpb). destruct Hg as (Hga & Hgb).
  set (c := inject_Z (Stats.successfulTrades (stats s))) in *. clearbody c.
  split; [ lia | ]. split; [ lia | ]. split; [ lia | ]. split; [ lia | ].
  split; [ rewrite sum_trades_update by exact Hk; lia | ].
  split; [ rewrite sum_profit_update by exact Hk; rewrite Hsp; ring | ].
  split; [ now apply earned_update | ].
  split; [ lra | ]. split; [ lra | ]. split; lra.
Qed.

Lemma exec_try_registry (k : nat) (i : ExecIn) (s : State) :
  List.length (strategies (snd (exec_try k i s)))
  = List.length (strategies s).
Proof.
  unfold exec_try.
  destruct (exec_balance i) as [ balance | e ]; [ | reflexivity ].
  destruct (balance <? 10 ^ 15); [ reflexivity | ].
  cbn [strategies set_stats].
  destruct (nth_error (strategies s) k); [ | reflexivity ].
  cbn [snd strategies set_totals set_strategies]. apply update_length.
Qed.

(** A step that neither writes the books nor starts or ends a call. *)
Ltac step_aside :=
  solve [ cbn [fst snd awaits_balance holds_strategy];
          split; [ assumption | split; [ exact I | reflexivity ] ] ].

(** One step of an instance keeps the books, whatever else is suspended:
    [m] is the number of the other calls that await their balance. *)
Lemma proceed_audited (env : Env) (i : IterIn) (a : Await) (s : State)
  (m : Z) :
  good_iter i ->
  holds_strategy (List.length (strategies s)) a ->
  ledger (m + (if awaits_balance a then 1 else 0)) s ->
  let a' := fst (proceed env i a s) in
  let s' := snd (proceed env i a s) in
  ledger (m + (if awaits_balance a' then 1 else 0)) s'
  /\ holds_strategy (List.length (strategies s')) a'
  /\ List.length (strategies s') = List.length (strategies s).
Proof.
  intros (_ & Hpick & Hexec) Ha H.
  destruct a as [ | b | [ | | opp ] | k t | [ r | e ] | ms | ];
    cbn [proceed awaits_balance] in *; try step_aside.
  - destruct (scan_blockNumber (iter_scan i)); step_aside.
  - destruct (scan_feeData (iter_scan i)); [ | step_aside ].
    cbn [fst snd awaits_balance holds_strategy].
    split; [ exact H | split; [ exact I | reflexivity ] ].
  - destruct (Nat.ltb_spec 0 (List.length (strategies s))) as [ Hlen | _ ];
      [ | step_aside ].
    pose proof (pick_in_range (iter_random i) _ Hpick Hlen) as Hk.
    unfold execute_call.
    destruct (wallet env); [ destruct (provider env) | ]; try step_aside.
    cbn [fst snd awaits_balance holds_strategy strategies set_stats].
    split; [ | split; [ exact Hk | reflexivity ] ].
    rewrite Z.add_0_r in H. now apply ledger_call.
  - pose proof (ledger_settle m k (started_at t (iter_exec i)) s Hexec Ha H)
      as Hset.
    pose proof (exec_try_registry k (started_at t (iter_exec i)) s) as Hreg.
    destruct (exec_try k (started_at t (iter_exec i)) s) as [ [ r | e ] s' ];
      cbn [fst snd awaits_balance holds_strategy strategies set_stats]
        in *;
      rewrite Z.add_0_r;
      (split; [ exact Hset | split; [ exact I | exact Hreg ] ]).
  - unfold while_test, scan_call.
    destruct (engineRunning s || uhfRunning s); [ destruct (provider env) | ];
      step_aside.
Qed.

Lemma holds_strategy_at (n : nat) (l : list Await) (k : nat) (a : Await) :
  Forall (holds_strategy n) l -> nth_error l k = Some a -> holds_strategy n a.
Proof.
  intros Hl Hk. rewrite Forall_forall in Hl. apply Hl.
  eapply nth_error_In. exact Hk.
Qed.

Lemma advance_audited (env : Env) (p : Process) (e : Event) :
  good_event e -> audited p -> audited (advance env p e).
Proof.
  intros He (Hl & Hh).
  assert (Hspawn : forall s,
             pending (spawn env s (instances p)) = pending (instances p)
             /\ Forall (holds_strategy (List.length (strategies (memory p))))
                  (spawn env s (instances p))).
  { intros s. unfold spawn. rewrite pending_app. split.
    - unfold while_test, scan_call.
      destruct (engineRunning s || uhfRunning s);
        [ destruct (provider env) | ]; cbn [awaits_balance]; lia.
    - apply Forall_app. split; [ exact Hh | ].
      constructor; [ | constructor ]. unfold while_test, scan_call.
      destruct (engineRunning s || uhfRunning s);
        [ destruct (provider env) | ]; exact I. }
  destruct e as [ [ | | ] | n i ]; cbn [advance serve].
  - destruct (engineRunning (memory p)); cbn [snd]; [ split; assumption | ].
    destruct (Hspawn (set_flags true (uhfRunning (memory p)) (memory p)))
      as (Hpe & Hfo).
    split; cbn [memory instances]; [ rewrite Hpe; exact Hl | exact Hfo ].
  - split; cbn [snd memory instances]; [ exact Hl | exact Hh ].
  - destruct (uhfRunning (memory p)); cbn [snd]; [ split; assumption | ].
    destruct (Hspawn (set_flags true true (memory p))) as (Hpe & Hfo).
    split; cbn [memory instances]; [ rewrite Hpe; exact Hl | exact Hfo ].
  - destruct (nth_error (instances p) n) as [ a | ] eqn:Hn;
      [ | split; assumption ].
    pose proof (holds_strategy_at _ _ _ _ Hh Hn) as Ha.
    pose proof (pending_update (fst (proceed env i a (memory p)))
                  (instances p) n a Hn) as Hpe.
    destruct (proceed_audited env i a (memory p)
                (pending (instances p)
                 - (if awaits_balance a then 1 else 0)) He Ha)
      as (Hl' & Ha' & Hlen).
    { replace (pending (instances p) - (if awaits_balance a then 1 else 0)
               + (if awaits_balance a then 1 else 0))
        with (pending (instances p)) by lia.
      exact Hl. }
    destruct (proceed env i a (memory p)) as [ a' s' ].
    cbn [fst snd] in *. split; cbn [memory instances].
    + rewrite Hpe. exact Hl'.
    + rewrite Hlen in Ha' |- *. apply Forall_update; assumption.
Qed.

Lemma execution_audited (env : Env) (es : list Event) :
  Forall good_event es ->
  forall p, audited p -> audited (execution env es p).
Proof.
  induction 1 as [ | e r He _ IH ]; intros p Hp; [ exact Hp | ].
  change (execution env (e :: r) p) with (execution env r (advance env p e)).
  apply IH. now apply advance_audited.
Qed.

Lemma generated_earned (rand : nat -> Q) (l : list nat) :
  Forall earned (map (newStrategy rand) l).
Proof.
  induction l as [ | i r IH ]; cbn [map]; constructor; [ | exact IH ].
  unfold earned.
  cbn [newStrategy Strategy.totalTrades Strategy.totalProfitUSD].
  change (inject_Z 0) with 0%Q. split; [ lia | split; lra ].
Qed.

Lemma generateStrategies_frame (rand : nat -> Q) (s : State) :
  stats (generateStrategies rand s) = stats s
  /\ totalTrades (generateStrategies rand s) = totalTrades s
  /\ totalProfitUSD (generateStrategies rand s) = totalProfitUSD s.
Proof.
  unfold generateStrategies. generalize (seq 0 450). intros l. revert s.
  induction l as [ | i r IH ]; intros s; [ auto | ].
  cbn [fold_left].
  destruct (IH (set_strategies (strategies s ++ [newStrategy rand i]) s))
    as (-> & -> & ->).
  auto.
Qed.

Lemma launched_audited (rand : nat -> Q) (now : Z) :
  audited (launched rand now).
Proof.
  destruct (generated_nothing_credited rand (seq 0 450)) as (Ht & Hp).
  destruct (generateStrategies_frame rand (initial now)) as (Hst & Htot & Hu).
  split; [ | constructor ].
  unfold ledger, launched. cbn [memory instances pending filter List.length].
  rewrite Hst, Htot, Hu, generateStrategies_strategies.
  cbn [initial stats totalTrades totalProfitUSD strategies app Stats.trades
       Stats.successfulTrades Stats.failedTrades Stats.totalProfitETH
       Stats.totalGasCostETH].
  rewrite Ht, Hp. change (inject_Z 0) with 0%Q.
  split; [ reflexivity | ]. split; [ lia | ]. split; [ lia | ].
  split; [ reflexivity | ]. split; [ reflexivity | ].
  split; [ reflexivity | ]. split; [ apply generated_earned | ].
  split; [ lra | ]. split; [ lra | ]. split; lra.
Qed.

(** Whatever happens to a process started by [main], and wherever its loops
    are suspended, the books are kept. *)
Lemma execution_ledger
  (env : Env) (rand : nat -> Q) (now : Z) (es : list Event) :
  Forall good_event es ->
  ledger (pending (instances (execution env es (launched rand now))))
    (memory (execution env es (launched rand now))).
Proof.
  intros Hes.
  exact (proj1 (execution_audited env es Hes _ (launched_audited rand now))).
Qed.

Lemma up_to_balance_good : Forall good_event up_to_balance.
Proof.
  repeat constructor; cbn; lra.
Qed.

(** X1. The counters, at every [await].  Whatever commands arrive, however
    many loops run and wherever they are suspended, with draws in [0, 1):
    the attempts that [/api/metrics] reports are its successes plus its
    failures plus the calls of [executeStrategy] that await their balance,
    which have counted their attempt and not yet its outcome.  There are at
    most as many of those as there are loops that have not returned.  The
    [totalTrades] of [/api/status] is the number of successes, not of
    attempts. *)
Theorem counters_at_every_await
  (env : Env) (rand : nat -> Q) (now : Z) (es : list Event) (i : StatusIn) :
  Forall good_event es ->
  let p := execution env es (launched rand now) in
  let s := memory p in
  Metrics.trades (metrics s)
  = Metrics.successfulTrades (metrics s) + Metrics.failedTrades (metrics s)
    + pending (instances p)
  /\ 0 <= Metrics.successfulTrades (metrics s)
  /\ 0 <= Metrics.failedTrades (metrics s)
  /\ 0 <= pending (instances p)
     <= Z.of_nat (List.length (filter unfinished (instances p)))
  /\ forall body,
       status env i s = StatusJson body ->
       Status.totalTrades body = Metrics.successfulTrades (metrics s).
Proof.
  intros Hes p s.
  destruct (execution_ledger env rand now es Hes) as (Ht & Hs & Hf & Htot & _).
  fold p in Ht, Hs, Hf, Htot. fold s in Ht, Hs, Hf, Htot.
  cbn [metrics Metrics.trades Metrics.successfulTrades Metrics.failedTrades].
  split; [ exact Ht | ]. split; [ exact Hs | ]. split; [ exact Hf | ].
  split; [ apply pending_unfinished | ].
  intros body Hbody.
  assert (Hb : Status.totalTrades body = totalTrades s).
  { unfold status in Hbody.
    destruct (provider env);
      [ destruct (status_balance i); [ | discriminate ];
        destruct (status_blockNumber i); [ | discriminate ] | ];
      injection Hbody as <-; reflexivity. }
  now rewrite Hb.
Qed.

(** The statement while the first call awaits its balance: one attempt, no
    success and no failure yet. *)
Lemma counters_at_every_await_witness :
  Forall good_event up_to_balance
  /\ pending
       (instances (execution env_ready up_to_balance
                     (launched (fun _ => 0%Q) 0)))
     = 1
  /\ Metrics.trades
       (metrics (memory (execution env_ready up_to_balance
                           (launched (fun _ => 0%Q) 0))))
     = Metrics.successfulTrades
         (metrics (memory (execution env_ready up_to_balance
                             (launched (fun _ => 0%Q) 0))))
       + Metrics.failedTrades
           (metrics (memory (execution env_ready up_to_balance
                               (launched (fun _ => 0%Q) 0))))
       + pending
           (instances (execution env_ready up_to_balance
                         (launched (fun _ => 0%Q) 0))).
Proof.
  split; [ exact up_to_balance_good | ].
  split; [ vm_compute; reflexivity | ].
  exact (proj1 (counters_at_every_await env_ready (fun _ => 0%Q) 0
                  up_to_balance
                  {| status_balance := Resolved 0;
                     status_blockNumber := Resolved 0 |}
                  up_to_balance_good)).
Defined.

(** X2. The money, at every [await].  The cumulative gas cost is never
    negative and never above the cumulative profit, so the net profit that
    the endpoints render is never negative, and the dollar total is never
    negative.  Before the first success all three are zero; from the first
    success on, gas cost and dollar total are positive. *)
Theorem money_never_negative
  (env : Env) (rand : nat -> Q) (now : Z) (es : list Event) :
  Forall good_event es ->
  let s := memory (execution env es (launched rand now)) in
  (0 <= Stats.totalGasCostETH (stats s))%Q
  /\ (Stats.totalGasCostETH (stats s) <= Stats.totalProfitETH (stats s))%Q
  /\ (0 <= totalProfitUSD s)%Q
  /\ (Stats.successfulTrades (stats s) = 0 ->
      (Stats.totalGasCostETH (stats s) == 0)%Q)
  /\ (0 < Stats.successfulTrades (stats s) ->
      (0 < Stats.totalGasCostETH (stats s))%Q /\ (0 < totalProfitUSD s)%Q).
Proof.
  intros Hes s.
  destruct (execution_ledger env rand now es Hes)
    as (_ & Hs & _ & _ & _ & _ & _ & Hpr & Hgl & Hgh & Hu).
  fold s in Hs, Hpr, Hgl, Hgh, Hu.
  assert (Hc : (0 <= inject_Z (Stats.successfulTrades (stats s)))%Q).
  { change 0%Q with (inject_Z 0). now rewrite <- Zle_Qle. }
  split; [ lra | ]. split; [ lra | ]. split; [ lra | ]. split.
  - intros H0. rewrite H0 in Hgl, Hgh. change (inject_Z 0) with 0%Q in *.
    lra.
  - intros Hpos.
    assert (H1 : (1 <= inject_Z (Stats.successfulTrades (stats s)))%Q).
    { change 1%Q with (inject_Z 1). rewrite <- Zle_Qle. lia. }
    split; lra.
Qed.

(** The statement once the first call has gone on from its balance: one
    success, with its gas cost. *)
Lemma money_never_negative_witness :
  Forall good_event (up_to_balance ++ [Resume 0 (iter_ok 1)])
  /\ Stats.successfulTrades
       (stats (memory (execution env_ready
                         (up_to_balance ++ [Resume 0 (iter_ok 1)])
                         (launched (fun _ => 0%Q) 0))))
     = 1
  /\ (0 <= Stats.totalGasCostETH
             (stats (memory (execution env_ready
                               (up_to_balance ++ [Resume 0 (iter_ok 1)])
                               (launched (fun _ => 0%Q) 0)))))%Q.
Proof.
  assert (H : Forall good_event (up_to_balance ++ [Resume 0 (iter_ok 1)])).
  { repeat constructor; cbn; lra. }
  split; [ exact H | ]. split; [ vm_compute; reflexivity | ].
  exact (proj1 (money_never_negative env_ready (fun _ => 0%Q) 0
                  (up_to_balance ++ [Resume 0 (iter_ok 1)]) H)).
Defined.


